(** * PongGame: a shallow embedding of [pongGame.py] and its properties.

    Python floats are read as real numbers ([R]), so rounding is left out;
    Python ints are [Z], injected with [IZR] where the source mixes them
    with floats.  An exception is a [None] result.  The values returned by
    the [random] module are explicit arguments (records of draws), one per
    call site.  Of pygame only [Vector2] and [Rect] enter the game logic;
    they are modelled after the library's behaviour.  [Rect] comes twice:
    module [PongGame] builds rectangles from integers of any size, module
    [Machine] builds them as [pygame.Rect] does, from C integers, with the
    [TypeError] and the wrap-around of the constructor.  The two agree while
    the coordinates are small, and the statements about [Machine] say so.
    Window, clock, fonts and drawing are left out. *)

From Stdlib Require Import Reals Lra Lia ZArith List Bool.
From Stdlib Require String DecimalString.
Import ListNotations.
Import String.StringSyntax.
Delimit Scope string_scope with string.

Open Scope R_scope.

(** ** Python primitives *)

Definition Rltb (a b : R) : bool := if Rlt_dec a b then true else false.
Definition Rleb (a b : R) : bool := if Rle_dec a b then true else false.
Definition Rgtb (a b : R) : bool := if Rgt_dec a b then true else false.
Definition Rgeb (a b : R) : bool := if Rge_dec a b then true else false.

(** [int(v)] on a float: truncation toward zero. *)
Definition py_int (v : R) : Z :=
  if Rle_dec 0 v then Int_part v else (- Int_part (- v))%Z.

(** Float division raises [ZeroDivisionError] on a zero divisor. *)
Definition py_div (a b : R) : option R :=
  if Req_dec_T b 0 then None else Some (a / b).

(** [random.randint(lo, hi)] raises [ValueError] on an empty range;
    otherwise it returns the drawn value (which lies in [lo..hi]). *)
Definition randint (lo hi drawn : Z) : option Z :=
  if (lo <=? hi)%Z then Some drawn else None.

Definition bind {A B : Type} (m : option A) (k : A -> option B) : option B :=
  match m with
  | Some a => k a
  | None => None
  end.

Notation "x <- m ;; k" := (bind m (fun x => k))
  (at level 61, m at next level, right associativity).

(** ** pygame values used by the game logic *)

Module Vector2.
Record t := mk { x : R; y : R }.

Definition sub (a b : t) : t := mk (x a - x b) (y a - y b).

Definition length (v : t) : R := sqrt (x v * x v + y v * y v).

(** [normalize] raises [ValueError] on a vector of length zero. *)
Definition normalize (v : t) : option t :=
  if Req_dec_T (length v) 0 then None
  else Some (mk (x v / length v) (y v / length v)).
End Vector2.

Module Rect.
Record t := mk { x : Z; y : Z; w : Z; h : Z }.

Definition left (r : t) : Z := x r.
Definition top (r : t) : Z := y r.
Definition right (r : t) : Z := (x r + w r)%Z.
Definition bottom (r : t) : Z := (y r + h r)%Z.

(** pygame 2: rectangles of zero width or height collide with nothing;
    otherwise the open interiors must overlap on both axes. *)
Definition colliderect (a b : t) : bool :=
  if (w a =? 0)%Z || (h a =? 0)%Z || (w b =? 0)%Z || (h b =? 0)%Z
  then false
  else
    (Z.min (x a) (x a + w a) <? Z.max (x b) (x b + w b))%Z
    && (Z.min (y a) (y a + h a) <? Z.max (y b) (y b + h b))%Z
    && (Z.max (x a) (x a + w a) >? Z.min (x b) (x b + w b))%Z
    && (Z.max (y a) (y a + h a) >? Z.min (y b) (y b + h b))%Z.
End Rect.

(** The constructor [pygame.Rect(x, y, w, h)] on Python ints.  Each
    argument is converted to a C [long] (64 bits), and a [TypeError] is
    raised when one does not fit; the value is then stored in a C [int]
    (32 bits), which keeps its low 32 bits as a signed number. *)
Definition fits_c_long (z : Z) : bool :=
  (- 2 ^ 63 <=? z)%Z && (z <? 2 ^ 63)%Z.

Definition c_int (z : Z) : Z := ((z + 2 ^ 31) mod 2 ^ 32 - 2 ^ 31)%Z.

Definition pygame_Rect (x y w h : Z) : option Rect.t :=
  if fits_c_long x && fits_c_long y && fits_c_long w && fits_c_long h
  then Some (Rect.mk (c_int x) (c_int y) (c_int w) (c_int h))
  else None.

(** ** Configuration and entities *)

Record Config := {
  width : Z;
  height : Z;
  paddle_w : Z;
  paddle_h : Z;
  paddle_speed : R;
  ball_radius : Z;
  ball_speed : R;
  ball_speed_max : R;
  score_to_win : Z;
  powerup_radius : Z;
  powerup_spawn_every_sec : R;
  boost_duration_sec : R;
  boost_multiplier : R;
  ai_reaction : R;
  ai_max_speed_factor : R
}.

(** The defaults of the frozen dataclass; the game only ever uses these. *)
Definition default_config : Config := {|
  width := 900;
  height := 540;
  paddle_w := 14;
  paddle_h := 110;
  paddle_speed := 420.0;
  ball_radius := 10;
  ball_speed := 360.0;
  ball_speed_max := 860.0;
  score_to_win := 7;
  powerup_radius := 12;
  powerup_spawn_every_sec := 7.0;
  boost_duration_sec := 1.2;
  boost_multiplier := 1.35;
  ai_reaction := 0.10;
  ai_max_speed_factor := 0.92
|}.

Inductive GameState := MENU | PLAYING | PAUSED | GAMEOVER.

Module Paddle.
Record t := mk { x : R; y : R; w : Z; h : Z; speed : R }.

(** The rectangle of the paddle with its coordinates as integers of any
    size; [Machine.rect] is [rect()] with the constructor of pygame. *)
Definition rect (p : t) : Rect.t :=
  Rect.mk (py_int (x p)) (py_int (y p)) (w p) (h p).

Definition center_y (p : t) : R := y p + IZR (h p) / 2.

Definition set_y (p : t) (v : R) : t := mk (x p) v (w p) (h p) (speed p).
End Paddle.

Module Ball.
Record t := mk { x : R; y : R; r : Z; vx : R; vy : R; speed : R }.

Definition pos (b : t) : Vector2.t := Vector2.mk (x b) (y b).

Definition set_x (b : t) (v : R) : t :=
  mk v (y b) (r b) (vx b) (vy b) (speed b).
Definition set_y (b : t) (v : R) : t :=
  mk (x b) v (r b) (vx b) (vy b) (speed b).
Definition set_vx (b : t) (v : R) : t :=
  mk (x b) (y b) (r b) v (vy b) (speed b).
Definition set_vy (b : t) (v : R) : t :=
  mk (x b) (y b) (r b) (vx b) v (speed b).
Definition set_speed (b : t) (v : R) : t :=
  mk (x b) (y b) (r b) (vx b) (vy b) v.
End Ball.

Module PowerUp.
Record t := mk { x : R; y : R; r : Z; active : bool }.
End PowerUp.

(** ** Free functions *)

Definition clamp (v lo hi : R) : R := Rmax lo (Rmin hi v).

(** The two values one serve draws: [random.uniform(-0.35, 0.35)] and
    [random.choice([-1, 1])]. *)
Record ServeDraw := { drawn_angle : R; drawn_choice : Z }.

Definition random_ball_direction (d : ServeDraw) : Z * R :=
  let angle := drawn_angle d in
  let dir_x := drawn_choice d in
  (dir_x, angle).

Definition reset_round (cfg : Config) (ball : Ball.t) (serve_to_left : bool)
    (d : ServeDraw) : option Ball.t :=
  let ball := Ball.set_x ball (IZR (width cfg) / 2) in
  let ball := Ball.set_y ball (IZR (height cfg) / 2) in
  let ball := Ball.set_speed ball (ball_speed cfg) in
  let '(dir_x, angle) := random_ball_direction d in
  let dir_x := if serve_to_left then (-1)%Z else 1%Z in
  let vx := IZR dir_x * cos angle in
  let vy := sin angle in
  let v := Vector2.mk vx vy in
  let v := if Req_dec_T (Vector2.length v) 0
           then Vector2.mk (IZR dir_x) 0.1 else v in
  v <- Vector2.normalize v ;;
  let ball := Ball.set_vx ball (Vector2.x v) in
  let ball := Ball.set_vy ball (Vector2.y v) in
  Some ball.

Definition circle_rect_collision (cx cy cr : R) (rect : Rect.t) : bool :=
  let nearest_x := clamp cx (IZR (Rect.left rect)) (IZR (Rect.right rect)) in
  let nearest_y := clamp cy (IZR (Rect.top rect)) (IZR (Rect.bottom rect)) in
  let dx := cx - nearest_x in
  let dy := cy - nearest_y in
  Rleb (dx * dx + dy * dy) (cr * cr).

Definition apply_paddle_bounce (cfg : Config) (ball : Ball.t)
    (paddle : Paddle.t) (is_left : bool) : option Ball.t :=
  let ball := Ball.set_vx ball
    (if is_left then Rabs (Ball.vx ball) else - Rabs (Ball.vx ball)) in
  offset <- py_div (Ball.y ball - Paddle.center_y paddle)
                   (IZR (Paddle.h paddle) / 2) ;;
  let offset := clamp offset (-1.0) 1.0 in
  let ball := Ball.set_vy ball (offset * 0.95) in
  let v := Vector2.mk (Ball.vx ball) (Ball.vy ball) in
  let v := if Req_dec_T (Vector2.length v) 0
           then Vector2.mk (if is_left then 1 else -1) 0.1 else v in
  v <- Vector2.normalize v ;;
  let ball := Ball.set_vx ball (Vector2.x v) in
  let ball := Ball.set_vy ball (Vector2.y v) in
  let ball := Ball.set_speed ball
    (Rmin (ball_speed_max cfg) (Ball.speed ball * 1.03)) in
  Some ball.

Definition ai_move (cfg : Config) (ai : Paddle.t) (ball : Ball.t) (dt : R)
    : Paddle.t :=
  let target := Ball.y ball in
  let desired :=
    Paddle.center_y ai
    + (target - Paddle.center_y ai) * (1.0 - ai_reaction cfg) in
  let ai :=
    if Rgt_dec desired (Paddle.center_y ai + 2)
    then Paddle.set_y ai
           (Paddle.y ai + Paddle.speed ai * ai_max_speed_factor cfg * dt)
    else if Rlt_dec desired (Paddle.center_y ai - 2)
    then Paddle.set_y ai
           (Paddle.y ai - Paddle.speed ai * ai_max_speed_factor cfg * dt)
    else ai in
  Paddle.set_y ai
    (clamp (Paddle.y ai) 0 (IZR (height cfg - Paddle.h ai))).

(** ** Input and randomness seen by one frame *)

Inductive Key :=
  | K_w | K_s | K_UP | K_DOWN | K_RSHIFT | K_LSHIFT
  | K_ESCAPE | K_RETURN | K_p | K_r | K_other.

Definition Key_eqb (a b : Key) : bool :=
  match a, b with
  | K_w, K_w | K_s, K_s | K_UP, K_UP | K_DOWN, K_DOWN
  | K_RSHIFT, K_RSHIFT | K_LSHIFT, K_LSHIFT | K_ESCAPE, K_ESCAPE
  | K_RETURN, K_RETURN | K_p, K_p | K_r, K_r | K_other, K_other => true
  | _, _ => false
  end.

Inductive Event :=
  | QUIT
  | KEYDOWN (key : Key)
  | OTHER.

(** What the [random] module returns during one call of [update_playing]:
    the two [randint] results of [spawn_powerup] and the serve drawn by each
    of the two goal branches. *)
Record StepDraws := {
  spawn_x : Z;
  spawn_y : Z;
  serve_after_left_exit : ServeDraw;
  serve_after_right_exit : ServeDraw
}.

Record FrameInput := {
  frame_dt : R;
  frame_events : list Event;
  frame_keys : Key -> bool;
  restart_serve : ServeDraw;
  step_draws : StepDraws
}.

(** ** The game object *)

Module PongGame.
Record t := mk {
  cfg : Config;
  state : GameState;
  left : Paddle.t;
  right : Paddle.t;
  ball : Ball.t;
  left_score : Z;
  right_score : Z;
  powerup : option PowerUp.t;
  powerup_timer : R;
  boost_timer : R
}.

Definition set_state (g : t) (v : GameState) : t :=
  mk (cfg g) v (left g) (right g) (ball g) (left_score g) (right_score g)
     (powerup g) (powerup_timer g) (boost_timer g).
Definition set_left (g : t) (v : Paddle.t) : t :=
  mk (cfg g) (state g) v (right g) (ball g) (left_score g) (right_score g)
     (powerup g) (powerup_timer g) (boost_timer g).
Definition set_right (g : t) (v : Paddle.t) : t :=
  mk (cfg g) (state g) (left g) v (ball g) (left_score g) (right_score g)
     (powerup g) (powerup_timer g) (boost_timer g).
Definition set_ball (g : t) (v : Ball.t) : t :=
  mk (cfg g) (state g) (left g) (right g) v (left_score g) (right_score g)
     (powerup g) (powerup_timer g) (boost_timer g).
Definition set_left_score (g : t) (v : Z) : t :=
  mk (cfg g) (state g) (left g) (right g) (ball g) v (right_score g)
     (powerup g) (powerup_timer g) (boost_timer g).
Definition set_right_score (g : t) (v : Z) : t :=
  mk (cfg g) (state g) (left g) (right g) (ball g) (left_score g) v
     (powerup g) (powerup_timer g) (boost_timer g).
Definition set_powerup (g : t) (v : option PowerUp.t) : t :=
  mk (cfg g) (state g) (left g) (right g) (ball g) (left_score g)
     (right_score g) v (powerup_timer g) (boost_timer g).
Definition set_powerup_timer (g : t) (v : R) : t :=
  mk (cfg g) (state g) (left g) (right g) (ball g) (left_score g)
     (right_score g) (powerup g) v (boost_timer g).
Definition set_boost_timer (g : t) (v : R) : t :=
  mk (cfg g) (state g) (left g) (right g) (ball g) (left_score g)
     (right_score g) (powerup g) (powerup_timer g) v.

(** [__init__], without the window, clock and fonts. *)
Definition init (d : ServeDraw) : option t :=
  let cfg := default_config in
  let left := Paddle.mk 28
    (IZR (height cfg) / 2 - IZR (paddle_h cfg) / 2)
    (paddle_w cfg) (paddle_h cfg) (paddle_speed cfg) in
  let right := Paddle.mk (IZR (width cfg - 28 - paddle_w cfg))
    (IZR (height cfg) / 2 - IZR (paddle_h cfg) / 2)
    (paddle_w cfg) (paddle_h cfg) (paddle_speed cfg) in
  let ball := Ball.mk (IZR (width cfg) / 2) (IZR (height cfg) / 2)
    (ball_radius cfg) 1.0 0.0 (ball_speed cfg) in
  ball <- reset_round cfg ball false d ;;
  Some (mk cfg MENU left right ball 0 0 None 0.0 0.0).

Definition spawn_powerup (self : t) (d : StepDraws) : option t :=
  let margin := 120%Z in
  x <- randint margin (width (cfg self) - margin) (spawn_x d) ;;
  y <- randint 80 (height (cfg self) - 80) (spawn_y d) ;;
  Some (set_powerup self
          (Some (PowerUp.mk (IZR x) (IZR y) (powerup_radius (cfg self))
                   true))).

Definition handle_input (self : t) (dt : R) (keys : Key -> bool) : t :=
  (* left paddle: W/S *)
  let self :=
    if keys K_w
    then set_left self (Paddle.set_y (left self)
           (Paddle.y (left self) - Paddle.speed (left self) * dt))
    else self in
  let self :=
    if keys K_s
    then set_left self (Paddle.set_y (left self)
           (Paddle.y (left self) + Paddle.speed (left self) * dt))
    else self in
  let self := set_left self (Paddle.set_y (left self)
    (clamp (Paddle.y (left self)) 0
       (IZR (height (cfg self) - Paddle.h (left self))))) in
  (* right paddle: AI unless a shift key is held *)
  let manual_right := keys K_RSHIFT || keys K_LSHIFT in
  if manual_right then
    let self :=
      if keys K_UP
      then set_right self (Paddle.set_y (right self)
             (Paddle.y (right self) - Paddle.speed (right self) * dt))
      else self in
    let self :=
      if keys K_DOWN
      then set_right self (Paddle.set_y (right self)
             (Paddle.y (right self) + Paddle.speed (right self) * dt))
      else self in
    set_right self (Paddle.set_y (right self)
      (clamp (Paddle.y (right self)) 0
         (IZR (height (cfg self) - Paddle.h (right self)))))
  else
    set_right self (ai_move (cfg self) (right self) (ball self) dt).

(** *** The phases of [update_playing], in source order *)

(** Lines 256-259: the power-up timer and the spawn. *)
Definition tick_powerup (self : t) (dt : R) (d : StepDraws) : option t :=
  let self := set_powerup_timer self (powerup_timer self + dt) in
  match powerup self with
  | None =>
      if Rge_dec (powerup_timer self)
           (powerup_spawn_every_sec (cfg self))
      then spawn_powerup (set_powerup_timer self 0.0) d
      else Some self
  | Some _ => Some self
  end.

(** Lines 262-265: the boost timer. *)
Definition tick_boost (self : t) (dt : R) : t :=
  if Rgt_dec (boost_timer self) 0 then
    let self := set_boost_timer self (boost_timer self - dt) in
    if Rle_dec (boost_timer self) 0
    then set_boost_timer self 0.0
    else self
  else self.

(** Lines 268-270: the ball moves. *)
Definition move_ball (self : t) (dt : R) : t :=
  let speed :=
    Ball.speed (ball self)
    * (if Rgt_dec (boost_timer self) 0
       then boost_multiplier (cfg self) else 1.0) in
  let self := set_ball self (Ball.set_x (ball self)
    (Ball.x (ball self) + Ball.vx (ball self) * speed * dt)) in
  set_ball self (Ball.set_y (ball self)
    (Ball.y (ball self) + Ball.vy (ball self) * speed * dt)).

(** Lines 273-278: top and bottom walls. *)
Definition bounce_walls (self : t) : t :=
  let self :=
    if Rle_dec (Ball.y (ball self) - IZR (Ball.r (ball self))) 0 then
      let self := set_ball self
        (Ball.set_y (ball self) (IZR (Ball.r (ball self)))) in
      set_ball self (Ball.set_vy (ball self) (- Ball.vy (ball self)))
    else self in
  if Rge_dec (Ball.y (ball self) + IZR (Ball.r (ball self)))
       (IZR (height (cfg self)))
  then
    let self := set_ball self
      (Ball.set_y (ball self)
         (IZR (height (cfg self) - Ball.r (ball self)))) in
    set_ball self (Ball.set_vy (ball self) (- Ball.vy (ball self)))
  else self.

(** Line 281: the ball's bounding box, truncated to integers of any size;
    [Machine.b_rect] is the box with the constructor of pygame. *)
Definition b_rect (b : Ball.t) : Rect.t :=
  Rect.mk (py_int (Ball.x b - IZR (Ball.r b)))
          (py_int (Ball.y b - IZR (Ball.r b)))
          (Ball.r b * 2) (Ball.r b * 2).

(** Line 283: the test guarding the left bounce. *)
Definition hits_left (self : t) (box : Rect.t) : bool :=
  Rect.colliderect box (Paddle.rect (left self))
  && Rltb (Ball.vx (ball self)) 0.

(** Line 287: the test guarding the right bounce. *)
Definition hits_right (self : t) (box : Rect.t) : bool :=
  Rect.colliderect box (Paddle.rect (right self))
  && Rgtb (Ball.vx (ball self)) 0.

Definition bounce_left (self : t) (box : Rect.t) : option t :=
  if hits_left self box then
    let self := set_ball self (Ball.set_x (ball self)
      (Paddle.x (left self) + IZR (Paddle.w (left self))
       + IZR (Ball.r (ball self)))) in
    b <- apply_paddle_bounce (cfg self) (ball self) (left self) true ;;
    Some (set_ball self b)
  else Some self.

Definition bounce_right (self : t) (box : Rect.t) : option t :=
  if hits_right self box then
    let self := set_ball self (Ball.set_x (ball self)
      (Paddle.x (right self) - IZR (Ball.r (ball self)))) in
    b <- apply_paddle_bounce (cfg self) (ball self) (right self) false ;;
    Some (set_ball self b)
  else Some self.

(** Lines 281-289: both paddle tests use the box computed once. *)
Definition bounce_paddles (self : t) : option t :=
  let box := b_rect (ball self) in
  self <- bounce_left self box ;;
  bounce_right self box.

(** Lines 292-296: the ball collects the power-up. *)
Definition touches (b : Ball.t) (p : PowerUp.t) : bool :=
  Rleb (Vector2.length
          (Vector2.sub (Ball.pos b)
             (Vector2.mk (PowerUp.x p) (PowerUp.y p))))
       (IZR (Ball.r b + PowerUp.r p)).

Definition collect_powerup (self : t) : t :=
  match powerup self with
  | Some p =>
      if PowerUp.active p then
        if touches (ball self) p then
          let self := set_powerup self None in
          set_boost_timer self (boost_duration_sec (cfg self))
        else self
      else self
  | None => self
  end.

(** Lines 299-302: the ball left through the left edge. *)
Definition goal_left_edge (self : t) (d : StepDraws) : option t :=
  if Rlt_dec (Ball.x (ball self) + IZR (Ball.r (ball self))) 0 then
    let self := set_right_score self (right_score self + 1) in
    b <- reset_round (cfg self) (ball self) true
           (serve_after_left_exit d) ;;
    let self := set_ball self b in
    Some (set_boost_timer self 0.0)
  else Some self.

(** Lines 304-307: the ball left through the right edge. *)
Definition goal_right_edge (self : t) (d : StepDraws) : option t :=
  if Rgt_dec (Ball.x (ball self) - IZR (Ball.r (ball self)))
       (IZR (width (cfg self)))
  then
    let self := set_left_score self (left_score self + 1) in
    b <- reset_round (cfg self) (ball self) false
           (serve_after_right_exit d) ;;
    let self := set_ball self b in
    Some (set_boost_timer self 0.0)
  else Some self.

(** Lines 310-311: the match ends. *)
Definition check_win (self : t) : t :=
  if (left_score self >=? score_to_win (cfg self))%Z
     || (right_score self >=? score_to_win (cfg self))%Z
  then set_state self GAMEOVER
  else self.

(** The game just after the ball has moved (lines 256-270). *)
Definition after_motion (self : t) (dt : R) (d : StepDraws) : option t :=
  self <- tick_powerup self dt d ;;
  let self := tick_boost self dt in
  Some (move_ball self dt).

(** The game just before the power-up test (lines 256-289). *)
Definition before_pickup (self : t) (dt : R) (d : StepDraws) : option t :=
  self <- after_motion self dt d ;;
  let self := bounce_walls self in
  bounce_paddles self.

(** The game just before the goal tests (lines 256-296). *)
Definition before_goals (self : t) (dt : R) (d : StepDraws) : option t :=
  self <- before_pickup self dt d ;;
  Some (collect_powerup self).

(** The goal tests and the win test (lines 299-311). *)
Definition score_goals (self : t) (d : StepDraws) : option t :=
  self <- goal_left_edge self d ;;
  self <- goal_right_edge self d ;;
  Some (check_win self).

(** [update_playing] with the rectangles of [b_rect] and [Paddle.rect];
    [Machine.update_playing] is the step with those of pygame. *)
Definition update_playing (self : t) (dt : R) (d : StepDraws) : option t :=
  self <- before_goals self dt d ;;
  score_goals self d.

Definition restart (self : t) (d : ServeDraw) : option t :=
  let self := set_left_score self 0 in
  let self := set_right_score self 0 in
  let self := set_left self (Paddle.set_y (left self)
    (IZR (height (cfg self)) / 2 - IZR (Paddle.h (left self)) / 2)) in
  let self := set_right self (Paddle.set_y (right self)
    (IZR (height (cfg self)) / 2 - IZR (Paddle.h (right self)) / 2)) in
  let self := set_powerup self None in
  let self := set_powerup_timer self 0.0 in
  let self := set_boost_timer self 0.0 in
  b <- reset_round (cfg self) (ball self) false d ;;
  let self := set_ball self b in
  Some (set_state self PLAYING).

(** *** The main loop *)

(** How one pass through the body of [while True] ends. *)
Inductive Outcome :=
  | Raised
  | Returned
  | Continues (self : t).

(** The body of [for event in pygame.event.get()] for one event. *)
Definition on_event (self : t) (e : Event) (d : ServeDraw) : Outcome :=
  match e with
  | QUIT => Returned
  | KEYDOWN key =>
      if Key_eqb key K_ESCAPE then Returned
      else
        match state self with
        | MENU =>
            if Key_eqb key K_RETURN
            then Continues (set_state self PLAYING)
            else Continues self
        | PLAYING =>
            if Key_eqb key K_p
            then Continues (set_state self PAUSED)
            else Continues self
        | PAUSED =>
            if Key_eqb key K_p
            then Continues (set_state self PLAYING)
            else Continues self
        | GAMEOVER =>
            if Key_eqb key K_r
            then match restart self d with
                 | Some self => Continues self
                 | None => Raised
                 end
            else Continues self
        end
  | OTHER => Continues self
  end.

Fixpoint on_events (self : t) (es : list Event) (d : ServeDraw) : Outcome :=
  match es with
  | [] => Continues self
  | e :: es =>
      match on_event self e d with
      | Continues self => on_events self es d
      | out => out
      end
  end.

(** One iteration of the loop in [run], drawing left out. *)
Definition frame (self : t) (i : FrameInput) : Outcome :=
  let dt := frame_dt i in
  match on_events self (frame_events i) (restart_serve i) with
  | Continues self =>
      match state self with
      | PLAYING =>
          let self := handle_input self dt (frame_keys i) in
          match update_playing self dt (step_draws i) with
          | Some self => Continues self
          | None => Raised
          end
      | _ => Continues self
      end
  | out => out
  end.

(** [run] over the frames of a finite prefix of the session. *)
Fixpoint run (self : t) (frames : list FrameInput) : Outcome :=
  match frames with
  | [] => Continues self
  | i :: frames =>
      match frame self i with
      | Continues self => run self frames
      | out => out
      end
  end.
End PongGame.

(** ** The step on pygame's rectangles

    Lines 281-289 with [pygame.Rect] as the library builds it: the box of
    the ball and the rectangle of each paddle go through [pygame_Rect], so
    the step raises when a coordinate does not fit a C [long] and tests the
    wrapped rectangles otherwise.  The phases before and after the paddle
    phase are those of [PongGame].  [colliderect] adds the stored
    coordinates as C ints; [Rect.colliderect] adds them as integers, which
    is the same while the sums fit 32 bits. *)

Module Machine.
(** [Paddle.rect], line 56. *)
Definition rect (p : Paddle.t) : option Rect.t :=
  pygame_Rect (py_int (Paddle.x p)) (py_int (Paddle.y p))
    (Paddle.w p) (Paddle.h p).

(** Line 281. *)
Definition b_rect (b : Ball.t) : option Rect.t :=
  pygame_Rect (py_int (Ball.x b - IZR (Ball.r b)))
    (py_int (Ball.y b - IZR (Ball.r b)))
    (Ball.r b * 2) (Ball.r b * 2).

(** Lines 283-285: [self.left.rect()] is built before the test. *)
Definition bounce_left (self : PongGame.t) (box : Rect.t)
    : option PongGame.t :=
  paddle <- rect (PongGame.left self) ;;
  if Rect.colliderect box paddle
     && Rltb (Ball.vx (PongGame.ball self)) 0
  then
    let self := PongGame.set_ball self (Ball.set_x (PongGame.ball self)
      (Paddle.x (PongGame.left self) + IZR (Paddle.w (PongGame.left self))
       + IZR (Ball.r (PongGame.ball self)))) in
    b <- apply_paddle_bounce (PongGame.cfg self) (PongGame.ball self)
           (PongGame.left self) true ;;
    Some (PongGame.set_ball self b)
  else Some self.

(** Lines 287-289. *)
Definition bounce_right (self : PongGame.t) (box : Rect.t)
    : option PongGame.t :=
  paddle <- rect (PongGame.right self) ;;
  if Rect.colliderect box paddle
     && Rgtb (Ball.vx (PongGame.ball self)) 0
  then
    let self := PongGame.set_ball self (Ball.set_x (PongGame.ball self)
      (Paddle.x (PongGame.right self) - IZR (Ball.r (PongGame.ball self)))) in
    b <- apply_paddle_bounce (PongGame.cfg self) (PongGame.ball self)
           (PongGame.right self) false ;;
    Some (PongGame.set_ball self b)
  else Some self.

(** Lines 281-289. *)
Definition bounce_paddles (self : PongGame.t) : option PongGame.t :=
  box <- b_rect (PongGame.ball self) ;;
  self <- bounce_left self box ;;
  bounce_right self box.

(** Lines 256-289. *)
Definition before_pickup (self : PongGame.t) (dt : R) (d : StepDraws)
    : option PongGame.t :=
  self <- PongGame.after_motion self dt d ;;
  let self := PongGame.bounce_walls self in
  bounce_paddles self.

(** Lines 256-296. *)
Definition before_goals (self : PongGame.t) (dt : R) (d : StepDraws)
    : option PongGame.t :=
  self <- before_pickup self dt d ;;
  Some (PongGame.collect_powerup self).

Definition update_playing (self : PongGame.t) (dt : R) (d : StepDraws)
    : option PongGame.t :=
  self <- before_goals self dt d ;;
  PongGame.score_goals self d.

(** One iteration of the loop in [run], drawing left out. *)
Definition frame (self : PongGame.t) (i : FrameInput) : PongGame.Outcome :=
  let dt := frame_dt i in
  match PongGame.on_events self (frame_events i) (restart_serve i) with
  | PongGame.Continues self =>
      match PongGame.state self with
      | PLAYING =>
          let self := PongGame.handle_input self dt (frame_keys i) in
          match update_playing self dt (step_draws i) with
          | Some self => PongGame.Continues self
          | None => PongGame.Raised
          end
      | _ => PongGame.Continues self
      end
  | out => out
  end.

(** [run] over the frames of a finite prefix of the session. *)
Fixpoint run (self : PongGame.t) (frames : list FrameInput)
    : PongGame.Outcome :=
  match frames with
  | [] => PongGame.Continues self
  | i :: frames =>
      match frame self i with
      | PongGame.Continues self => run self frames
      | out => out
      end
  end.
End Machine.

(** ** Drawing

    The screen is write-only for the game, so a frame's drawing is the list
    of the calls [draw] makes, in order.  The colours are the defaults of
    the frozen [Config]. *)

Definition Color : Type := Z * Z * Z.

Definition bg_color : Color := (14, 16, 20)%Z.
Definition fg_color : Color := (230, 235, 245)%Z.
Definition accent : Color := (120, 200, 255)%Z.
Definition warning : Color := (255, 180, 100)%Z.

Inductive Font := font_big | font | font_small.

(** Where a rendered text is blitted: a rectangle centred on a point, or a
    top-left corner. *)
Inductive Anchor :=
  | Centered (x y : Z)
  | TopLeft (x y : Z).

Inductive DrawCmd :=
  | Fill (color : Color)
  | DrawRect (color : Color) (rect : Rect.t) (border_radius : Z)
  | DrawCircle (color : Color) (center : Z * Z) (radius : Z) (width : Z)
  | Blit (f : Font) (text : String.string) (color : Color) (at_ : Anchor)
  | Flip.

(** [str(n)] and the [{n}] of an f-string, for an int. *)
Definition py_str (n : Z) : String.string :=
  DecimalString.NilZero.string_of_int (Z.to_int n).

(** [range(0, stop, step)] for a positive [step]. *)
Definition py_range_from_0 (stop step : Z) : list Z :=
  List.map (fun k => (Z.of_nat k * step)%Z)
    (List.seq 0 (Z.to_nat ((stop + step - 1) / step))).

Module HUD.
Definition draw_center_text (cfg : Config) (text : String.string) (y : Z)
    (color : Color) : DrawCmd :=
  Blit font_big text color (Centered (width cfg / 2) y).

Definition draw_hint (cfg : Config) (text : String.string) (y : Z)
    (color : Color) : DrawCmd :=
  Blit font text color (Centered (width cfg / 2) y).

Definition draw_score (cfg : Config) (left_score right_score : Z) : DrawCmd :=
  let s := String.append (py_str left_score)
             (String.append "  :  " (py_str right_score)) in
  Blit font_big s fg_color (Centered (width cfg / 2) 40).

Definition draw_status (cfg : Config) (text : String.string) : DrawCmd :=
  Blit font_small text fg_color (TopLeft 16 (height cfg - 28)).
End HUD.

(** Line 346. *)
Definition winner (self : PongGame.t) : String.string :=
  if (PongGame.left_score self >? PongGame.right_score self)%Z
  then "LEFT"%string else "RIGHT"%string.

(** [PongGame.draw]. *)
Definition draw (self : PongGame.t) : list DrawCmd :=
  let cfg := PongGame.cfg self in
  [Fill bg_color]
  (* centre line *)
  ++ List.map
       (fun y =>
          DrawRect (45, 50, 65)%Z (Rect.mk (width cfg / 2 - 2) y 4 14) 0)
       (py_range_from_0 (height cfg) 24)
  (* paddles *)
  ++ [DrawRect fg_color (Paddle.rect (PongGame.left self)) 8;
      DrawRect fg_color (Paddle.rect (PongGame.right self)) 8]
  (* ball *)
  ++ (let ball_color :=
        if Rgt_dec (PongGame.boost_timer self) 0 then warning else accent in
      [DrawCircle ball_color
         (py_int (Ball.x (PongGame.ball self)),
          py_int (Ball.y (PongGame.ball self)))
         (Ball.r (PongGame.ball self)) 0])
  (* power-up *)
  ++ match PongGame.powerup self with
     | Some p =>
         if PowerUp.active p then
           [DrawCircle warning (py_int (PowerUp.x p), py_int (PowerUp.y p))
              (PowerUp.r p) 3;
            DrawCircle warning (py_int (PowerUp.x p), py_int (PowerUp.y p))
              3 0]
         else []
     | None => []
     end
  (* HUD *)
  ++ [HUD.draw_score cfg (PongGame.left_score self)
        (PongGame.right_score self)]
  ++ match PongGame.state self with
     | MENU =>
         [HUD.draw_center_text cfg "PONG + BOOST"%string
            (height cfg / 2 - 40) fg_color;
          HUD.draw_hint cfg "ENTER — start | ESC — quit"%string
            (height cfg / 2 + 20) (200, 205, 220)%Z;
          HUD.draw_hint cfg
            "W/S — move | hold SHIFT — manual right paddle"%string
            (height cfg / 2 + 58) (160, 170, 190)%Z]
     | PAUSED =>
         [HUD.draw_center_text cfg "PAUSED"%string (height cfg / 2) fg_color;
          HUD.draw_hint cfg "P — resume"%string (height cfg / 2 + 48)
            (200, 205, 220)%Z]
     | GAMEOVER =>
         [HUD.draw_center_text cfg
            (String.append (winner self) " WINS!"%string)
            (height cfg / 2 - 40) fg_color;
          HUD.draw_hint cfg "R — restart | ESC — quit"%string
            (height cfg / 2 + 20) (200, 205, 220)%Z]
     | PLAYING => []
     end
  ++ (let status :=
        if Rgt_dec (PongGame.boost_timer self) 0
        then "Boost: ON"%string else "Boost: off"%string in
      [HUD.draw_status cfg
         (String.append status " | P — pause | ESC — quit"%string)])
  ++ [Flip].

(** * Vocabulary of the statements *)

(** A bounce of ball [b] on paddle [p] gave ball [b']: the horizontal
    direction points away from the paddle, the direction is the normalized
    vector whose vertical component was [clamp(offset) * 0.95], and the
    speed grew by 3% up to the cap. *)
Definition bounced_off (cfg : Config) (b : Ball.t) (p : Paddle.t)
    (is_left : bool) (b' : Ball.t) : Prop :=
  let offset :=
    clamp ((Ball.y b - Paddle.center_y p) / (IZR (Paddle.h p) / 2)) (-1) 1 in
  let vx0 := if is_left then Rabs (Ball.vx b) else - Rabs (Ball.vx b) in
  let vy0 := offset * 0.95 in
  let len := sqrt (vx0 * vx0 + vy0 * vy0) in
  Ball.y b' = Ball.y b
  /\ Ball.r b' = Ball.r b
  /\ (if is_left then 0 < Ball.vx b' else Ball.vx b' < 0)
  /\ 0 < len
  /\ Ball.vx b' = vx0 / len
  /\ Ball.vy b' = vy0 / len
  /\ Ball.vx b' * Ball.vx b' + Ball.vy b' * Ball.vy b' = 1
  /\ Ball.speed b' = Rmin (ball_speed_max cfg) (Ball.speed b * 1.03).

(** What one side of the paddle phase does: on a hit the ball is snapped to
    [snap_x] and bounced off [p]; otherwise nothing changes. *)
Definition paddle_side (self : PongGame.t) (p : Paddle.t) (is_left : bool)
    (hit : bool) (snap_x : R) (self' : PongGame.t) : Prop :=
  if hit then
    self' = PongGame.set_ball self (PongGame.ball self')
    /\ Ball.x (PongGame.ball self') = snap_x
    /\ bounced_off (PongGame.cfg self) (PongGame.ball self) p is_left
         (PongGame.ball self')
  else self' = self.

(** Two games that differ at most in their ball. *)
Definition same_but_ball (g g' : PongGame.t) : Prop :=
  g' = PongGame.set_ball g (PongGame.ball g').

(** The arena leaves room for the spawn margins, so [randint] gets a
    non-empty range. *)
Definition arena_fits (cfg : Config) : Prop :=
  (120 <= width cfg - 120)%Z /\ (80 <= height cfg - 80)%Z.

(** Whether this step spawns a power-up (line 257). *)
Definition spawns (g : PongGame.t) (dt : R) : bool :=
  match PongGame.powerup g with
  | None => Rgeb (PongGame.powerup_timer g + dt)
              (powerup_spawn_every_sec (PongGame.cfg g))
  | Some _ => false
  end.

(** The paddle stands inside the arena's horizontal extent. *)
Definition paddle_on_field (cfg : Config) (p : Paddle.t) : Prop :=
  0 <= Paddle.x p /\ (0 <= Paddle.w p)%Z
  /\ Paddle.x p + IZR (Paddle.w p) <= IZR (width cfg).

(** The ball [reset_round] produces from a ball of radius [r]. *)
Definition served (cfg : Config) (r : Z) (serve_to_left : bool)
    (d : ServeDraw) : Ball.t :=
  Ball.mk (IZR (width cfg) / 2) (IZR (height cfg) / 2) r
    ((if serve_to_left then -1 else 1) * cos (drawn_angle d))
    (sin (drawn_angle d)) (ball_speed cfg).

(** The clamping bound [0 <= y <= height - h]. *)
Definition paddle_in_arena (cfg : Config) (p : Paddle.t) : Prop :=
  0 <= Paddle.y p <= IZR (height cfg) - IZR (Paddle.h p).

(** The power-up lies wholly between the arena's left and right edges, as
    every power-up placed by [spawn_powerup] does. *)
Definition powerup_inside (cfg : Config) (p : PowerUp.t) : Prop :=
  IZR (PowerUp.r p) <= PowerUp.x p <= IZR (width cfg) - IZR (PowerUp.r p).

(** The ball after an unboosted motion of [dt] seconds. *)
Definition coasted (b : Ball.t) (dt : R) : Ball.t :=
  Ball.mk (Ball.x b + Ball.vx b * (Ball.speed b * 1.0) * dt)
          (Ball.y b + Ball.vy b * (Ball.speed b * 1.0) * dt)
          (Ball.r b) (Ball.vx b) (Ball.vy b) (Ball.speed b).


(** What one paddle contact does to the speed (line 167). *)
Definition bounce_speed (cfg : Config) (s : R) : R :=
  Rmin (ball_speed_max cfg) (s * 1.03).

(** The number of paddle bounces performed by one step: the two guarded
    calls of [apply_paddle_bounce] at lines 283-289. *)
Definition paddle_contacts (g : PongGame.t) (dt : R) (d : StepDraws) : nat :=
  match PongGame.after_motion g dt d with
  | Some gm =>
      let gw := PongGame.bounce_walls gm in
      let box := PongGame.b_rect (PongGame.ball gw) in
      match PongGame.bounce_left gw box with
      | Some g1 =>
          Nat.b2n (PongGame.hits_left gw box)
          + Nat.b2n (PongGame.hits_right g1 box)
      | None => 0
      end
  | None => 0
  end.

(** A rally: frames of play, each sampling input and then running a step
    that changes neither score, with the paddle contacts counted. *)
Inductive Rally : PongGame.t -> nat -> PongGame.t -> Prop :=
  | rally_start (g : PongGame.t) : Rally g 0 g
  | rally_input (g : PongGame.t) (dt : R) (keys : Key -> bool) (n : nat)
      (g' : PongGame.t) :
      Rally (PongGame.handle_input g dt keys) n g' -> Rally g n g'
  | rally_step (g : PongGame.t) (dt : R) (d : StepDraws) (g1 : PongGame.t)
      (n : nat) (g' : PongGame.t) :
      PongGame.update_playing g dt d = Some g1 ->
      PongGame.left_score g1 = PongGame.left_score g ->
      PongGame.right_score g1 = PongGame.right_score g ->
      Rally g1 n g' ->
      Rally g (paddle_contacts g dt d + n) g'.

(** The velocity direction has length one. *)
Definition unit_direction (b : Ball.t) : Prop :=
  Ball.vx b * Ball.vx b + Ball.vy b * Ball.vy b = 1.

(** The ball touches neither wall from outside: [r <= y <= height - r]. *)
Definition ball_between_walls (cfg : Config) (b : Ball.t) : Prop :=
  IZR (Ball.r b) <= Ball.y b <= IZR (height cfg) - IZR (Ball.r b).

(** The ball is not wholly past the left or the right edge. *)
Definition ball_on_screen (cfg : Config) (b : Ball.t) : Prop :=
  0 <= Ball.x b + IZR (Ball.r b)
  /\ Ball.x b - IZR (Ball.r b) <= IZR (width cfg).

(** The power-up [spawn_powerup] creates from the draws. *)
Definition spawned_powerup (cfg : Config) (d : StepDraws) : PowerUp.t :=
  PowerUp.mk (IZR (spawn_x d)) (IZR (spawn_y d)) (powerup_radius cfg) true.

(** The two [randint] results lie in the ranges they were drawn from. *)
Definition draws_in_range (cfg : Config) (d : StepDraws) : Prop :=
  (120 <= spawn_x d <= width cfg - 120)%Z
  /\ (80 <= spawn_y d <= height cfg - 80)%Z.

(** The game the goal branch makes of [g]: the ball left through the left
    edge ([left_exit]) or the right one, the other side scored, the ball is
    served toward the side it left through and the boost is off. *)
Definition conceded (g : PongGame.t) (left_exit : bool) (d : StepDraws)
    : PongGame.t :=
  PongGame.mk (PongGame.cfg g) (PongGame.state g) (PongGame.left g)
    (PongGame.right g)
    (served (PongGame.cfg g) (Ball.r (PongGame.ball g)) left_exit
       (if left_exit then serve_after_left_exit d
        else serve_after_right_exit d))
    (if left_exit then PongGame.left_score g
     else (PongGame.left_score g + 1)%Z)
    (if left_exit then (PongGame.right_score g + 1)%Z
     else PongGame.right_score g)
    (PongGame.powerup g) (PongGame.powerup_timer g) 0.

(** Either score has reached the win threshold. *)
Definition match_decided (g : PongGame.t) : Prop :=
  (score_to_win (PongGame.cfg g) <= PongGame.left_score g
   \/ score_to_win (PongGame.cfg g) <= PongGame.right_score g)%Z.

(** Every power-up on the field is active, has the configured radius and
    lies inside the spawn margins. *)
Definition powerup_in_margins (g : PongGame.t) : Prop :=
  forall p, PongGame.powerup g = Some p ->
    PowerUp.active p = true
    /\ PowerUp.r p = powerup_radius (PongGame.cfg g)
    /\ 120 <= PowerUp.x p <= IZR (width (PongGame.cfg g)) - 120
    /\ 80 <= PowerUp.y p <= IZR (height (PongGame.cfg g)) - 80.

(** Two games with the same fixtures: configuration, paddles up to their
    y, and ball radius. *)
Definition same_fixtures (g g' : PongGame.t) : Prop :=
  PongGame.cfg g' = PongGame.cfg g
  /\ PongGame.left g'
     = Paddle.set_y (PongGame.left g) (Paddle.y (PongGame.left g'))
  /\ PongGame.right g'
     = Paddle.set_y (PongGame.right g) (Paddle.y (PongGame.right g'))
  /\ Ball.r (PongGame.ball g') = Ball.r (PongGame.ball g).

(** The relations between the entities that the game keeps while it
    runs. *)
Record sound (g : PongGame.t) : Prop := {
  wf_arena : arena_fits (PongGame.cfg g);
  wf_speeds :
    0 <= ball_speed (PongGame.cfg g) <= ball_speed_max (PongGame.cfg g);
  wf_duration : 0 <= boost_duration_sec (PongGame.cfg g);
  wf_win : (0 < score_to_win (PongGame.cfg g))%Z;
  wf_left : paddle_in_arena (PongGame.cfg g) (PongGame.left g);
  wf_right : paddle_in_arena (PongGame.cfg g) (PongGame.right g);
  wf_radius :
    (0 <= Ball.r (PongGame.ball g))%Z
    /\ (Ball.r (PongGame.ball g) * 2 <= height (PongGame.cfg g))%Z;
  wf_unit : unit_direction (PongGame.ball g);
  wf_speed :
    ball_speed (PongGame.cfg g) <= Ball.speed (PongGame.ball g)
      <= ball_speed_max (PongGame.cfg g);
  wf_walls : ball_between_walls (PongGame.cfg g) (PongGame.ball g);
  wf_screen : ball_on_screen (PongGame.cfg g) (PongGame.ball g);
  wf_boost : 0 <= PongGame.boost_timer g;
  wf_timer : 0 <= PongGame.powerup_timer g;
  wf_powerup : powerup_in_margins g;
  wf_scores :
    (0 <= PongGame.left_score g <= score_to_win (PongGame.cfg g))%Z
    /\ (0 <= PongGame.right_score g <= score_to_win (PongGame.cfg g))%Z
    /\ ~ (PongGame.left_score g = score_to_win (PongGame.cfg g)
          /\ PongGame.right_score g = score_to_win (PongGame.cfg g))
}.

(** A sound game that shows [GAMEOVER] exactly when a score has reached the
    win threshold. *)
Definition well_formed (g : PongGame.t) : Prop :=
  sound g /\ (PongGame.state g = GAMEOVER <-> match_decided g).

(** The frame's elapsed time is not negative and its [randint] results lie
    in their ranges. *)
Definition frame_in_range (cfg : Config) (i : FrameInput) : Prop :=
  0 <= frame_dt i /\ draws_in_range cfg (step_draws i).

(** The key that takes the game out of a state other than [PLAYING]. *)
Definition waking_key (s : GameState) : Key :=
  match s with
  | MENU => K_RETURN
  | PAUSED => K_p
  | GAMEOVER => K_r
  | PLAYING => K_p
  end.

(** The ball as the paddle phase of a step of [dt] seconds finds it: moved,
    and reflected by the walls. *)
Definition flown (g : PongGame.t) (dt : R) : Ball.t :=
  PongGame.ball
    (PongGame.bounce_walls
       (PongGame.move_ball (PongGame.tick_boost g dt) dt)).

(** The value fits a C [long]. *)
Definition c_long (z : Z) : Prop := (- 2 ^ 63 <= z < 2 ^ 63)%Z.

(** Every argument of [Paddle.rect]'s constructor call fits a C [long]. *)
Definition paddle_converts (p : Paddle.t) : Prop :=
  c_long (py_int (Paddle.x p)) /\ c_long (py_int (Paddle.y p))
  /\ c_long (Paddle.w p) /\ c_long (Paddle.h p).

(** Every argument of the three [pygame.Rect] calls of a step of [dt]
    seconds fits a C [long]: those of the ball's box at line 281 and of the
    two paddles' rectangles. *)
Definition rects_convert (g : PongGame.t) (dt : R) : Prop :=
  let b := flown g dt in
  (c_long (py_int (Ball.x b - IZR (Ball.r b)))
   /\ c_long (py_int (Ball.y b - IZR (Ball.r b)))
   /\ c_long (Ball.r b * 2))
  /\ paddle_converts (PongGame.left g)
  /\ paddle_converts (PongGame.right g).

(** A paddle at most 2^29 = 536870912 away from the origin in each
    coordinate, with sides of at most that size. *)
Definition small_paddle (p : Paddle.t) : Prop :=
  - 536870912 <= Paddle.x p <= 536870912
  /\ - 536870912 <= Paddle.y p <= 536870912
  /\ (- 536870912 <= Paddle.w p <= 536870912)%Z
  /\ (- 536870912 <= Paddle.h p <= 536870912)%Z.

(** A ball at most 2^29 away from the origin in each coordinate, with a
    radius of at most 2^28 = 268435456. *)
Definition small_ball (b : Ball.t) : Prop :=
  - 536870912 <= Ball.x b <= 536870912
  /\ - 536870912 <= Ball.y b <= 536870912
  /\ (- 268435456 <= Ball.r b <= 268435456)%Z.

(** The rectangles a step of [dt] seconds builds have coordinates and sides
    below 2^30 in size: [pygame.Rect] stores them unchanged in its C ints
    and [colliderect] adds them without overflow. *)
Definition rects_small (g : PongGame.t) (dt : R) : Prop :=
  small_ball (flown g dt)
  /\ small_paddle (PongGame.left g)
  /\ small_paddle (PongGame.right g).

(** The parts of the game that never change are small: the arena is at
    most 2^29 high and the paddles stand at most 2^29 from the origin with
    sides between 0 and 2^29. *)
Definition fixtures_small (g : PongGame.t) : Prop :=
  (height (PongGame.cfg g) <= 536870912)%Z
  /\ (- 536870912 <= Paddle.x (PongGame.left g) <= 536870912
      /\ (0 <= Paddle.w (PongGame.left g) <= 536870912)%Z
      /\ (0 <= Paddle.h (PongGame.left g) <= 536870912)%Z)
  /\ (- 536870912 <= Paddle.x (PongGame.right g) <= 536870912
      /\ (0 <= Paddle.w (PongGame.right g) <= 536870912)%Z
      /\ (0 <= Paddle.h (PongGame.right g) <= 536870912)%Z).

(** The frame is in range and short enough for the ball to stay within
    2^29 of the origin: in [dt] seconds the ball travels at most
    [ball_speed_max * max(1, |boost_multiplier|) * dt] from a place on
    screen. *)
Definition frame_fits (g : PongGame.t) (i : FrameInput) : Prop :=
  frame_in_range (PongGame.cfg g) i
  /\ IZR (width (PongGame.cfg g)) + IZR (Ball.r (PongGame.ball g))
     + ball_speed_max (PongGame.cfg g)
       * Rmax 1 (Rabs (boost_multiplier (PongGame.cfg g))) * frame_dt i
     <= 536870912.

(** A stretch of play without a spawn: frames that sample the input and run
    a step that spawns no power-up, with the time of the steps added up. *)
Inductive SpawnFree : PongGame.t -> R -> PongGame.t -> Prop :=
  | spawn_free_start (g : PongGame.t) : SpawnFree g 0 g
  | spawn_free_input (g : PongGame.t) (dt : R) (keys : Key -> bool) (t : R)
      (g' : PongGame.t) :
      SpawnFree (PongGame.handle_input g dt keys) t g' -> SpawnFree g t g'
  | spawn_free_step (g : PongGame.t) (dt : R) (d : StepDraws)
      (g1 : PongGame.t) (t : R) (g' : PongGame.t) :
      Machine.update_playing g dt d = Some g1 ->
      spawns g dt = false ->
      SpawnFree g1 t g' ->
      SpawnFree g (dt + t) g'.

(** ** Sample games and inputs *)

(** A game in play with the ball just past the left edge. *)
Definition game_past_left_edge : PongGame.t :=
  PongGame.mk default_config PLAYING
    (Paddle.mk 28 215 14 110 420) (Paddle.mk 858 215 14 110 420)
    (Ball.mk (-12) 270 10 (-1) 0 360) 0 0 None 0 0.

Definition quiet_draws : StepDraws :=
  {| spawn_x := 450; spawn_y := 270;
     serve_after_left_exit := {| drawn_angle := 0; drawn_choice := 1 |};
     serve_after_right_exit := {| drawn_angle := 0; drawn_choice := 1 |} |}.

Definition nothing_held (k : Key) : bool := false.

(** A game in play whose ball sits on an active power-up. *)
Definition game_on_powerup : PongGame.t :=
  PongGame.mk default_config PLAYING
    (Paddle.mk 28 215 14 110 420) (Paddle.mk 858 215 14 110 420)
    (Ball.mk 500 300 10 1 0 360) 0 0
    (Some (PowerUp.mk 500 300 12 true)) 10 0.

(** A goal about to be scored while a power-up waits on the field. *)
Definition game_goal_with_powerup : PongGame.t :=
  PongGame.mk default_config PLAYING
    (Paddle.mk 28 215 14 110 420) (Paddle.mk 858 215 14 110 420)
    (Ball.mk (-12) 270 10 (-1) 0 360) 0 0
    (Some (PowerUp.mk 500 300 12 true)) 3 0.

(** The game [game_on_powerup] one sixtieth of a second later: the ball has
    moved six pixels, the power-up is gone and the boost runs. *)
Definition game_after_pickup : PongGame.t :=
  PongGame.mk default_config PLAYING
    (Paddle.mk 28 215 14 110 420) (Paddle.mk 858 215 14 110 420)
    (coasted (Ball.mk 500 300 10 1 0 360) (1 / 60)) 0 0
    None (10 + 1 / 60) 1.2.



(** A finished match shown on screen. *)
Definition game_won : PongGame.t :=
  PongGame.mk default_config GAMEOVER
    (Paddle.mk 28 215 14 110 420) (Paddle.mk 858 215 14 110 420)
    (Ball.mk 450 270 10 1 0 360) 7 3 None 2 0.


(** A frame of play with no event and no key held. *)
Definition frame_of_play : FrameInput :=
  {| frame_dt := 1 / 60;
     frame_events := [OTHER];
     frame_keys := nothing_held;
     restart_serve := {| drawn_angle := 0; drawn_choice := 1 |};
     step_draws := quiet_draws |}.

(** A game in play whose ball is 2^32 pixels to the right of the right
    paddle's face. *)
Definition game_far_right : PongGame.t :=
  PongGame.mk default_config PLAYING
    (Paddle.mk 28 215 14 110 420) (Paddle.mk 858 215 14 110 420)
    (Ball.mk 4294968156 270 10 1 0 360) 0 0 None 0 0.

(** The ball about to meet the left paddle head on. *)
Definition game_before_contact : PongGame.t :=
  PongGame.mk default_config PLAYING
    (Paddle.mk 28 215 14 110 420) (Paddle.mk 858 215 14 110 420)
    (Ball.mk 56 270 10 (-1) 0 360) 0 0 None 0 0.

(** * Properties *)

(** ** Comparisons and truncation *)

Lemma Rltb_true (a b : R) : Rltb a b = true <-> a < b.
Proof. unfold Rltb; destruct (Rlt_dec a b); split; auto; discriminate. Qed.

Lemma Rleb_true (a b : R) : Rleb a b = true <-> a <= b.
Proof. unfold Rleb; destruct (Rle_dec a b); split; auto; discriminate. Qed.

Lemma Rgtb_true (a b : R) : Rgtb a b = true <-> a > b.
Proof. unfold Rgtb; destruct (Rgt_dec a b); split; auto; discriminate. Qed.

Lemma Int_part_bounds (v : R) : IZR (Int_part v) <= v < IZR (Int_part v) + 1.
Proof.
  unfold Int_part. rewrite minus_IZR.
  destruct (archimed v) as [Hgt Hle]. lra.
Qed.

Lemma py_int_IZR (z : Z) : py_int (IZR z) = z.
Proof.
  unfold py_int. destruct (Rle_dec 0 (IZR z)).
  - symmetry. apply Int_part_spec. lra.
  - rewrite <- opp_IZR.
    assert (Int_part (IZR (- z)) = (- z)%Z) as ->
      by (symmetry; apply Int_part_spec; lra).
    lia.
Qed.

(** Truncation moves a value toward zero by less than one. *)
Lemma py_int_nonneg (v : R) :
  0 <= v -> IZR (py_int v) <= v < IZR (py_int v) + 1.
Proof.
  intros Hv. unfold py_int. destruct (Rle_dec 0 v); [|lra].
  apply Int_part_bounds.
Qed.

Lemma py_int_neg (v : R) :
  v < 0 -> IZR (py_int v) - 1 < v <= IZR (py_int v).
Proof.
  intros Hv. unfold py_int. destruct (Rle_dec 0 v); [lra|].
  rewrite opp_IZR. pose proof (Int_part_bounds (- v)). lra.
Qed.

Lemma py_int_sign_nonneg (v : R) : 0 <= v -> (0 <= py_int v)%Z.
Proof.
  intros Hv. pose proof (py_int_nonneg v Hv) as [_ Hlt].
  apply Z.lt_succ_r. apply lt_IZR. rewrite succ_IZR. lra.
Qed.

(** ** Vectors *)

Lemma sum_squares_nonneg (a b : R) : 0 <= a * a + b * b.
Proof. nra. Qed.

Lemma length_nonneg (v : Vector2.t) : 0 <= Vector2.length v.
Proof. apply sqrt_pos. Qed.

Lemma length_square (v : Vector2.t) :
  Vector2.length v * Vector2.length v
  = Vector2.x v * Vector2.x v + Vector2.y v * Vector2.y v.
Proof. unfold Vector2.length. apply sqrt_sqrt, sum_squares_nonneg. Qed.

Lemma length_zero_iff (v : Vector2.t) :
  Vector2.length v = 0 <-> Vector2.x v = 0 /\ Vector2.y v = 0.
Proof.
  split.
  - intros H. pose proof (length_square v) as Hs. rewrite H in Hs. nra.
  - intros [Hx Hy]. unfold Vector2.length. rewrite Hx, Hy.
    replace (0 * 0 + 0 * 0) with 0 by lra. apply sqrt_0.
Qed.

Lemma length_of_unit (a b : R) :
  a * a + b * b = 1 -> Vector2.length (Vector2.mk a b) = 1.
Proof.
  intros H. unfold Vector2.length; simpl. rewrite H. apply sqrt_1.
Qed.

(** A vector that is not zero is normalized without an exception, and the
    result has length one and the same direction. *)
Lemma normalize_nonzero (v : Vector2.t) :
  Vector2.length v <> 0 ->
  exists w,
    Vector2.normalize v = Some w
    /\ Vector2.x w = Vector2.x v / Vector2.length v
    /\ Vector2.y w = Vector2.y v / Vector2.length v
    /\ Vector2.x w * Vector2.x w + Vector2.y w * Vector2.y w = 1.
Proof.
  intros Hne. unfold Vector2.normalize.
  destruct (Req_dec_T (Vector2.length v) 0) as [He|_]; [contradiction|].
  eexists; repeat split; simpl.
  pose proof (length_square v) as Hs.
  set (l := Vector2.length v) in *.
  unfold Rdiv.
  replace (Vector2.x v * / l * (Vector2.x v * / l)
           + Vector2.y v * / l * (Vector2.y v * / l))
    with ((Vector2.x v * Vector2.x v + Vector2.y v * Vector2.y v)
          * (/ l * / l)) by ring.
  rewrite <- Hs. field. exact Hne.
Qed.

Lemma normalize_unit (a b : R) :
  a * a + b * b = 1 ->
  Vector2.normalize (Vector2.mk a b) = Some (Vector2.mk a b).
Proof.
  intros H. unfold Vector2.normalize.
  rewrite (length_of_unit a b H).
  destruct (Req_dec_T 1 0) as [He|_]; [lra|].
  simpl. f_equal. f_equal; field.
Qed.

(** ** Serving *)

Lemma serve_angle_cos_pos (a : R) : -0.35 <= a <= 0.35 -> 0 < cos a.
Proof.
  intros [Hlo Hhi]. pose proof PI2_1.
  apply cos_gt_0; lra.
Qed.

Lemma serve_vector_unit (dir_x : Z) (a : R) :
  dir_x = (-1)%Z \/ dir_x = 1%Z ->
  IZR dir_x * cos a * (IZR dir_x * cos a) + sin a * sin a = 1.
Proof.
  intros Hd. pose proof (sin2_cos2 a) as H. unfold Rsqr in H.
  destruct Hd as [-> | ->]; lra.
Qed.

(** [reset_round] never raises, whatever the angle: the served vector
    already has length one. *)
Lemma reset_round_result (cfg : Config) (ball : Ball.t) (serve_to_left : bool)
    (d : ServeDraw) :
  reset_round cfg ball serve_to_left d
  = Some (Ball.mk (IZR (width cfg) / 2) (IZR (height cfg) / 2) (Ball.r ball)
            (IZR (if serve_to_left then (-1)%Z else 1%Z)
             * cos (drawn_angle d))
            (sin (drawn_angle d)) (ball_speed cfg)).
Proof.
  unfold reset_round, random_ball_direction.
  set (dir_x := if serve_to_left then (-1)%Z else 1%Z).
  assert (Hu : IZR dir_x * cos (drawn_angle d) * (IZR dir_x * cos (drawn_angle d))
               + sin (drawn_angle d) * sin (drawn_angle d) = 1).
  { apply serve_vector_unit. subst dir_x. destruct serve_to_left; auto. }
  rewrite (length_of_unit _ _ Hu).
  destruct (Req_dec_T 1 0) as [He|_]; [lra|].
  rewrite (normalize_unit _ _ Hu). reflexivity.
Qed.

(** C3: for every call of [reset_round] with a drawn angle in
    [-0.35, 0.35], the call returns a ball placed at the arena centre, with
    the configured base speed, a velocity direction of length one, a
    horizontal component that is negative when serving to the left and
    positive otherwise, and a vertical component [sin angle] that does not
    depend on the serve side. *)
Theorem reset_round_serves (cfg : Config) (ball : Ball.t)
    (serve_to_left : bool) (d : ServeDraw) :
  -0.35 <= drawn_angle d <= 0.35 ->
  exists b,
    reset_round cfg ball serve_to_left d = Some b
    /\ Ball.x b = IZR (width cfg) / 2
    /\ Ball.y b = IZR (height cfg) / 2
    /\ Ball.speed b = ball_speed cfg
    /\ Ball.r b = Ball.r ball
    /\ Ball.vx b * Ball.vx b + Ball.vy b * Ball.vy b = 1
    /\ (if serve_to_left then Ball.vx b < 0 else 0 < Ball.vx b)
    /\ Ball.vx b = (if serve_to_left then -1 else 1) * cos (drawn_angle d)
    /\ Ball.vy b = sin (drawn_angle d).
Proof.
  intros Ha. rewrite reset_round_result.
  pose proof (serve_angle_cos_pos _ Ha) as Hc.
  eexists; split; [reflexivity|]. simpl.
  repeat split.
  - apply serve_vector_unit. destruct serve_to_left; auto.
  - destruct serve_to_left; lra.
  - destruct serve_to_left; reflexivity.
Qed.

Lemma reset_round_serves_witness :
  exists b,
    reset_round default_config (Ball.mk 0 0 10 1 0 360) true
      {| drawn_angle := 0; drawn_choice := 1 |} = Some b
    /\ Ball.vx b < 0.
Proof.
  destruct (reset_round_serves default_config (Ball.mk 0 0 10 1 0 360) true
              {| drawn_angle := 0; drawn_choice := 1 |})
    as (b & Hb & _ & _ & _ & _ & _ & Hs & _).
  - simpl. lra.
  - exists b. split; [exact Hb | exact Hs].
Defined.

(** ** Bouncing off a paddle *)

Lemma py_div_nonzero (a b : R) : b <> 0 -> py_div a b = Some (a / b).
Proof.
  intros Hb. unfold py_div. destruct (Req_dec_T b 0); [contradiction|].
  reflexivity.
Qed.

Lemma half_height_nonzero (h : Z) : h <> 0%Z -> IZR h / 2 <> 0.
Proof.
  intros Hh He. apply Hh. apply eq_IZR. lra.
Qed.

(** A ball that moves horizontally bounces off a paddle of non-zero height
    without an exception and without the zero-vector fallback. *)
Lemma apply_paddle_bounce_moving (cfg : Config) (b : Ball.t) (p : Paddle.t)
    (is_left : bool) :
  Paddle.h p <> 0%Z -> Ball.vx b <> 0 ->
  exists b',
    apply_paddle_bounce cfg b p is_left = Some b'
    /\ Ball.x b' = Ball.x b
    /\ bounced_off cfg b p is_left b'.
Proof.
  intros Hh Hvx. unfold apply_paddle_bounce.
  rewrite (py_div_nonzero _ _ (half_height_nonzero _ Hh)).
  cbn [bind Ball.set_vx Ball.set_vy Ball.set_speed Ball.x Ball.y Ball.r
       Ball.vx Ball.vy Ball.speed].
  set (offset := clamp _ (-1.0) 1.0).
  set (vx0 := if is_left then Rabs (Ball.vx b) else - Rabs (Ball.vx b)).
  set (v := Vector2.mk vx0 (offset * 0.95)).
  assert (Hx0 : vx0 <> 0).
  { subst vx0. pose proof (Rabs_pos_lt _ Hvx). destruct is_left; lra. }
  assert (Hlen : Vector2.length v <> 0).
  { intros He. apply length_zero_iff in He. destruct He as [He _].
    simpl in He. contradiction. }
  destruct (Req_dec_T (Vector2.length v) 0) as [He|_]; [contradiction|].
  destruct (normalize_nonzero v Hlen) as (w & Hw & Hwx & Hwy & Hunit).
  rewrite Hw. cbn [bind]. eexists; split; [reflexivity|].
  cbn [Ball.set_vx Ball.set_vy Ball.set_speed Ball.x Ball.y Ball.r
       Ball.vx Ball.vy Ball.speed].
  split; [reflexivity|]. unfold bounced_off.
  cbn [Ball.x Ball.y Ball.r Ball.vx Ball.vy Ball.speed].
  replace (clamp ((Ball.y b - Paddle.center_y p) / (IZR (Paddle.h p) / 2))
             (-1) 1) with offset
    by (subst offset; f_equal; lra).
  fold vx0. change (sqrt (vx0 * vx0 + offset * 0.95 * (offset * 0.95)))
    with (Vector2.length v).
  assert (Hpos : 0 < Vector2.length v)
    by (pose proof (length_nonneg v); lra).
  assert (Hsign : if is_left then 0 < Vector2.x w else Vector2.x w < 0).
  { rewrite Hwx. simpl. subst vx0. pose proof (Rabs_pos_lt _ Hvx) as Ha.
    destruct is_left.
    - apply Rdiv_lt_0_compat; assumption.
    - unfold Rdiv. rewrite <- Ropp_mult_distr_l.
      assert (0 < Rabs (Ball.vx b) * / Vector2.length v)
        by (apply Rdiv_lt_0_compat; assumption).
      lra. }
  repeat split; auto.
Qed.


(** ** The paddle phase of the step *)

Lemma colliderect_nonzero (a b : Rect.t) :
  Rect.colliderect a b = true ->
  Rect.w a <> 0%Z /\ Rect.h a <> 0%Z /\ Rect.w b <> 0%Z /\ Rect.h b <> 0%Z.
Proof.
  unfold Rect.colliderect.
  destruct (Rect.w a =? 0)%Z eqn:Ewa; [discriminate|].
  destruct (Rect.h a =? 0)%Z eqn:Eha; [discriminate|].
  destruct (Rect.w b =? 0)%Z eqn:Ewb; [discriminate|].
  destruct (Rect.h b =? 0)%Z eqn:Ehb; [discriminate|].
  intros _. apply Z.eqb_neq in Ewa, Eha, Ewb, Ehb. auto.
Qed.

Lemma bounce_left_effect (self : PongGame.t) (box : Rect.t) :
  exists self',
    PongGame.bounce_left self box = Some self'
    /\ paddle_side self (PongGame.left self) true
         (PongGame.hits_left self box)
         (Paddle.x (PongGame.left self)
          + IZR (Paddle.w (PongGame.left self))
          + IZR (Ball.r (PongGame.ball self)))
         self'.
Proof.
  unfold PongGame.bounce_left, paddle_side.
  destruct (PongGame.hits_left self box) eqn:Hhit.
  - unfold PongGame.hits_left in Hhit. apply andb_true_iff in Hhit.
    destruct Hhit as [Hc Hv]. apply Rltb_true in Hv.
    apply colliderect_nonzero in Hc. destruct Hc as (_ & _ & _ & Hh).
    simpl in Hh.
    destruct (apply_paddle_bounce_moving (PongGame.cfg self)
                (Ball.set_x (PongGame.ball self)
                   (Paddle.x (PongGame.left self)
                    + IZR (Paddle.w (PongGame.left self))
                    + IZR (Ball.r (PongGame.ball self))))
                (PongGame.left self) true Hh)
      as (b' & Hb & Hx & Hoff).
    { simpl. lra. }
    cbn [PongGame.set_ball PongGame.ball PongGame.cfg PongGame.left].
    rewrite Hb. cbn [bind]. eexists; split; [reflexivity|].
    cbn [PongGame.set_ball PongGame.ball PongGame.cfg PongGame.left].
    split; [reflexivity|]. split; [exact Hx | exact Hoff].
  - eexists; split; reflexivity.
Qed.

Lemma bounce_right_effect (self : PongGame.t) (box : Rect.t) :
  exists self',
    PongGame.bounce_right self box = Some self'
    /\ paddle_side self (PongGame.right self) false
         (PongGame.hits_right self box)
         (Paddle.x (PongGame.right self)
          - IZR (Ball.r (PongGame.ball self)))
         self'.
Proof.
  unfold PongGame.bounce_right, paddle_side.
  destruct (PongGame.hits_right self box) eqn:Hhit.
  - unfold PongGame.hits_right in Hhit. apply andb_true_iff in Hhit.
    destruct Hhit as [Hc Hv]. apply Rgtb_true in Hv.
    apply colliderect_nonzero in Hc. destruct Hc as (_ & _ & _ & Hh).
    simpl in Hh.
    destruct (apply_paddle_bounce_moving (PongGame.cfg self)
                (Ball.set_x (PongGame.ball self)
                   (Paddle.x (PongGame.right self)
                    - IZR (Ball.r (PongGame.ball self))))
                (PongGame.right self) false Hh)
      as (b' & Hb & Hx & Hoff).
    { simpl. lra. }
    cbn [PongGame.set_ball PongGame.ball PongGame.cfg PongGame.right].
    rewrite Hb. cbn [bind]. eexists; split; [reflexivity|].
    cbn [PongGame.set_ball PongGame.ball PongGame.cfg PongGame.right].
    split; [reflexivity|]. split; [exact Hx | exact Hoff].
  - eexists; split; reflexivity.
Qed.

(** ** What each phase of the step leaves alone *)

Lemma same_but_ball_refl (g : PongGame.t) : same_but_ball g g.
Proof. destruct g; reflexivity. Qed.

Ltac split_ifs :=
  repeat match goal with
         | |- context [if ?c then _ else _] => destruct c
         end.

Lemma tick_boost_same (g : PongGame.t) (dt : R) :
  PongGame.tick_boost g dt
  = PongGame.set_boost_timer g (PongGame.boost_timer (PongGame.tick_boost g dt)).
Proof. unfold PongGame.tick_boost. split_ifs; destruct g; reflexivity. Qed.

Lemma bounce_walls_same (g : PongGame.t) :
  same_but_ball g (PongGame.bounce_walls g).
Proof.
  unfold PongGame.bounce_walls, same_but_ball.
  split_ifs; destruct g; reflexivity.
Qed.

Lemma bounce_walls_keeps (g : PongGame.t) :
  let b := PongGame.ball g in
  let b' := PongGame.ball (PongGame.bounce_walls g) in
  Ball.x b' = Ball.x b /\ Ball.r b' = Ball.r b
  /\ Ball.speed b' = Ball.speed b.
Proof.
  unfold PongGame.bounce_walls. split_ifs; simpl; auto.
Qed.

Lemma paddle_side_same (g : PongGame.t) (p : Paddle.t) (is_left hit : bool)
    (snap_x : R) (g' : PongGame.t) :
  paddle_side g p is_left hit snap_x g' ->
  same_but_ball g g'
  /\ Ball.r (PongGame.ball g') = Ball.r (PongGame.ball g)
  /\ Ball.y (PongGame.ball g') = Ball.y (PongGame.ball g).
Proof.
  unfold paddle_side. destruct hit.
  - intros (Hs & _ & Hb). destruct Hb as (Hy & Hr & _). auto.
  - intros ->. split; [apply same_but_ball_refl | auto].
Qed.

Lemma collect_powerup_ball (g : PongGame.t) :
  PongGame.collect_powerup g
  = PongGame.set_boost_timer
      (PongGame.set_powerup g
         (PongGame.powerup (PongGame.collect_powerup g)))
      (PongGame.boost_timer (PongGame.collect_powerup g)).
Proof.
  unfold PongGame.collect_powerup.
  destruct (PongGame.powerup g) as [p|] eqn:Hp.
  - destruct (PowerUp.active p);
      [destruct (PongGame.touches (PongGame.ball g) p)|];
      destruct g; simpl in *; subst; reflexivity.
  - destruct g; simpl in *; subst; reflexivity.
Qed.

(** ** The spawn timer phase *)

Lemma tick_powerup_result (g : PongGame.t) (dt : R) (d : StepDraws) :
  arena_fits (PongGame.cfg g) ->
  PongGame.tick_powerup g dt d
  = Some (if spawns g dt
          then PongGame.set_powerup (PongGame.set_powerup_timer g 0)
                 (Some (PowerUp.mk (IZR (spawn_x d)) (IZR (spawn_y d))
                          (powerup_radius (PongGame.cfg g)) true))
          else PongGame.set_powerup_timer g (PongGame.powerup_timer g + dt)).
Proof.
  intros [Hw Hh]. unfold PongGame.tick_powerup, spawns, Rgeb.
  cbn [PongGame.set_powerup_timer PongGame.powerup PongGame.powerup_timer
       PongGame.cfg].
  destruct (PongGame.powerup g) as [p|]; [reflexivity|].
  destruct (Rge_dec _ _); [|reflexivity].
  unfold PongGame.spawn_powerup, randint.
  cbn [PongGame.set_powerup_timer PongGame.cfg].
  apply Z.leb_le in Hw, Hh. rewrite Hw, Hh. cbn [bind].
  assert (Hz : 0.0 = 0) by lra. rewrite Hz. reflexivity.
Qed.

(** ** The step as a whole *)

Lemma after_motion_result (g : PongGame.t) (dt : R) (d : StepDraws) :
  arena_fits (PongGame.cfg g) ->
  exists g0,
    PongGame.tick_powerup g dt d = Some g0
    /\ PongGame.after_motion g dt d
       = Some (PongGame.move_ball (PongGame.tick_boost g0 dt) dt)
    /\ PongGame.cfg g0 = PongGame.cfg g
    /\ PongGame.state g0 = PongGame.state g
    /\ PongGame.left g0 = PongGame.left g
    /\ PongGame.right g0 = PongGame.right g
    /\ PongGame.ball g0 = PongGame.ball g
    /\ PongGame.left_score g0 = PongGame.left_score g
    /\ PongGame.right_score g0 = PongGame.right_score g
    /\ PongGame.boost_timer g0 = PongGame.boost_timer g.
Proof.
  intros Hfit. unfold PongGame.after_motion.
  rewrite (tick_powerup_result g dt d Hfit).
  eexists; split; [reflexivity|]. cbn [bind].
  split; [reflexivity|].
  destruct (spawns g dt); simpl; repeat split; reflexivity.
Qed.

(** The boost countdown and the motion only read the ball, the boost timer
    and the configuration. *)
Lemma moved_ball_ext (g g0 : PongGame.t) (dt : R) :
  PongGame.cfg g0 = PongGame.cfg g ->
  PongGame.ball g0 = PongGame.ball g ->
  PongGame.boost_timer g0 = PongGame.boost_timer g ->
  PongGame.ball (PongGame.move_ball (PongGame.tick_boost g0 dt) dt)
  = PongGame.ball (PongGame.move_ball (PongGame.tick_boost g dt) dt)
  /\ PongGame.boost_timer (PongGame.tick_boost g0 dt)
     = PongGame.boost_timer (PongGame.tick_boost g dt).
Proof.
  intros Hc Hb Ht.
  assert (Hbt : PongGame.boost_timer (PongGame.tick_boost g0 dt)
                = PongGame.boost_timer (PongGame.tick_boost g dt)).
  { unfold PongGame.tick_boost. rewrite Ht.
    destruct (Rgt_dec (PongGame.boost_timer g) 0); [|exact Ht].
    cbn [PongGame.set_boost_timer PongGame.boost_timer].
    destruct (Rle_dec (PongGame.boost_timer g - dt) 0); reflexivity. }
  split; [|exact Hbt].
  unfold PongGame.move_ball.
  cbn [PongGame.set_ball PongGame.ball PongGame.cfg PongGame.boost_timer].
  rewrite Hbt.
  rewrite (tick_boost_same g0), (tick_boost_same g).
  cbn [PongGame.set_boost_timer PongGame.ball PongGame.cfg].
  rewrite Hc, Hb. reflexivity.
Qed.

(** Every step reaches the goal tests: under [arena_fits] nothing before
    them raises.  The lemma names the intermediate games. *)
Lemma before_goals_result (g : PongGame.t) (dt : R) (d : StepDraws) :
  arena_fits (PongGame.cfg g) ->
  exists g0 gw g1 g2,
    PongGame.tick_powerup g dt d = Some g0
    /\ gw = PongGame.bounce_walls
              (PongGame.move_ball (PongGame.tick_boost g0 dt) dt)
    /\ PongGame.bounce_left gw (PongGame.b_rect (PongGame.ball gw)) = Some g1
    /\ PongGame.bounce_right g1 (PongGame.b_rect (PongGame.ball gw)) = Some g2
    /\ PongGame.before_pickup g dt d = Some g2
    /\ PongGame.before_goals g dt d = Some (PongGame.collect_powerup g2).
Proof.
  intros Hfit.
  destruct (after_motion_result g dt d Hfit) as (g0 & Ht & Hm & _).
  set (gw := PongGame.bounce_walls
               (PongGame.move_ball (PongGame.tick_boost g0 dt) dt)).
  destruct (bounce_left_effect gw (PongGame.b_rect (PongGame.ball gw)))
    as (g1 & H1 & _).
  destruct (bounce_right_effect g1 (PongGame.b_rect (PongGame.ball gw)))
    as (g2 & H2 & _).
  assert (H12 : PongGame.bounce_paddles gw = Some g2).
  { unfold PongGame.bounce_paddles. rewrite H1. exact H2. }
  exists g0, gw, g1, g2.
  assert (Hbp : PongGame.before_pickup g dt d = Some g2).
  { unfold PongGame.before_pickup. rewrite Hm. cbn [bind]. exact H12. }
  repeat split; auto.
  unfold PongGame.before_goals. rewrite Hbp. reflexivity.
Qed.

(** ** Goals *)

Lemma colliderect_apart_left (a b : Rect.t) :
  (Z.max (Rect.x a) (Rect.x a + Rect.w a)
   <= Z.min (Rect.x b) (Rect.x b + Rect.w b))%Z ->
  Rect.colliderect a b = false.
Proof.
  intros H. unfold Rect.colliderect.
  destruct (_ || _ || _ || _); [reflexivity|].
  assert (E : (Z.max (Rect.x a) (Rect.x a + Rect.w a)
               >? Z.min (Rect.x b) (Rect.x b + Rect.w b))%Z = false).
  { rewrite Z.gtb_ltb. apply Z.ltb_ge. exact H. }
  rewrite E. rewrite andb_false_r. reflexivity.
Qed.

Lemma colliderect_apart_right (a b : Rect.t) :
  (Z.max (Rect.x b) (Rect.x b + Rect.w b)
   <= Z.min (Rect.x a) (Rect.x a + Rect.w a))%Z ->
  Rect.colliderect a b = false.
Proof.
  intros H. unfold Rect.colliderect.
  destruct (_ || _ || _ || _); [reflexivity|].
  assert (E : (Z.min (Rect.x a) (Rect.x a + Rect.w a)
               <? Z.max (Rect.x b) (Rect.x b + Rect.w b))%Z = false).
  { apply Z.ltb_ge. exact H. }
  rewrite E. reflexivity.
Qed.

(** A ball wholly to the left of x = 0 cannot touch a paddle on the field. *)
Lemma no_contact_past_left_edge (cfg : Config) (b : Ball.t) (p : Paddle.t) :
  (0 <= Ball.r b)%Z -> paddle_on_field cfg p ->
  Ball.x b + IZR (Ball.r b) < 0 ->
  Rect.colliderect (PongGame.b_rect b) (Paddle.rect p) = false.
Proof.
  intros Hr (Hx & Hw & _) Hout.
  apply colliderect_apart_left. simpl.
  pose proof (py_int_sign_nonneg _ Hx) as Hpx.
  assert (Hr' : 0 <= IZR (Ball.r b)) by (apply IZR_le; exact Hr).
  assert (Hneg : Ball.x b - IZR (Ball.r b) < 0) by lra.
  pose proof (py_int_neg _ Hneg) as [Hlo _].
  assert (Hbox : (py_int (Ball.x b - IZR (Ball.r b)) + Ball.r b * 2 <= 0)%Z).
  { apply Z.lt_succ_r. apply lt_IZR. rewrite succ_IZR, plus_IZR, mult_IZR.
    lra. }
  lia.
Qed.

(** A ball wholly to the right of the arena cannot touch one either. *)
Lemma no_contact_past_right_edge (cfg : Config) (b : Ball.t) (p : Paddle.t) :
  (0 <= Ball.r b)%Z -> (0 <= width cfg)%Z -> paddle_on_field cfg p ->
  Ball.x b - IZR (Ball.r b) > IZR (width cfg) ->
  Rect.colliderect (PongGame.b_rect b) (Paddle.rect p) = false.
Proof.
  intros Hr Hwd (Hx & Hw & Hin) Hout.
  apply colliderect_apart_right. simpl.
  pose proof (py_int_nonneg _ Hx) as [Hpx _].
  assert (Hwd' : 0 <= IZR (width cfg)) by (apply IZR_le; exact Hwd).
  assert (Hpos : 0 <= Ball.x b - IZR (Ball.r b)) by lra.
  pose proof (py_int_nonneg _ Hpos) as [_ Hhi].
  assert (Hbox : (width cfg <= py_int (Ball.x b - IZR (Ball.r b)))%Z).
  { apply Z.lt_succ_r. apply lt_IZR. rewrite succ_IZR. lra. }
  assert (Hpad : (py_int (Paddle.x p) + Paddle.w p <= width cfg)%Z).
  { apply le_IZR. rewrite plus_IZR. lra. }
  lia.
Qed.

Lemma bounce_paddles_miss (g : PongGame.t) :
  Rect.colliderect (PongGame.b_rect (PongGame.ball g))
    (Paddle.rect (PongGame.left g)) = false ->
  Rect.colliderect (PongGame.b_rect (PongGame.ball g))
    (Paddle.rect (PongGame.right g)) = false ->
  PongGame.bounce_paddles g = Some g.
Proof.
  intros Hl Hr.
  unfold PongGame.bounce_paddles, PongGame.bounce_left, PongGame.hits_left.
  rewrite Hl. cbn [andb bind].
  unfold PongGame.bounce_right, PongGame.hits_right. rewrite Hr.
  reflexivity.
Qed.

Lemma check_win_same (g : PongGame.t) :
  PongGame.check_win g
  = PongGame.set_state g (PongGame.state (PongGame.check_win g)).
Proof.
  unfold PongGame.check_win. destruct (_ || _); destruct g; reflexivity.
Qed.

(** The game as the goal tests find it when no paddle was touched. *)
Lemma before_goals_untouched (g : PongGame.t) (dt : R) (d : StepDraws) :
  arena_fits (PongGame.cfg g) ->
  (let b := PongGame.ball
              (PongGame.move_ball (PongGame.tick_boost g dt) dt) in
   forall b', Ball.x b' = Ball.x b -> Ball.r b' = Ball.r b ->
     Rect.colliderect (PongGame.b_rect b') (Paddle.rect (PongGame.left g))
     = false
     /\ Rect.colliderect (PongGame.b_rect b') (Paddle.rect (PongGame.right g))
        = false) ->
  exists gc,
    PongGame.before_goals g dt d = Some gc
    /\ PongGame.cfg gc = PongGame.cfg g
    /\ PongGame.state gc = PongGame.state g
    /\ PongGame.left gc = PongGame.left g
    /\ PongGame.right gc = PongGame.right g
    /\ PongGame.left_score gc = PongGame.left_score g
    /\ PongGame.right_score gc = PongGame.right_score g
    /\ Ball.x (PongGame.ball gc)
       = Ball.x (PongGame.ball
                   (PongGame.move_ball (PongGame.tick_boost g dt) dt))
    /\ Ball.r (PongGame.ball gc) = Ball.r (PongGame.ball g).
Proof.
  intros Hfit Hmiss.
  destruct (after_motion_result g dt d Hfit)
    as (g0 & Ht & Hm & Hc & Hs & Hl & Hr & Hb & Hls & Hrs & Hbt).
  destruct (moved_ball_ext g g0 dt Hc Hb Hbt) as [Hmv _].
  set (gm := PongGame.move_ball (PongGame.tick_boost g0 dt) dt) in *.
  set (gw := PongGame.bounce_walls gm).
  pose proof (bounce_walls_same gm) as Hws. fold gw in Hws.
  pose proof (bounce_walls_keeps gm) as (Hwx & Hwr & _). fold gw in Hwx, Hwr.
  assert (Hgm : gm = PongGame.set_ball (PongGame.tick_boost g0 dt)
                       (PongGame.ball gm)) by reflexivity.
  pose proof (tick_boost_same g0 dt) as Htb.
  assert (Hflds : PongGame.cfg gw = PongGame.cfg g
                  /\ PongGame.state gw = PongGame.state g
                  /\ PongGame.left gw = PongGame.left g
                  /\ PongGame.right gw = PongGame.right g
                  /\ PongGame.left_score gw = PongGame.left_score g
                  /\ PongGame.right_score gw = PongGame.right_score g).
  { unfold same_but_ball in Hws. rewrite Hws, Hgm, Htb. simpl.
    repeat split; assumption. }
  destruct Hflds as (Fc & Fs & Fl & Fr & Fls & Frs).
  assert (Hx : Ball.x (PongGame.ball gw)
               = Ball.x (PongGame.ball
                   (PongGame.move_ball (PongGame.tick_boost g dt) dt)))
    by (rewrite Hwx, Hmv; reflexivity).
  assert (Hrr : Ball.r (PongGame.ball gw)
               = Ball.r (PongGame.ball
                   (PongGame.move_ball (PongGame.tick_boost g dt) dt)))
    by (rewrite Hwr, Hmv; reflexivity).
  destruct (Hmiss (PongGame.ball gw) Hx Hrr) as [Ml Mr].
  rewrite <- Fl in Ml. rewrite <- Fr in Mr.
  pose proof (bounce_paddles_miss gw Ml Mr) as Hbp.
  exists (PongGame.collect_powerup gw).
  split.
  { unfold PongGame.before_goals, PongGame.before_pickup.
    rewrite Hm. cbn [bind]. fold gw. rewrite Hbp. reflexivity. }
  rewrite (collect_powerup_ball gw). simpl.
  repeat split; try assumption.
  rewrite Hrr. simpl. rewrite (tick_boost_same g dt). reflexivity.
Qed.

Lemma reset_round_served (cfg : Config) (ball : Ball.t) (serve_to_left : bool)
    (d : ServeDraw) :
  reset_round cfg ball serve_to_left d
  = Some (served cfg (Ball.r ball) serve_to_left d).
Proof.
  rewrite reset_round_result. unfold served.
  destruct serve_to_left; reflexivity.
Qed.

Lemma goal_left_edge_fires (g : PongGame.t) (d : StepDraws) :
  Ball.x (PongGame.ball g) + IZR (Ball.r (PongGame.ball g)) < 0 ->
  PongGame.goal_left_edge g d
  = Some (PongGame.set_boost_timer
            (PongGame.set_ball
               (PongGame.set_right_score g (PongGame.right_score g + 1))
               (served (PongGame.cfg g) (Ball.r (PongGame.ball g)) true
                  (serve_after_left_exit d)))
            0).
Proof.
  intros H. unfold PongGame.goal_left_edge.
  destruct (Rlt_dec _ 0); [|contradiction].
  cbn [PongGame.set_right_score PongGame.cfg PongGame.ball].
  rewrite reset_round_served. cbn [bind].
  assert (Hz : 0.0 = 0) by lra. rewrite Hz. reflexivity.
Qed.

Lemma goal_left_edge_idle (g : PongGame.t) (d : StepDraws) :
  ~ Ball.x (PongGame.ball g) + IZR (Ball.r (PongGame.ball g)) < 0 ->
  PongGame.goal_left_edge g d = Some g.
Proof.
  intros H. unfold PongGame.goal_left_edge.
  destruct (Rlt_dec _ 0); [contradiction|reflexivity].
Qed.

Lemma goal_right_edge_fires (g : PongGame.t) (d : StepDraws) :
  Ball.x (PongGame.ball g) - IZR (Ball.r (PongGame.ball g))
  > IZR (width (PongGame.cfg g)) ->
  PongGame.goal_right_edge g d
  = Some (PongGame.set_boost_timer
            (PongGame.set_ball
               (PongGame.set_left_score g (PongGame.left_score g + 1))
               (served (PongGame.cfg g) (Ball.r (PongGame.ball g)) false
                  (serve_after_right_exit d)))
            0).
Proof.
  intros H. unfold PongGame.goal_right_edge.
  destruct (Rgt_dec _ _); [|contradiction].
  cbn [PongGame.set_left_score PongGame.cfg PongGame.ball].
  rewrite reset_round_served. cbn [bind].
  assert (Hz : 0.0 = 0) by lra. rewrite Hz. reflexivity.
Qed.

Lemma goal_right_edge_idle (g : PongGame.t) (d : StepDraws) :
  ~ Ball.x (PongGame.ball g) - IZR (Ball.r (PongGame.ball g))
    > IZR (width (PongGame.cfg g)) ->
  PongGame.goal_right_edge g d = Some g.
Proof.
  intros H. unfold PongGame.goal_right_edge.
  destruct (Rgt_dec _ _); [contradiction|reflexivity].
Qed.

(** A ball served from the centre is inside the arena: neither goal test
    fires on it. *)
Lemma served_in_arena (cfg : Config) (r : Z) (l : bool) (d : ServeDraw) :
  (0 <= r)%Z -> (0 <= width cfg)%Z ->
  ~ Ball.x (served cfg r l d) + IZR (Ball.r (served cfg r l d)) < 0
  /\ ~ Ball.x (served cfg r l d) - IZR (Ball.r (served cfg r l d))
       > IZR (width cfg).
Proof.
  intros Hr Hw. apply IZR_le in Hr, Hw. simpl. lra.
Qed.

Lemma arena_fits_width (cfg : Config) : arena_fits cfg -> (0 <= width cfg)%Z.
Proof. intros [Hw _]. lia. Qed.

Lemma default_arena_fits : arena_fits default_config.
Proof. unfold arena_fits; simpl; lia. Qed.

(** ** Paddles stay in the arena *)

Lemma clamp_in_range (v lo hi : R) : lo <= hi -> lo <= clamp v lo hi <= hi.
Proof.
  intros H. unfold clamp.
  pose proof (Rmax_l lo (Rmin hi v)). pose proof (Rmin_l hi v).
  split; [assumption|]. apply Rmax_lub; assumption.
Qed.

Lemma clamped_paddle_in_arena (cfg : Config) (p : Paddle.t) (v : R) :
  (Paddle.h p <= height cfg)%Z ->
  paddle_in_arena cfg
    (Paddle.set_y p (clamp v 0 (IZR (height cfg - Paddle.h p)))).
Proof.
  intros Hh. unfold paddle_in_arena. simpl.
  rewrite <- minus_IZR. apply clamp_in_range.
  apply IZR_le. lia.
Qed.

Lemma ai_move_in_arena (cfg : Config) (ai : Paddle.t) (ball : Ball.t)
    (dt : R) :
  (Paddle.h ai <= height cfg)%Z ->
  paddle_in_arena cfg (ai_move cfg ai ball dt)
  /\ Paddle.h (ai_move cfg ai ball dt) = Paddle.h ai.
Proof.
  intros Hh. unfold ai_move.
  destruct (Rgt_dec _ _); [|destruct (Rlt_dec _ _)];
    (split; [apply clamped_paddle_in_arena; exact Hh | reflexivity]).
Qed.

(** C9: whatever keys are held (so for the player's left paddle, the
    manually driven right paddle and the AI driven right paddle alike) and
    whatever [dt] is, after [handle_input] both paddles satisfy
    [0 <= y <= height - h], provided the paddles are not taller than the
    arena; the AI move on its own keeps the same bound. *)
Theorem paddles_stay_in_arena (self : PongGame.t) (dt : R)
    (keys : Key -> bool) :
  let cfg := PongGame.cfg self in
  (Paddle.h (PongGame.left self) <= height cfg)%Z ->
  (Paddle.h (PongGame.right self) <= height cfg)%Z ->
  let self' := PongGame.handle_input self dt keys in
  paddle_in_arena cfg (PongGame.left self')
  /\ paddle_in_arena cfg (PongGame.right self')
  /\ paddle_in_arena cfg
       (ai_move cfg (PongGame.right self) (PongGame.ball self) dt).
Proof.
  intros cfg Hl Hr self'. subst self'. unfold PongGame.handle_input.
  destruct (keys K_w), (keys K_s), (keys K_RSHIFT || keys K_LSHIFT),
    (keys K_UP), (keys K_DOWN);
    cbn [PongGame.set_left PongGame.set_right PongGame.left PongGame.right
         PongGame.cfg PongGame.ball];
    (split; [|split]);
    try (apply (clamped_paddle_in_arena cfg); simpl; assumption);
    try (apply ai_move_in_arena; simpl; assumption).
Qed.

Lemma paddles_stay_in_arena_witness :
  paddle_in_arena default_config
    (PongGame.left
       (PongGame.handle_input game_past_left_edge (1 / 60) nothing_held))
  /\ paddle_in_arena default_config
       (PongGame.right
          (PongGame.handle_input game_past_left_edge (1 / 60) nothing_held)).
Proof.
  destruct (paddles_stay_in_arena game_past_left_edge (1 / 60) nothing_held)
    as (Hl & Hr & _).
  - simpl; lia.
  - simpl; lia.
  - split; [exact Hl | exact Hr].
Defined.

(** ** The goal phase and what it leaves alone *)

Lemma goal_left_edge_keeps (g : PongGame.t) (d : StepDraws) :
  exists g',
    PongGame.goal_left_edge g d = Some g'
    /\ PongGame.cfg g' = PongGame.cfg g
    /\ PongGame.state g' = PongGame.state g
    /\ PongGame.left g' = PongGame.left g
    /\ PongGame.right g' = PongGame.right g
    /\ PongGame.left_score g' = PongGame.left_score g
    /\ PongGame.powerup g' = PongGame.powerup g
    /\ PongGame.powerup_timer g' = PongGame.powerup_timer g.
Proof.
  destruct (Rlt_dec (Ball.x (PongGame.ball g)
                     + IZR (Ball.r (PongGame.ball g))) 0) as [H|H].
  - rewrite (goal_left_edge_fires g d H). eexists; split; [reflexivity|].
    simpl. repeat split.
  - rewrite (goal_left_edge_idle g d H). eexists; split; [reflexivity|].
    repeat split.
Qed.

Lemma goal_right_edge_keeps (g : PongGame.t) (d : StepDraws) :
  exists g',
    PongGame.goal_right_edge g d = Some g'
    /\ PongGame.cfg g' = PongGame.cfg g
    /\ PongGame.state g' = PongGame.state g
    /\ PongGame.left g' = PongGame.left g
    /\ PongGame.right g' = PongGame.right g
    /\ PongGame.right_score g' = PongGame.right_score g
    /\ PongGame.powerup g' = PongGame.powerup g
    /\ PongGame.powerup_timer g' = PongGame.powerup_timer g.
Proof.
  destruct (Rgt_dec (Ball.x (PongGame.ball g)
                     - IZR (Ball.r (PongGame.ball g)))
              (IZR (width (PongGame.cfg g)))) as [H|H].
  - rewrite (goal_right_edge_fires g d H). eexists; split; [reflexivity|].
    simpl. repeat split.
  - rewrite (goal_right_edge_idle g d H). eexists; split; [reflexivity|].
    repeat split.
Qed.

(** The goal phase never raises and touches neither the configuration, the
    paddles, the power-up nor the spawn timer. *)
Lemma score_goals_keeps (g : PongGame.t) (d : StepDraws) :
  exists g',
    PongGame.score_goals g d = Some g'
    /\ PongGame.cfg g' = PongGame.cfg g
    /\ PongGame.left g' = PongGame.left g
    /\ PongGame.right g' = PongGame.right g
    /\ PongGame.powerup g' = PongGame.powerup g
    /\ PongGame.powerup_timer g' = PongGame.powerup_timer g.
Proof.
  destruct (goal_left_edge_keeps g d)
    as (g1 & H1 & Fc1 & _ & Fl1 & Fr1 & _ & Fp1 & Ft1).
  destruct (goal_right_edge_keeps g1 d)
    as (g2 & H2 & Fc2 & _ & Fl2 & Fr2 & _ & Fp2 & Ft2).
  exists (PongGame.check_win g2). split.
  { unfold PongGame.score_goals. rewrite H1. cbn [bind]. rewrite H2.
    reflexivity. }
  rewrite (check_win_same g2). simpl.
  repeat split; congruence.
Qed.

(** Without a goal the phase only runs the win test. *)
Lemma score_goals_quiet (g : PongGame.t) (d : StepDraws) :
  ~ Ball.x (PongGame.ball g) + IZR (Ball.r (PongGame.ball g)) < 0 ->
  ~ Ball.x (PongGame.ball g) - IZR (Ball.r (PongGame.ball g))
    > IZR (width (PongGame.cfg g)) ->
  PongGame.score_goals g d = Some (PongGame.check_win g).
Proof.
  intros Hl Hr. unfold PongGame.score_goals.
  rewrite (goal_left_edge_idle g d Hl). cbn [bind].
  rewrite (goal_right_edge_idle g d Hr). reflexivity.
Qed.


(** ** Collecting the power-up *)

Lemma abs_x_le_length (v : Vector2.t) : Rabs (Vector2.x v) <= Vector2.length v.
Proof.
  pose proof (length_nonneg v) as Hl. pose proof (length_square v) as Hs.
  apply Rabs_le. split; nra.
Qed.

Lemma spawned_powerup_inside (g g' : PongGame.t) (d : StepDraws) :
  (120 <= spawn_x d <= width (PongGame.cfg g) - 120)%Z ->
  (powerup_radius (PongGame.cfg g) <= 120)%Z ->
  PongGame.spawn_powerup g d = Some g' ->
  exists p,
    PongGame.powerup g' = Some p /\ PowerUp.active p = true
    /\ powerup_inside (PongGame.cfg g) p.
Proof.
  intros Hx Hr. unfold PongGame.spawn_powerup, randint.
  destruct (_ <=? _)%Z; [|discriminate].
  destruct (_ <=? _)%Z; [|discriminate].
  cbn [bind]. intros H. injection H as <-.
  eexists; split; [reflexivity|]. split; [reflexivity|].
  unfold powerup_inside. simpl. rewrite <- minus_IZR.
  split; apply IZR_le; lia.
Qed.

(** C7: whenever the power-up test of a step finds an active power-up whose
    centre is at distance at most the sum of the radii from the ball's
    centre, the step ends with the power-up removed and the boost timer
    equal to the configured boost duration.  The power-up is assumed to lie
    inside the arena, as spawned ones do, so that no goal is scored in the
    same step. *)
Theorem powerup_pickup_starts_boost (g : PongGame.t) (p : PowerUp.t)
    (d : StepDraws) :
  PongGame.powerup g = Some p ->
  PowerUp.active p = true ->
  Vector2.length
    (Vector2.sub (Ball.pos (PongGame.ball g))
       (Vector2.mk (PowerUp.x p) (PowerUp.y p)))
  <= IZR (Ball.r (PongGame.ball g) + PowerUp.r p) ->
  powerup_inside (PongGame.cfg g) p ->
  exists g',
    PongGame.score_goals (PongGame.collect_powerup g) d = Some g'
    /\ PongGame.powerup g' = None
    /\ PongGame.boost_timer g' = boost_duration_sec (PongGame.cfg g)
    /\ forall self dt,
         PongGame.before_pickup self dt d = Some g ->
         PongGame.update_playing self dt d = Some g'.
Proof.
  intros Hp Ha Hd [Hlo Hhi].
  pose proof (abs_x_le_length
                (Vector2.sub (Ball.pos (PongGame.ball g))
                   (Vector2.mk (PowerUp.x p) (PowerUp.y p)))) as Habs.
  simpl in Habs. rewrite plus_IZR in Hd.
  assert (Hdx : Rabs (Ball.x (PongGame.ball g) - PowerUp.x p)
                <= IZR (Ball.r (PongGame.ball g)) + IZR (PowerUp.r p))
    by lra.
  assert (Hdl : - (IZR (Ball.r (PongGame.ball g)) + IZR (PowerUp.r p))
                <= Ball.x (PongGame.ball g) - PowerUp.x p
                <= IZR (Ball.r (PongGame.ball g)) + IZR (PowerUp.r p)).
  { unfold Rabs in Hdx. destruct (Rcase_abs _); lra. }
  assert (Hc : PongGame.collect_powerup g
               = PongGame.set_boost_timer (PongGame.set_powerup g None)
                   (boost_duration_sec (PongGame.cfg g))).
  { unfold PongGame.collect_powerup, PongGame.touches. rewrite Hp, Ha.
    rewrite plus_IZR.
    assert (Ht : Rleb (Vector2.length
                         (Vector2.sub (Ball.pos (PongGame.ball g))
                            (Vector2.mk (PowerUp.x p) (PowerUp.y p))))
                   (IZR (Ball.r (PongGame.ball g)) + IZR (PowerUp.r p))
                 = true) by (apply Rleb_true; exact Hd).
    rewrite Ht. reflexivity. }
  rewrite Hc.
  rewrite score_goals_quiet; cbn [PongGame.set_boost_timer
    PongGame.set_powerup PongGame.ball PongGame.cfg]; try lra.
  eexists; split; [reflexivity|].
  split; [rewrite check_win_same; reflexivity|].
  split; [rewrite check_win_same; reflexivity|].
  intros self dt Hbp. unfold PongGame.update_playing, PongGame.before_goals.
  rewrite Hbp. cbn [bind]. rewrite Hc.
  rewrite score_goals_quiet; cbn [PongGame.set_boost_timer
    PongGame.set_powerup PongGame.ball PongGame.cfg]; try lra.
  reflexivity.
Qed.

Lemma powerup_pickup_starts_boost_witness :
  exists g',
    PongGame.score_goals (PongGame.collect_powerup game_on_powerup)
      quiet_draws = Some g'
    /\ PongGame.powerup g' = None
    /\ PongGame.boost_timer g' = 1.2.
Proof.
  destruct (powerup_pickup_starts_boost game_on_powerup
              (PowerUp.mk 500 300 12 true) quiet_draws)
    as (g' & Hg & Hp & Hb & _).
  - reflexivity.
  - reflexivity.
  - assert (Hz : Vector2.length
                   (Vector2.sub (Ball.pos (PongGame.ball game_on_powerup))
                      (Vector2.mk 500 300)) = 0)
      by (apply length_zero_iff; simpl; split; lra).
    simpl PowerUp.x. simpl PowerUp.y. rewrite Hz. simpl. lra.
  - unfold powerup_inside. simpl. lra.
  - exists g'. split; [exact Hg|]. split; [exact Hp|]. exact Hb.
Defined.

(** C10: when the goal tests find the ball past the left edge, the step's
    remainder returns a game that differs from the one it found only in the
    right score (one higher), the ball (re-served to the left), the boost
    timer (0) and the state the win test may set; in particular the
    power-up, active or not, and the spawn timer are the ones the goal tests
    found.  Symmetric for the right edge. *)
Theorem goal_keeps_powerup (g : PongGame.t) (d : StepDraws) :
  (0 <= Ball.r (PongGame.ball g))%Z ->
  (0 <= width (PongGame.cfg g))%Z ->
  (Ball.x (PongGame.ball g) + IZR (Ball.r (PongGame.ball g)) < 0 ->
   exists g',
     PongGame.score_goals g d = Some g'
     /\ g' = PongGame.check_win
               (PongGame.mk (PongGame.cfg g) (PongGame.state g)
                  (PongGame.left g) (PongGame.right g)
                  (served (PongGame.cfg g) (Ball.r (PongGame.ball g)) true
                     (serve_after_left_exit d))
                  (PongGame.left_score g) (PongGame.right_score g + 1)
                  (PongGame.powerup g) (PongGame.powerup_timer g) 0)
     /\ PongGame.powerup g' = PongGame.powerup g
     /\ PongGame.powerup_timer g' = PongGame.powerup_timer g
     /\ forall self dt,
          PongGame.before_goals self dt d = Some g ->
          PongGame.update_playing self dt d = Some g')
  /\ (Ball.x (PongGame.ball g) - IZR (Ball.r (PongGame.ball g))
      > IZR (width (PongGame.cfg g)) ->
      exists g',
        PongGame.score_goals g d = Some g'
        /\ g' = PongGame.check_win
                  (PongGame.mk (PongGame.cfg g) (PongGame.state g)
                     (PongGame.left g) (PongGame.right g)
                     (served (PongGame.cfg g) (Ball.r (PongGame.ball g))
                        false (serve_after_right_exit d))
                     (PongGame.left_score g + 1) (PongGame.right_score g)
                     (PongGame.powerup g) (PongGame.powerup_timer g) 0)
        /\ PongGame.powerup g' = PongGame.powerup g
        /\ PongGame.powerup_timer g' = PongGame.powerup_timer g
        /\ forall self dt,
             PongGame.before_goals self dt d = Some g ->
             PongGame.update_playing self dt d = Some g').
Proof.
  intros Hr Hw.
  assert (Hr' : 0 <= IZR (Ball.r (PongGame.ball g)))
    by (apply IZR_le; exact Hr).
  assert (Hw' : 0 <= IZR (width (PongGame.cfg g)))
    by (apply IZR_le; exact Hw).
  split; intros Hout.
  - assert (Hs : PongGame.score_goals g d
                 = Some (PongGame.check_win
                           (PongGame.mk (PongGame.cfg g) (PongGame.state g)
                              (PongGame.left g) (PongGame.right g)
                              (served (PongGame.cfg g)
                                 (Ball.r (PongGame.ball g)) true
                                 (serve_after_left_exit d))
                              (PongGame.left_score g)
                              (PongGame.right_score g + 1)
                              (PongGame.powerup g)
                              (PongGame.powerup_timer g) 0))).
    { unfold PongGame.score_goals.
      rewrite (goal_left_edge_fires g d Hout). cbn [bind].
      rewrite goal_right_edge_idle; [reflexivity|].
      apply (served_in_arena (PongGame.cfg g)); assumption. }
    eexists; split; [exact Hs|]. split; [reflexivity|].
    split; [rewrite check_win_same; reflexivity|].
    split; [rewrite check_win_same; reflexivity|].
    intros self dt Hbg. unfold PongGame.update_playing. rewrite Hbg.
    exact Hs.
  - assert (Hs : PongGame.score_goals g d
                 = Some (PongGame.check_win
                           (PongGame.mk (PongGame.cfg g) (PongGame.state g)
                              (PongGame.left g) (PongGame.right g)
                              (served (PongGame.cfg g)
                                 (Ball.r (PongGame.ball g)) false
                                 (serve_after_right_exit d))
                              (PongGame.left_score g + 1)
                              (PongGame.right_score g)
                              (PongGame.powerup g)
                              (PongGame.powerup_timer g) 0))).
    { unfold PongGame.score_goals.
      rewrite goal_left_edge_idle by lra. cbn [bind].
      rewrite (goal_right_edge_fires g d Hout). reflexivity. }
    eexists; split; [exact Hs|]. split; [reflexivity|].
    split; [rewrite check_win_same; reflexivity|].
    split; [rewrite check_win_same; reflexivity|].
    intros self dt Hbg. unfold PongGame.update_playing. rewrite Hbg.
    exact Hs.
Qed.

Lemma goal_keeps_powerup_witness :
  exists g',
    PongGame.score_goals game_goal_with_powerup quiet_draws = Some g'
    /\ PongGame.powerup g' = Some (PowerUp.mk 500 300 12 true)
    /\ PongGame.powerup_timer g' = 3.
Proof.
  destruct (goal_keeps_powerup game_goal_with_powerup quiet_draws)
    as [HL _].
  - simpl; lia.
  - simpl; lia.
  - destruct HL as (g' & Hg & _ & Hp & Ht & _).
    + simpl; lra.
    + exists g'. split; [exact Hg|]. split; [exact Hp | exact Ht].
Defined.

(** ** A step in free flight *)

Lemma le_py_int (z : Z) (v : R) : 0 <= v -> IZR z <= v -> (z <= py_int v)%Z.
Proof.
  intros Hv Hz. pose proof (py_int_nonneg v Hv) as [_ Hhi].
  apply Z.lt_succ_r. apply lt_IZR. rewrite succ_IZR. lra.
Qed.

(** The ball's box lies to the right of the paddle's rectangle. *)
Lemma no_contact_right_of (b : Ball.t) (p : Paddle.t) :
  (0 <= Ball.r b)%Z -> 0 <= Paddle.x p -> (0 <= Paddle.w p)%Z ->
  Paddle.x p + IZR (Paddle.w p) <= Ball.x b - IZR (Ball.r b) ->
  Rect.colliderect (PongGame.b_rect b) (Paddle.rect p) = false.
Proof.
  intros Hr Hx Hw Hsep. apply colliderect_apart_right. simpl.
  pose proof (py_int_nonneg _ Hx) as [Hpx _].
  assert (Hw' : 0 <= IZR (Paddle.w p)) by (apply IZR_le; exact Hw).
  assert (Hb : (py_int (Paddle.x p) + Paddle.w p
                <= py_int (Ball.x b - IZR (Ball.r b)))%Z).
  { apply le_py_int; [lra|]. rewrite plus_IZR. lra. }
  lia.
Qed.

(** The ball's box lies to the left of the paddle's rectangle. *)
Lemma no_contact_left_of (b : Ball.t) (p : Paddle.t) :
  (0 <= Ball.r b)%Z -> (0 <= Paddle.w p)%Z ->
  0 <= Ball.x b - IZR (Ball.r b) ->
  Ball.x b + IZR (Ball.r b) <= Paddle.x p ->
  Rect.colliderect (PongGame.b_rect b) (Paddle.rect p) = false.
Proof.
  intros Hr Hw Hpos Hsep. apply colliderect_apart_left. simpl.
  pose proof (py_int_nonneg _ Hpos) as [Hbx _].
  assert (Hr' : 0 <= IZR (Ball.r b)) by (apply IZR_le; exact Hr).
  assert (Hb : (py_int (Ball.x b - IZR (Ball.r b)) + Ball.r b * 2
                <= py_int (Paddle.x p))%Z).
  { apply le_py_int; [lra|]. rewrite plus_IZR, mult_IZR. lra. }
  lia.
Qed.

Lemma tick_boost_off (g : PongGame.t) (dt : R) :
  ~ PongGame.boost_timer g > 0 -> PongGame.tick_boost g dt = g.
Proof.
  intros H. unfold PongGame.tick_boost.
  destruct (Rgt_dec _ 0); [contradiction|reflexivity].
Qed.

Lemma bounce_walls_clear (g : PongGame.t) :
  ~ Ball.y (PongGame.ball g) - IZR (Ball.r (PongGame.ball g)) <= 0 ->
  ~ Ball.y (PongGame.ball g) + IZR (Ball.r (PongGame.ball g))
    >= IZR (height (PongGame.cfg g)) ->
  PongGame.bounce_walls g = g.
Proof.
  intros Ht Hb. unfold PongGame.bounce_walls.
  destruct (Rle_dec _ 0); [contradiction|].
  destruct (Rge_dec _ _); [contradiction|reflexivity].
Qed.

(** A step without spawn or boost in which the ball meets neither wall nor
    paddle reaches the power-up test with only the ball moved and the spawn
    timer advanced. *)
Lemma free_flight_step (g : PongGame.t) (dt : R) (d : StepDraws) :
  arena_fits (PongGame.cfg g) ->
  spawns g dt = false ->
  ~ PongGame.boost_timer g > 0 ->
  let b' := coasted (PongGame.ball g) dt in
  ~ Ball.y b' - IZR (Ball.r b') <= 0 ->
  ~ Ball.y b' + IZR (Ball.r b') >= IZR (height (PongGame.cfg g)) ->
  Rect.colliderect (PongGame.b_rect b') (Paddle.rect (PongGame.left g))
  = false ->
  Rect.colliderect (PongGame.b_rect b') (Paddle.rect (PongGame.right g))
  = false ->
  PongGame.before_pickup g dt d
  = Some (PongGame.set_ball
            (PongGame.set_powerup_timer g (PongGame.powerup_timer g + dt))
            b').
Proof.
  intros Hfit Hsp Hboost b' Htop Hbot Hl Hr.
  unfold PongGame.before_pickup, PongGame.after_motion.
  rewrite (tick_powerup_result g dt d Hfit), Hsp. cbn [bind].
  rewrite tick_boost_off by exact Hboost.
  assert (Hm : PongGame.move_ball
                 (PongGame.set_powerup_timer g (PongGame.powerup_timer g + dt))
                 dt
               = PongGame.set_ball
                   (PongGame.set_powerup_timer g
                      (PongGame.powerup_timer g + dt)) b').
  { unfold PongGame.move_ball.
    cbn [PongGame.set_powerup_timer PongGame.boost_timer PongGame.ball
         PongGame.set_ball PongGame.cfg].
    destruct (Rgt_dec (PongGame.boost_timer g) 0); [contradiction|].
    reflexivity. }
  rewrite Hm.
  rewrite bounce_walls_clear by assumption.
  apply bounce_paddles_miss; assumption.
Qed.

Lemma length_le (v : Vector2.t) (bound : R) :
  0 <= bound ->
  Vector2.x v * Vector2.x v + Vector2.y v * Vector2.y v <= bound * bound ->
  Vector2.length v <= bound.
Proof.
  intros Hb Hsq. pose proof (length_nonneg v) as Hl.
  pose proof (length_square v) as Hs.
  destruct (Rle_dec (Vector2.length v) bound) as [H|H]; [exact H|].
  exfalso. nra.
Qed.

Lemma collect_powerup_touching (g : PongGame.t) (p : PowerUp.t) :
  PongGame.powerup g = Some p ->
  PowerUp.active p = true ->
  PongGame.touches (PongGame.ball g) p = true ->
  PongGame.collect_powerup g
  = PongGame.set_boost_timer (PongGame.set_powerup g None)
      (boost_duration_sec (PongGame.cfg g)).
Proof.
  intros Hp Ha Ht. unfold PongGame.collect_powerup.
  rewrite Hp, Ha, Ht. reflexivity.
Qed.

(** ** The spawn timer *)

(** The spawn timer after a step: back to 0 when the step spawned, advanced
    by [dt] otherwise.  No other phase writes it. *)
Lemma step_spawn_timer (g : PongGame.t) (dt : R) (d : StepDraws) :
  arena_fits (PongGame.cfg g) ->
  exists g',
    PongGame.update_playing g dt d = Some g'
    /\ PongGame.powerup_timer g'
       = (if spawns g dt then 0 else PongGame.powerup_timer g + dt).
Proof.
  intros Hfit.
  destruct (before_goals_result g dt d Hfit)
    as (g0 & gw & g1 & g2 & Ht & Hgw & H1 & H2 & _ & Hbg).
  destruct (score_goals_keeps (PongGame.collect_powerup g2) d)
    as (g' & Hg' & _ & _ & _ & _ & Htm).
  exists g'. split.
  { unfold PongGame.update_playing. rewrite Hbg. exact Hg'. }
  rewrite Htm, (collect_powerup_ball g2).
  cbn [PongGame.set_boost_timer PongGame.set_powerup PongGame.powerup_timer].
  destruct (bounce_left_effect gw (PongGame.b_rect (PongGame.ball gw)))
    as (g1' & H1' & S1).
  rewrite H1 in H1'. injection H1' as <-.
  destruct (bounce_right_effect g1 (PongGame.b_rect (PongGame.ball gw)))
    as (g2' & H2' & S2).
  rewrite H2 in H2'. injection H2' as <-.
  apply paddle_side_same in S1, S2.
  destruct S1 as (S1 & _). destruct S2 as (S2 & _).
  unfold same_but_ball in S1, S2. rewrite S2, S1, Hgw.
  cbn [PongGame.set_ball PongGame.powerup_timer].
  pose proof (bounce_walls_same
                (PongGame.move_ball (PongGame.tick_boost g0 dt) dt)) as Sw.
  unfold same_but_ball in Sw. rewrite Sw.
  cbn [PongGame.set_ball PongGame.powerup_timer PongGame.move_ball].
  rewrite (tick_boost_same g0 dt).
  cbn [PongGame.set_boost_timer PongGame.powerup_timer].
  rewrite (tick_powerup_result g dt d Hfit) in Ht. injection Ht as <-.
  destruct (spawns g dt); reflexivity.
Qed.

Lemma pickup_step :
  PongGame.update_playing game_on_powerup (1 / 60) quiet_draws
  = Some game_after_pickup.
Proof.
  unfold PongGame.update_playing, PongGame.before_goals.
  rewrite free_flight_step.
  - cbn [bind].
    rewrite (collect_powerup_touching _ (PowerUp.mk 500 300 12 true)).
    + rewrite score_goals_quiet.
      * reflexivity.
      * simpl. lra.
      * simpl. lra.
    + reflexivity.
    + reflexivity.
    + apply Rleb_true. apply length_le.
      * simpl. lra.
      * simpl. lra.
  - exact default_arena_fits.
  - reflexivity.
  - simpl. lra.
  - simpl. lra.
  - simpl. lra.
  - apply no_contact_right_of; simpl; try lia; lra.
  - apply no_contact_left_of; simpl; try lia; lra.
Qed.

(** C6, counterexample: a step that consumes the power-up leaves the spawn
    timer at 10 + 1/60 seconds, not at the time since the consumption, and
    the very next step, a sixtieth of a second after the consumption, spawns
    again. *)
Lemma consumption_does_not_restart_spawn_timer :
  exists g1 g2,
    PongGame.powerup game_on_powerup = Some (PowerUp.mk 500 300 12 true)
    /\ PongGame.update_playing game_on_powerup (1 / 60) quiet_draws = Some g1
    /\ PongGame.powerup g1 = None
    /\ PongGame.powerup_timer g1 = 10 + 1 / 60
    /\ ~ PongGame.powerup_timer g1 <= 1 / 60
    /\ spawns g1 (1 / 60) = true
    /\ PongGame.update_playing g1 (1 / 60) quiet_draws = Some g2
    /\ PongGame.powerup_timer g2 = 0.
Proof.
  assert (Hsp : spawns game_after_pickup (1 / 60) = true).
  { unfold spawns, Rgeb. simpl.
    destruct (Rge_dec _ _) as [_|H]; [reflexivity|]. exfalso. lra. }
  destruct (step_spawn_timer game_after_pickup (1 / 60) quiet_draws
              default_arena_fits) as (g2 & Hg2 & Ht2).
  rewrite Hsp in Ht2.
  exists game_after_pickup, g2.
  split; [reflexivity|]. split; [exact pickup_step|].
  split; [reflexivity|]. split; [reflexivity|].
  split; [simpl; lra|]. split; [exact Hsp|].
  split; [exact Hg2 | exact Ht2].
Qed.

(** ** The contact test *)



Lemma b_rect_at (b : Ball.t) (zx zy : Z) :
  Ball.x b - IZR (Ball.r b) = IZR zx ->
  Ball.y b - IZR (Ball.r b) = IZR zy ->
  PongGame.b_rect b = Rect.mk zx zy (Ball.r b * 2) (Ball.r b * 2).
Proof.
  intros Hx Hy. unfold PongGame.b_rect. rewrite Hx, Hy, !py_int_IZR.
  reflexivity.
Qed.

Lemma paddle_rect_at (p : Paddle.t) (zx zy : Z) :
  Paddle.x p = IZR zx -> Paddle.y p = IZR zy ->
  Paddle.rect p = Rect.mk zx zy (Paddle.w p) (Paddle.h p).
Proof.
  intros Hx Hy. unfold Paddle.rect. rewrite Hx, Hy, !py_int_IZR.
  reflexivity.
Qed.


Lemma clamp_above (v lo hi : R) : lo <= hi -> hi <= v -> clamp v lo hi = hi.
Proof.
  intros H1 H2. unfold clamp. rewrite Rmin_left by lra.
  apply Rmax_right. lra.
Qed.

Lemma clamp_below (v lo hi : R) : lo <= hi -> v <= lo -> clamp v lo hi = lo.
Proof.
  intros H1 H2. unfold clamp. rewrite Rmin_right by lra.
  apply Rmax_left. lra.
Qed.

Lemma clamp_inside (v lo hi : R) : lo <= v <= hi -> clamp v lo hi = v.
Proof.
  intros [H1 H2]. unfold clamp. rewrite Rmin_right by lra.
  apply Rmax_right. lra.
Qed.


(** ** The end of the match *)





(** Outside [PLAYING] a frame runs neither [handle_input] nor
    [update_playing]. *)
Lemma frame_idle (g g1 : PongGame.t) (i : FrameInput) :
  PongGame.on_events g (frame_events i) (restart_serve i)
  = PongGame.Continues g1 ->
  PongGame.state g1 <> PLAYING ->
  PongGame.frame g i = PongGame.Continues g1.
Proof.
  intros He Hs. unfold PongGame.frame. rewrite He.
  destruct (PongGame.state g1); try reflexivity. contradiction.
Qed.




(** ** Speed within a rally *)

Lemma pow_103_ge_1 (n : nat) : 1 <= 1.03 ^ n.
Proof. apply pow_R1_Rle. lra. Qed.

Lemma bounce_speed_bounds (cfg : Config) (s : R) :
  0 <= s <= ball_speed_max cfg ->
  s <= bounce_speed cfg s <= ball_speed_max cfg.
Proof.
  intros [H0 Hm]. unfold bounce_speed. split.
  - apply Rmin_glb; lra.
  - apply Rmin_l.
Qed.

Lemma iter_bounce_speed (cfg : Config) (s : R) (n : nat) :
  0 <= s <= ball_speed_max cfg ->
  Nat.iter n (bounce_speed cfg) s = Rmin (ball_speed_max cfg) (s * 1.03 ^ n).
Proof.
  intros [H0 Hm]. induction n as [|n IH].
  - simpl. rewrite Rmult_1_r. symmetry. apply Rmin_right. exact Hm.
  - cbn [Nat.iter nat_rect]. change (nat_rect _ s _ n)
      with (Nat.iter n (bounce_speed cfg) s). rewrite IH.
    unfold bounce_speed. pose proof (pow_103_ge_1 n) as Hp.
    assert (Hsn : 0 <= s * 1.03 ^ n) by nra.
    replace (1.03 ^ S n) with (1.03 ^ n * 1.03) by (simpl; lra).
    destruct (Rle_dec (s * 1.03 ^ n) (ball_speed_max cfg)) as [Hle|Hgt].
    + rewrite (Rmin_right _ (s * 1.03 ^ n)) by exact Hle.
      f_equal. lra.
    + rewrite (Rmin_left _ (s * 1.03 ^ n)) by lra.
      rewrite Rmin_left by lra. rewrite Rmin_left by nra. reflexivity.
Qed.

Lemma iter_bounce_speed_bounds (cfg : Config) (s : R) (n : nat) :
  0 <= s <= ball_speed_max cfg ->
  s <= Nat.iter n (bounce_speed cfg) s <= ball_speed_max cfg.
Proof.
  intros Hs. rewrite (iter_bounce_speed cfg s n Hs). destruct Hs as [H0 Hm].
  pose proof (pow_103_ge_1 n) as Hp. split.
  - apply Rmin_glb; nra.
  - apply Rmin_l.
Qed.

Lemma paddle_side_speed (g : PongGame.t) (p : Paddle.t) (is_left hit : bool)
    (snap_x : R) (g' : PongGame.t) :
  paddle_side g p is_left hit snap_x g' ->
  Ball.speed (PongGame.ball g')
  = Nat.iter (Nat.b2n hit) (bounce_speed (PongGame.cfg g))
      (Ball.speed (PongGame.ball g)).
Proof.
  unfold paddle_side. destruct hit; simpl.
  - intros (_ & _ & Hb). unfold bounced_off in Hb.
    destruct Hb as (_ & _ & _ & _ & _ & _ & _ & Hs). exact Hs.
  - intros ->. reflexivity.
Qed.

(** The games a step passes through before the goal tests. *)
Lemma step_trace (g : PongGame.t) (dt : R) (d : StepDraws) :
  arena_fits (PongGame.cfg g) ->
  exists gm g1 g2,
    let gw := PongGame.bounce_walls gm in
    let box := PongGame.b_rect (PongGame.ball gw) in
    PongGame.after_motion g dt d = Some gm
    /\ PongGame.cfg gw = PongGame.cfg g
    /\ PongGame.left_score gw = PongGame.left_score g
    /\ PongGame.right_score gw = PongGame.right_score g
    /\ Ball.speed (PongGame.ball gw) = Ball.speed (PongGame.ball g)
    /\ PongGame.bounce_left gw box = Some g1
    /\ paddle_side gw (PongGame.left gw) true (PongGame.hits_left gw box)
         (Paddle.x (PongGame.left gw) + IZR (Paddle.w (PongGame.left gw))
          + IZR (Ball.r (PongGame.ball gw))) g1
    /\ PongGame.bounce_right g1 box = Some g2
    /\ paddle_side g1 (PongGame.right g1) false (PongGame.hits_right g1 box)
         (Paddle.x (PongGame.right g1) - IZR (Ball.r (PongGame.ball g1))) g2
    /\ PongGame.before_goals g dt d = Some (PongGame.collect_powerup g2).
Proof.
  intros Hfit.
  destruct (after_motion_result g dt d Hfit)
    as (g0 & Ht & Hm & Hc & Hs & Hl & Hr & Hb & Hls & Hrs & Hbt).
  set (gm := PongGame.move_ball (PongGame.tick_boost g0 dt) dt) in *.
  set (gw := PongGame.bounce_walls gm).
  destruct (bounce_left_effect gw (PongGame.b_rect (PongGame.ball gw)))
    as (g1 & H1 & S1).
  destruct (bounce_right_effect g1 (PongGame.b_rect (PongGame.ball gw)))
    as (g2 & H2 & S2).
  exists gm, g1, g2. cbn zeta. fold gw.
  pose proof (bounce_walls_same gm) as Sw. fold gw in Sw.
  unfold same_but_ball in Sw.
  pose proof (bounce_walls_keeps gm) as (_ & _ & Hsp). fold gw in Hsp.
  assert (Hgm : gm = PongGame.set_ball (PongGame.tick_boost g0 dt)
                       (PongGame.ball gm)) by reflexivity.
  pose proof (tick_boost_same g0 dt) as Htb.
  split; [exact Hm|].
  split; [rewrite Sw, Hgm, Htb; simpl; exact Hc|].
  split; [rewrite Sw, Hgm, Htb; simpl; exact Hls|].
  split; [rewrite Sw, Hgm, Htb; simpl; exact Hrs|].
  split.
  { rewrite Hsp. subst gm. simpl. rewrite Htb. simpl. rewrite Hb.
    reflexivity. }
  split; [exact H1|]. split; [exact S1|]. split; [exact H2|].
  split; [exact S2|].
  unfold PongGame.before_goals, PongGame.before_pickup.
  rewrite Hm. cbn [bind]. fold gw.
  unfold PongGame.bounce_paddles. rewrite H1. cbn [bind]. rewrite H2.
  reflexivity.
Qed.

Lemma handle_input_keeps (g : PongGame.t) (dt : R) (keys : Key -> bool) :
  PongGame.cfg (PongGame.handle_input g dt keys) = PongGame.cfg g
  /\ PongGame.ball (PongGame.handle_input g dt keys) = PongGame.ball g.
Proof.
  unfold PongGame.handle_input.
  destruct (keys K_w), (keys K_s), (keys K_RSHIFT || keys K_LSHIFT),
    (keys K_UP), (keys K_DOWN); split; reflexivity.
Qed.

Lemma check_win_keeps (g : PongGame.t) :
  PongGame.cfg (PongGame.check_win g) = PongGame.cfg g
  /\ PongGame.ball (PongGame.check_win g) = PongGame.ball g
  /\ PongGame.left_score (PongGame.check_win g) = PongGame.left_score g
  /\ PongGame.right_score (PongGame.check_win g) = PongGame.right_score g.
Proof. rewrite (check_win_same g). simpl. auto. Qed.

(** A step that changes neither score scored no goal: its ball is the one
    the paddle phase left, bounced once per contact. *)
Lemma step_speed (g : PongGame.t) (dt : R) (d : StepDraws) (g' : PongGame.t) :
  arena_fits (PongGame.cfg g) ->
  PongGame.update_playing g dt d = Some g' ->
  PongGame.left_score g' = PongGame.left_score g ->
  PongGame.right_score g' = PongGame.right_score g ->
  PongGame.cfg g' = PongGame.cfg g
  /\ Ball.speed (PongGame.ball g')
     = Nat.iter (paddle_contacts g dt d) (bounce_speed (PongGame.cfg g))
         (Ball.speed (PongGame.ball g)).
Proof.
  intros Hfit Hup Hls Hrs.
  destruct (step_trace g dt d Hfit)
    as (gm & g1 & g2 & Ham & Fc & Fls & Frs & Fsp & H1 & S1 & H2 & S2 & Hbg).
  cbn zeta in *.
  set (gw := PongGame.bounce_walls gm) in *.
  set (box := PongGame.b_rect (PongGame.ball gw)) in *.
  pose proof (paddle_side_speed _ _ _ _ _ _ S1) as Sp1.
  pose proof (paddle_side_speed _ _ _ _ _ _ S2) as Sp2.
  apply paddle_side_same in S1, S2.
  destruct S1 as (S1 & _). destruct S2 as (S2 & _).
  unfold same_but_ball in S1, S2.
  assert (Fc1 : PongGame.cfg g1 = PongGame.cfg g)
    by (rewrite S1; simpl; exact Fc).
  assert (G2 : PongGame.cfg g2 = PongGame.cfg g
               /\ PongGame.left_score g2 = PongGame.left_score g
               /\ PongGame.right_score g2 = PongGame.right_score g).
  { rewrite S2, S1. simpl. auto. }
  destruct G2 as (Fc2 & Fls2 & Frs2).
  set (gc := PongGame.collect_powerup g2) in *.
  assert (Gc : PongGame.cfg gc = PongGame.cfg g
               /\ PongGame.left_score gc = PongGame.left_score g
               /\ PongGame.right_score gc = PongGame.right_score g
               /\ PongGame.ball gc = PongGame.ball g2).
  { subst gc. rewrite (collect_powerup_ball g2). simpl. auto. }
  destruct Gc as (Fcc & Flsc & Frsc & Fbc).
  unfold PongGame.update_playing in Hup. rewrite Hbg in Hup.
  cbn [bind] in Hup. unfold PongGame.score_goals in Hup.
  assert (Hquiet : g' = PongGame.check_win gc).
  { destruct (Rlt_dec (Ball.x (PongGame.ball gc)
                       + IZR (Ball.r (PongGame.ball gc))) 0) as [Hl|Hl].
    - exfalso. rewrite (goal_left_edge_fires gc d Hl) in Hup.
      cbn [bind] in Hup.
      match type of Hup with
      | context [PongGame.goal_right_edge ?g3 d] =>
          destruct (goal_right_edge_keeps g3 d)
            as (g4 & H4 & _ & _ & _ & _ & Frs4 & _);
          rewrite H4 in Hup
      end.
      cbn [bind] in Hup. injection Hup as <-.
      destruct (check_win_keeps g4) as (_ & _ & _ & Hw).
      rewrite Hw, Frs4 in Hrs. simpl in Hrs. lia.
    - rewrite (goal_left_edge_idle gc d Hl) in Hup. cbn [bind] in Hup.
      destruct (Rgt_dec (Ball.x (PongGame.ball gc)
                         - IZR (Ball.r (PongGame.ball gc)))
                  (IZR (width (PongGame.cfg gc)))) as [Hr|Hr].
      + exfalso. rewrite (goal_right_edge_fires gc d Hr) in Hup.
        cbn [bind] in Hup. injection Hup as <-.
        match type of Hls with
        | PongGame.left_score (PongGame.check_win ?g3) = _ =>
            destruct (check_win_keeps g3) as (_ & _ & Hw & _);
            rewrite Hw in Hls
        end.
        simpl in Hls. lia.
      + rewrite (goal_right_edge_idle gc d Hr) in Hup. cbn [bind] in Hup.
        injection Hup as <-. reflexivity. }
  subst g'. destruct (check_win_keeps gc) as (Wc & Wb & _ & _).
  rewrite Wc, Wb, Fbc. split; [exact Fcc|].
  unfold paddle_contacts. rewrite Ham. fold gw. fold box. rewrite H1.
  rewrite Nat.add_comm, Nat.iter_add.
  rewrite Sp2, Sp1, Fc1, Fc, Fsp. reflexivity.
Qed.

(** C4: along a rally the ball's speed never decreases and never exceeds
    [ball_speed_max]; after [n] paddle contacts it is
    [min(ball_speed_max, s * 1.03 ^ n)] where [s] is the speed at the start
    of the rally, in particular [min(ball_speed_max, ball_speed * 1.03 ^ n)]
    when the rally starts at the base speed. *)
Theorem rally_speed (g g' : PongGame.t) (n : nat) :
  Rally g n g' ->
  arena_fits (PongGame.cfg g) ->
  0 <= Ball.speed (PongGame.ball g) <= ball_speed_max (PongGame.cfg g) ->
  Ball.speed (PongGame.ball g) <= Ball.speed (PongGame.ball g')
    <= ball_speed_max (PongGame.cfg g)
  /\ Ball.speed (PongGame.ball g')
     = Rmin (ball_speed_max (PongGame.cfg g))
         (Ball.speed (PongGame.ball g) * 1.03 ^ n)
  /\ (Ball.speed (PongGame.ball g) = ball_speed (PongGame.cfg g) ->
      Ball.speed (PongGame.ball g')
      = Rmin (ball_speed_max (PongGame.cfg g))
          (ball_speed (PongGame.cfg g) * 1.03 ^ n)).
Proof.
  intros Hrally Hfit Hs.
  assert (Hiter : Ball.speed (PongGame.ball g')
                  = Nat.iter n (bounce_speed (PongGame.cfg g))
                      (Ball.speed (PongGame.ball g))).
  { clear Hs. induction Hrally as [g | g dt keys n g' _ IH
                                   | g dt d g1 n g' Hup Hls Hrs _ IH].
    - reflexivity.
    - destruct (handle_input_keeps g dt keys) as [Hc Hb].
      rewrite Hc, Hb in IH. apply IH. exact Hfit.
    - destruct (step_speed g dt d g1 Hfit Hup Hls Hrs) as [Hc Hsp].
      rewrite Hc, Hsp in IH. rewrite Nat.add_comm, Nat.iter_add.
      apply IH. exact Hfit. }
  rewrite Hiter. split; [apply iter_bounce_speed_bounds; exact Hs|].
  split; [apply iter_bounce_speed; exact Hs|].
  intros Hbase. rewrite <- Hbase. apply iter_bounce_speed; exact Hs.
Qed.

(** A step in free flight up to a contact with the left paddle, after which
    the ball is inside the arena: one bounce, no goal. *)
Lemma left_contact_step (g : PongGame.t) (dt : R) (d : StepDraws) :
  arena_fits (PongGame.cfg g) ->
  spawns g dt = false ->
  ~ PongGame.boost_timer g > 0 ->
  let b' := coasted (PongGame.ball g) dt in
  let snap_x :=
    Paddle.x (PongGame.left g) + IZR (Paddle.w (PongGame.left g))
    + IZR (Ball.r b') in
  ~ Ball.y b' - IZR (Ball.r b') <= 0 ->
  ~ Ball.y b' + IZR (Ball.r b') >= IZR (height (PongGame.cfg g)) ->
  Rect.colliderect (PongGame.b_rect b') (Paddle.rect (PongGame.left g))
  = true ->
  Ball.vx b' < 0 ->
  Rect.colliderect (PongGame.b_rect b') (Paddle.rect (PongGame.right g))
  = false ->
  ~ snap_x + IZR (Ball.r b') < 0 ->
  ~ snap_x - IZR (Ball.r b') > IZR (width (PongGame.cfg g)) ->
  paddle_contacts g dt d = 1%nat
  /\ exists g',
       PongGame.update_playing g dt d = Some g'
       /\ PongGame.left_score g' = PongGame.left_score g
       /\ PongGame.right_score g' = PongGame.right_score g
       /\ Ball.x (PongGame.ball g') = snap_x
       /\ 0 < Ball.vx (PongGame.ball g').
Proof.
  intros Hfit Hsp Hboost b' snap_x Htop Hbot Hl Hvx Hr Hin1 Hin2.
  set (gw := PongGame.set_ball
               (PongGame.set_powerup_timer g (PongGame.powerup_timer g + dt))
               b').
  assert (Ham : PongGame.after_motion g dt d = Some gw).
  { unfold PongGame.after_motion.
    rewrite (tick_powerup_result g dt d Hfit), Hsp. cbn [bind].
    rewrite tick_boost_off by exact Hboost.
    unfold PongGame.move_ball.
    cbn [PongGame.set_powerup_timer PongGame.boost_timer PongGame.ball
         PongGame.set_ball PongGame.cfg].
    destruct (Rgt_dec (PongGame.boost_timer g) 0); [contradiction|].
    reflexivity. }
  assert (Hw : PongGame.bounce_walls gw = gw)
    by (apply bounce_walls_clear; assumption).
  set (box := PongGame.b_rect b').
  assert (Hhl : PongGame.hits_left gw box = true).
  { unfold PongGame.hits_left. apply andb_true_iff. split; [exact Hl|].
    apply Rltb_true. exact Hvx. }
  destruct (bounce_left_effect gw box) as (g1 & H1 & S1).
  rewrite Hhl in S1. unfold paddle_side in S1.
  destruct S1 as (Sg1 & Sx & Sb).
  assert (Hhr : PongGame.hits_right g1 box = false).
  { assert (Hrg : PongGame.right g1 = PongGame.right g)
      by (rewrite Sg1; reflexivity).
    unfold PongGame.hits_right. rewrite Hrg. unfold box. rewrite Hr.
    reflexivity. }
  assert (H2 : PongGame.bounce_right g1 box = Some g1).
  { unfold PongGame.bounce_right. rewrite Hhr. reflexivity. }
  split.
  { unfold paddle_contacts. rewrite Ham, Hw.
    change (PongGame.b_rect (PongGame.ball gw)) with box.
    rewrite H1, Hhl, Hhr. reflexivity. }
  assert (Hbg : PongGame.before_goals g dt d
                = Some (PongGame.collect_powerup g1)).
  { unfold PongGame.before_goals, PongGame.before_pickup.
    rewrite Ham. cbn [bind]. rewrite Hw. unfold PongGame.bounce_paddles.
    change (PongGame.b_rect (PongGame.ball gw)) with box.
    rewrite H1. cbn [bind]. rewrite H2. reflexivity. }
  set (gc := PongGame.collect_powerup g1) in *.
  assert (Gc : PongGame.cfg gc = PongGame.cfg g
               /\ PongGame.left_score gc = PongGame.left_score g
               /\ PongGame.right_score gc = PongGame.right_score g
               /\ PongGame.ball gc = PongGame.ball g1).
  { subst gc. rewrite (collect_powerup_ball g1). simpl.
    rewrite Sg1. simpl. auto. }
  destruct Gc as (Fc & Fls & Frs & Fb).
  destruct Sb as (_ & Sr & Sv & _).
  change (Ball.r (PongGame.ball gw)) with (Ball.r b') in Sr, Sx.
  change (PongGame.left gw) with (PongGame.left g) in Sx.
  exists (PongGame.check_win gc).
  destruct (check_win_keeps gc) as (_ & Wb & Wl & Wr).
  rewrite Wb, Wl, Wr, Fb. repeat split; auto.
  unfold PongGame.update_playing. rewrite Hbg. cbn [bind].
  apply score_goals_quiet; rewrite Fb, ?Fc, Sx, Sr; assumption.
Qed.

Lemma contact_step :
  paddle_contacts game_before_contact (1 / 60) quiet_draws = 1%nat
  /\ exists g',
       PongGame.update_playing game_before_contact (1 / 60) quiet_draws
       = Some g'
       /\ PongGame.left_score g' = 0%Z
       /\ PongGame.right_score g' = 0%Z
       /\ Ball.x (PongGame.ball g') = 28 + IZR 14 + IZR 10
       /\ 0 < Ball.vx (PongGame.ball g').
Proof.
  apply (left_contact_step game_before_contact (1 / 60) quiet_draws).
  - exact default_arena_fits.
  - unfold spawns, Rgeb. simpl.
    destruct (Rge_dec _ _) as [H|_]; [exfalso; lra | reflexivity].
  - simpl. lra.
  - simpl. lra.
  - simpl. lra.
  - rewrite (b_rect_at _ 40 260) by (simpl; lra).
    rewrite (paddle_rect_at _ 28 215) by reflexivity. reflexivity.
  - simpl. lra.
  - apply no_contact_left_of; simpl; try lia; lra.
  - simpl. lra.
  - simpl. lra.
Qed.

Lemma rally_speed_witness :
  exists g',
    Rally game_before_contact 1 g'
    /\ Ball.speed (PongGame.ball g') = Rmin 860.0 (360 * 1.03 ^ 1).
Proof.
  destruct contact_step as (Hn & g' & Hup & Hls & Hrs & _).
  assert (Hr : Rally game_before_contact 1 g').
  { rewrite <- Hn. rewrite <- (Nat.add_0_r (paddle_contacts _ _ _)).
    apply (rally_step _ _ _ g').
    - exact Hup.
    - rewrite Hls. reflexivity.
    - rewrite Hrs. reflexivity.
    - apply rally_start. }
  exists g'. split; [exact Hr|].
  destruct (rally_speed game_before_contact g' 1 Hr) as (_ & Hs & _).
  - exact default_arena_fits.
  - simpl. lra.
  - exact Hs.
Defined.

(** ** The game as constructed *)

(** [__init__] returns, and the game it builds meets the assumptions made
    above about the arena, the paddles, the ball and its speed. *)
Lemma init_well_formed (d : ServeDraw) :
  exists g,
    PongGame.init d = Some g
    /\ PongGame.cfg g = default_config
    /\ PongGame.state g = MENU
    /\ arena_fits (PongGame.cfg g)
    /\ paddle_on_field (PongGame.cfg g) (PongGame.left g)
    /\ paddle_on_field (PongGame.cfg g) (PongGame.right g)
    /\ paddle_in_arena (PongGame.cfg g) (PongGame.left g)
    /\ paddle_in_arena (PongGame.cfg g) (PongGame.right g)
    /\ (0 < Ball.r (PongGame.ball g))%Z
    /\ Ball.speed (PongGame.ball g) = ball_speed (PongGame.cfg g)
    /\ 0 <= ball_speed (PongGame.cfg g) <= ball_speed_max (PongGame.cfg g)
    /\ (powerup_radius (PongGame.cfg g) <= 120)%Z.
Proof.
  unfold PongGame.init. rewrite reset_round_served. cbn [bind].
  eexists; split; [reflexivity|].
  cbn [PongGame.cfg PongGame.state PongGame.left PongGame.right
       PongGame.ball].
  split; [reflexivity|]. split; [reflexivity|].
  split; [exact default_arena_fits|].
  unfold paddle_on_field, paddle_in_arena. simpl.
  repeat split; try lia; try lra.
Qed.

(** ** The circle test *)

(** Clamping a coordinate into an interval gives the point of the interval
    nearest to it. *)
Lemma clamp_nearest (v lo hi p : R) :
  lo <= p <= hi ->
  (v - clamp v lo hi) * (v - clamp v lo hi) <= (v - p) * (v - p).
Proof.
  intros [Hlo Hhi].
  destruct (Rle_dec v lo) as [H1|H1].
  - rewrite clamp_below by lra. nra.
  - destruct (Rle_dec hi v) as [H2|H2].
    + rewrite clamp_above by lra. nra.
    + rewrite clamp_inside by lra.
      replace (v - v) with 0 by lra. rewrite Rmult_0_l.
      change (0 <= Rsqr (v - p)). apply Rle_0_sqr.
Qed.

(** X1: for a rectangle of non-negative width and height,
    [circle_rect_collision] answers true exactly when some point of the
    closed rectangle lies within distance [cr] of the centre [(cx, cy)]
    (squared distance at most [cr * cr]). *)
Theorem circle_rect_collision_meets (cx cy cr : R) (rect : Rect.t) :
  (0 <= Rect.w rect)%Z -> (0 <= Rect.h rect)%Z ->
  (circle_rect_collision cx cy cr rect = true <->
   exists px py,
     IZR (Rect.left rect) <= px <= IZR (Rect.right rect)
     /\ IZR (Rect.top rect) <= py <= IZR (Rect.bottom rect)
     /\ (cx - px) * (cx - px) + (cy - py) * (cy - py) <= cr * cr).
Proof.
  intros Hw Hh.
  assert (Hx : IZR (Rect.left rect) <= IZR (Rect.right rect))
    by (apply IZR_le; unfold Rect.left, Rect.right; lia).
  assert (Hy : IZR (Rect.top rect) <= IZR (Rect.bottom rect))
    by (apply IZR_le; unfold Rect.top, Rect.bottom; lia).
  unfold circle_rect_collision. rewrite Rleb_true. split.
  - intros H.
    exists (clamp cx (IZR (Rect.left rect)) (IZR (Rect.right rect))),
           (clamp cy (IZR (Rect.top rect)) (IZR (Rect.bottom rect))).
    split; [apply clamp_in_range; exact Hx|].
    split; [apply clamp_in_range; exact Hy | exact H].
  - intros (px & py & Hpx & Hpy & Hd).
    pose proof (clamp_nearest cx _ _ px Hpx).
    pose proof (clamp_nearest cy _ _ py Hpy). lra.
Qed.

Lemma circle_rect_collision_meets_witness :
  circle_rect_collision 50 207 10 (Rect.mk 28 215 14 110) = true <->
  exists px py,
    IZR 28 <= px <= IZR (28 + 14) /\ IZR 215 <= py <= IZR (215 + 110)
    /\ (50 - px) * (50 - px) + (207 - py) * (207 - py) <= 10 * 10.
Proof.
  apply (circle_rect_collision_meets 50 207 10 (Rect.mk 28 215 14 110));
    simpl; lia.
Defined.

(** ** The walls *)

(** X2: a wall bounce is a clamp and a mirror.  For a ball that fits
    between the walls ([0 <= r], [2r <= height]), after [bounce_walls] the
    ball lies between them ([r <= y <= height - r]); its x, horizontal
    velocity, radius and speed are untouched and its vertical velocity keeps
    its magnitude.  A ball strictly between the walls is left alone; one
    at or past a wall is put on that wall with its vertical velocity
    negated. *)
Theorem wall_bounce_reflects (g : PongGame.t) :
  let b := PongGame.ball g in
  let b' := PongGame.ball (PongGame.bounce_walls g) in
  let top := IZR (Ball.r b) in
  let bottom := IZR (height (PongGame.cfg g)) - IZR (Ball.r b) in
  (0 <= Ball.r b)%Z -> (Ball.r b * 2 <= height (PongGame.cfg g))%Z ->
  same_but_ball g (PongGame.bounce_walls g)
  /\ top <= Ball.y b' <= bottom
  /\ Ball.x b' = Ball.x b /\ Ball.vx b' = Ball.vx b
  /\ Ball.r b' = Ball.r b /\ Ball.speed b' = Ball.speed b
  /\ Rabs (Ball.vy b') = Rabs (Ball.vy b)
  /\ (top < Ball.y b < bottom -> b' = b)
  /\ (Ball.y b <= top -> top < bottom ->
      Ball.y b' = top /\ Ball.vy b' = - Ball.vy b)
  /\ (top < Ball.y b -> bottom <= Ball.y b ->
      Ball.y b' = bottom /\ Ball.vy b' = - Ball.vy b).
Proof.
  intros b b' top bottom Hr Hfit.
  assert (Hr' : 0 <= IZR (Ball.r b)) by (apply IZR_le; exact Hr).
  assert (Hfit' : IZR (Ball.r b) * 2 <= IZR (height (PongGame.cfg g))).
  { rewrite <- mult_IZR. apply IZR_le. exact Hfit. }
  split; [apply bounce_walls_same|].
  subst b' top bottom. unfold PongGame.bounce_walls. fold b.
  destruct (Rle_dec (Ball.y b - IZR (Ball.r b)) 0) as [Ht|Ht];
    cbn [PongGame.set_ball PongGame.ball PongGame.cfg Ball.set_y Ball.set_vy
         Ball.x Ball.y Ball.r Ball.vx Ball.vy Ball.speed];
    match goal with
    | |- context [Rge_dec ?a ?c] => destruct (Rge_dec a c) as [Hb|Hb]
    end;
    cbn [PongGame.set_ball PongGame.ball PongGame.cfg Ball.set_y Ball.set_vy
         Ball.x Ball.y Ball.r Ball.vx Ball.vy Ball.speed];
    rewrite ?minus_IZR, ?Rabs_Ropp;
    repeat split; intros; subst b; try reflexivity; try lra;
    exfalso; lra.
Qed.

Lemma wall_bounce_reflects_witness :
  Ball.y (PongGame.ball (PongGame.bounce_walls game_past_left_edge)) = 270.
Proof.
  destruct (wall_bounce_reflects game_past_left_edge)
    as (_ & _ & _ & _ & _ & _ & _ & Hin & _).
  - simpl; lia.
  - simpl; lia.
  - rewrite Hin; [reflexivity|]. simpl. lra.
Defined.

(** ** The AI and the keys *)

Lemma clamp_fixed (v lo hi : R) : lo <= v <= hi -> clamp v lo hi = v.
Proof. apply clamp_inside. Qed.

(** Clamping a moved value into a range that held the old one does not
    move it further than the move did, nor to the other side. *)
Lemma clamp_step (y delta lo hi : R) :
  lo <= y <= hi ->
  (0 <= delta -> y <= clamp (y + delta) lo hi <= y + delta)
  /\ (delta <= 0 -> y + delta <= clamp (y + delta) lo hi <= y).
Proof.
  intros [Hlo Hhi]. split; intros Hd.
  - destruct (Rle_dec (y + delta) hi).
    + rewrite clamp_inside by lra. lra.
    + rewrite clamp_above by lra. lra.
  - destruct (Rle_dec lo (y + delta)).
    + rewrite clamp_inside by lra. lra.
    + rewrite clamp_below by lra. lra.
Qed.

(** X3: the AI paddle never moves away from the ball.  With the paddle in
    the arena, [dt >= 0] and non-negative speed and speed factor, let
    [gap = (ball.y - center_y) * (1 - ai_reaction)].  If [gap > 2] the
    paddle moves down by at most [speed * ai_max_speed_factor * dt]; if
    [gap < -2] it moves up by at most that much; inside the dead zone
    [-2 <= gap <= 2] it keeps its place.  The other fields of the paddle
    never change. *)
Theorem ai_follows_ball (cfg : Config) (ai : Paddle.t) (ball : Ball.t)
    (dt : R) :
  let ai' := ai_move cfg ai ball dt in
  let gap := (Ball.y ball - Paddle.center_y ai) * (1 - ai_reaction cfg) in
  let reach := Paddle.speed ai * ai_max_speed_factor cfg * dt in
  paddle_in_arena cfg ai -> 0 <= dt -> 0 <= Paddle.speed ai ->
  0 <= ai_max_speed_factor cfg ->
  ai' = Paddle.set_y ai (Paddle.y ai')
  /\ (gap > 2 -> Paddle.y ai <= Paddle.y ai' <= Paddle.y ai + reach)
  /\ (gap < -2 -> Paddle.y ai - reach <= Paddle.y ai' <= Paddle.y ai)
  /\ (-2 <= gap <= 2 -> Paddle.y ai' = Paddle.y ai).
Proof.
  intros ai' gap reach Hin Hdt Hs Hf.
  assert (Hreach : 0 <= reach).
  { subst reach. apply Rmult_le_pos; [apply Rmult_le_pos|]; assumption. }
  unfold paddle_in_arena in Hin. rewrite <- minus_IZR in Hin.
  subst ai'. unfold ai_move.
  replace (Paddle.center_y ai
           + (Ball.y ball - Paddle.center_y ai) * (1.0 - ai_reaction cfg))
    with (Paddle.center_y ai + gap) by (subst gap; lra).
  destruct (Rgt_dec (Paddle.center_y ai + gap) (Paddle.center_y ai + 2))
    as [Hup|Hup].
  - cbn [Paddle.set_y Paddle.x Paddle.y Paddle.w Paddle.h Paddle.speed].
    fold reach.
    destruct (clamp_step (Paddle.y ai) reach 0
                (IZR (height cfg - Paddle.h ai)) Hin) as [Hc _].
    specialize (Hc Hreach).
    split; [reflexivity|]. repeat split; intros; lra.
  - destruct (Rlt_dec (Paddle.center_y ai + gap) (Paddle.center_y ai - 2))
      as [Hdn|Hdn].
    + cbn [Paddle.set_y Paddle.x Paddle.y Paddle.w Paddle.h Paddle.speed].
      fold reach.
      destruct (clamp_step (Paddle.y ai) (- reach) 0
                  (IZR (height cfg - Paddle.h ai)) Hin) as [_ Hc].
      assert (Hneg : - reach <= 0) by lra. specialize (Hc Hneg).
      replace (Paddle.y ai - reach) with (Paddle.y ai + - reach) by lra.
      split; [reflexivity|]. repeat split; intros; lra.
    + cbn [Paddle.set_y Paddle.x Paddle.y Paddle.w Paddle.h Paddle.speed].
      rewrite clamp_inside by exact Hin.
      split; [destruct ai; reflexivity|]. repeat split; intros; lra.
Qed.

Lemma ai_follows_ball_witness :
  Paddle.y (ai_move default_config (Paddle.mk 858 215 14 110 420)
              (Ball.mk 450 270 10 1 0 360) (1 / 60)) = 215.
Proof.
  destruct (ai_follows_ball default_config (Paddle.mk 858 215 14 110 420)
              (Ball.mk 450 270 10 1 0 360) (1 / 60))
    as (_ & _ & _ & Hstill).
  - unfold paddle_in_arena. simpl. lra.
  - lra.
  - simpl. lra.
  - simpl. lra.
  - apply Hstill. unfold Paddle.center_y. simpl. lra.
Defined.

Lemma ai_move_only_y (cfg : Config) (ai : Paddle.t) (ball : Ball.t)
    (dt : R) :
  ai_move cfg ai ball dt
  = Paddle.set_y ai (Paddle.y (ai_move cfg ai ball dt)).
Proof.
  unfold ai_move. destruct (Rgt_dec _ _); [|destruct (Rlt_dec _ _)];
    reflexivity.
Qed.

Lemma clamp_step_abs (y delta bound lo hi : R) :
  lo <= y <= hi -> Rabs delta <= bound ->
  Rabs (clamp (y + delta) lo hi - y) <= bound.
Proof.
  intros Hin Hd. destruct (clamp_step y delta lo hi Hin) as [Hp Hm].
  unfold Rabs in Hd. apply Rabs_le.
  destruct (Rcase_abs delta) as [Hneg|Hpos].
  - assert (Hle : delta <= 0) by lra. specialize (Hm Hle). lra.
  - assert (Hge : 0 <= delta) by lra. specialize (Hp Hge). lra.
Qed.

(** The y a paddle gets from an up key, a down key and the clamp. *)
Lemma keyed_y_near (y step hi : R) (up down : bool) :
  0 <= y <= hi -> 0 <= step ->
  let moved := (if down
                then (if up then y - step else y) + step
                else (if up then y - step else y)) in
  Rabs (clamp moved 0 hi - y) <= step
  /\ (up = down -> clamp moved 0 hi = y).
Proof.
  intros Hin Hstep moved. subst moved.
  destruct up, down.
  - replace (y - step + step) with (y + 0) by lra.
    split; [apply clamp_step_abs; [exact Hin|rewrite Rabs_R0; lra]|].
    intros _. rewrite Rplus_0_r. apply clamp_inside. exact Hin.
  - replace (y - step) with (y + - step) by lra.
    split; [apply clamp_step_abs;
            [exact Hin|rewrite Rabs_Ropp, Rabs_pos_eq; lra]|].
    discriminate.
  - split; [apply clamp_step_abs; [exact Hin|rewrite Rabs_pos_eq; lra]|].
    discriminate.
  - replace y with (y + 0) at 1 by lra.
    split; [apply clamp_step_abs; [exact Hin|rewrite Rabs_R0; lra]|].
    intros _. apply clamp_inside. exact Hin.
Qed.

(** X4: [handle_input] writes nothing but the two paddles' y.  With both
    paddles in the arena, [dt >= 0] and non-negative speeds, the left paddle
    ends within [speed * dt] of where it was, and so does the right paddle
    when a shift key is held; W and S held together, or neither, leave the
    left paddle where it was. *)
Theorem input_moves_paddles_only (self : PongGame.t) (dt : R)
    (keys : Key -> bool) :
  let cfg := PongGame.cfg self in
  let self' := PongGame.handle_input self dt keys in
  paddle_in_arena cfg (PongGame.left self) ->
  paddle_in_arena cfg (PongGame.right self) ->
  0 <= dt -> 0 <= Paddle.speed (PongGame.left self) ->
  0 <= Paddle.speed (PongGame.right self) ->
  self' = PongGame.set_right
            (PongGame.set_left self
               (Paddle.set_y (PongGame.left self)
                  (Paddle.y (PongGame.left self'))))
            (Paddle.set_y (PongGame.right self)
               (Paddle.y (PongGame.right self')))
  /\ Rabs (Paddle.y (PongGame.left self') - Paddle.y (PongGame.left self))
     <= Paddle.speed (PongGame.left self) * dt
  /\ (keys K_w = keys K_s ->
      Paddle.y (PongGame.left self') = Paddle.y (PongGame.left self))
  /\ (keys K_RSHIFT || keys K_LSHIFT = true ->
      Rabs (Paddle.y (PongGame.right self') - Paddle.y (PongGame.right self))
      <= Paddle.speed (PongGame.right self) * dt).
Proof.
  intros cfg self' Hl Hr Hdt Hsl Hsr.
  unfold paddle_in_arena in Hl, Hr. rewrite <- minus_IZR in Hl, Hr.
  assert (Hml : 0 <= Paddle.speed (PongGame.left self) * dt)
    by (apply Rmult_le_pos; assumption).
  assert (Hmr : 0 <= Paddle.speed (PongGame.right self) * dt)
    by (apply Rmult_le_pos; assumption).
  pose proof (keyed_y_near _ _ _ (keys K_w) (keys K_s) Hl Hml) as [Lb Le].
  pose proof (keyed_y_near _ _ _ (keys K_UP) (keys K_DOWN) Hr Hmr)
    as [Rb _].
  subst self'. unfold PongGame.handle_input.
  split.
  { destruct (keys K_w), (keys K_s), (keys K_RSHIFT || keys K_LSHIFT),
      (keys K_UP), (keys K_DOWN);
      cbn [PongGame.set_left PongGame.set_right PongGame.left
           PongGame.right PongGame.cfg PongGame.ball];
      try rewrite ai_move_only_y at 1; destruct self; reflexivity. }
  split.
  { destruct (keys K_w), (keys K_s), (keys K_RSHIFT || keys K_LSHIFT),
      (keys K_UP), (keys K_DOWN); exact Lb. }
  split.
  { intros Hk. specialize (Le Hk).
    destruct (keys K_w), (keys K_s), (keys K_RSHIFT || keys K_LSHIFT),
      (keys K_UP), (keys K_DOWN); exact Le. }
  intros Hshift. rewrite Hshift.
  destruct (keys K_w), (keys K_s), (keys K_UP), (keys K_DOWN); exact Rb.
Qed.

Lemma input_moves_paddles_only_witness :
  Paddle.y (PongGame.left
              (PongGame.handle_input game_on_powerup (1 / 60) nothing_held))
  = 215.
Proof.
  destruct (input_moves_paddles_only game_on_powerup (1 / 60) nothing_held)
    as (_ & _ & Hstill & _).
  - unfold paddle_in_arena. simpl. lra.
  - unfold paddle_in_arena. simpl. lra.
  - lra.
  - simpl. lra.
  - simpl. lra.
  - rewrite Hstill; reflexivity.
Defined.

(** ** The game as the goal tests find it *)

Lemma tick_boost_bounds (g : PongGame.t) (dt : R) :
  0 <= dt -> 0 <= PongGame.boost_timer g ->
  0 <= PongGame.boost_timer (PongGame.tick_boost g dt)
    <= PongGame.boost_timer g.
Proof.
  intros Hdt Hb. unfold PongGame.tick_boost.
  destruct (Rgt_dec (PongGame.boost_timer g) 0); [|lra].
  cbn [PongGame.set_boost_timer PongGame.boost_timer].
  destruct (Rle_dec (PongGame.boost_timer g - dt) 0);
    cbn [PongGame.set_boost_timer PongGame.boost_timer]; lra.
Qed.

Lemma bounce_walls_between (g : PongGame.t) :
  let b := PongGame.ball g in
  let b' := PongGame.ball (PongGame.bounce_walls g) in
  (unit_direction b -> unit_direction b')
  /\ ((0 <= Ball.r b)%Z -> (Ball.r b * 2 <= height (PongGame.cfg g))%Z ->
      ball_between_walls (PongGame.cfg g) b').
Proof.
  intros b b'. subst b b'. unfold unit_direction, ball_between_walls.
  unfold PongGame.bounce_walls.
  destruct (Rle_dec (Ball.y (PongGame.ball g)
                     - IZR (Ball.r (PongGame.ball g))) 0) as [Ht|Ht];
    cbn [PongGame.set_ball PongGame.ball PongGame.cfg Ball.set_y Ball.set_vy
         Ball.x Ball.y Ball.r Ball.vx Ball.vy Ball.speed];
    match goal with
    | |- context [Rge_dec ?a ?c] => destruct (Rge_dec a c) as [Hb|Hb]
    end;
    cbn [PongGame.set_ball PongGame.ball PongGame.cfg Ball.set_y Ball.set_vy
         Ball.x Ball.y Ball.r Ball.vx Ball.vy Ball.speed];
    rewrite ?minus_IZR;
    (split; [intros Hu; lra|]);
    intros Hr Hfit; apply IZR_le in Hr, Hfit; rewrite mult_IZR in Hfit;
    lra.
Qed.

Lemma paddle_side_unit (g : PongGame.t) (p : Paddle.t) (is_left hit : bool)
    (snap_x : R) (g' : PongGame.t) :
  paddle_side g p is_left hit snap_x g' ->
  unit_direction (PongGame.ball g) -> unit_direction (PongGame.ball g').
Proof.
  unfold paddle_side. destruct hit.
  - intros (_ & _ & Hb) _. unfold bounced_off in Hb.
    destruct Hb as (_ & _ & _ & _ & _ & _ & Hu & _). exact Hu.
  - intros ->. auto.
Qed.

(** The pickup either changes nothing or removes the power-up and starts
    the boost. *)
Lemma collect_powerup_cases (g : PongGame.t) :
  PongGame.collect_powerup g = g
  \/ (PongGame.powerup g <> None
      /\ PongGame.collect_powerup g
         = PongGame.set_boost_timer (PongGame.set_powerup g None)
             (boost_duration_sec (PongGame.cfg g))).
Proof.
  unfold PongGame.collect_powerup.
  destruct (PongGame.powerup g) as [p|]; [|left; reflexivity].
  destruct (PowerUp.active p); [|left; reflexivity].
  destruct (PongGame.touches (PongGame.ball g) p); [|left; reflexivity].
  right. split; [discriminate | reflexivity].
Qed.

(** What a step has done by the time it reaches the goal tests. *)
Lemma before_goals_facts (g : PongGame.t) (dt : R) (d : StepDraws) :
  arena_fits (PongGame.cfg g) ->
  exists gc,
    PongGame.before_goals g dt d = Some gc
    /\ (PongGame.cfg gc = PongGame.cfg g
        /\ PongGame.state gc = PongGame.state g
        /\ PongGame.left gc = PongGame.left g
        /\ PongGame.right gc = PongGame.right g
        /\ PongGame.left_score gc = PongGame.left_score g
        /\ PongGame.right_score gc = PongGame.right_score g
        /\ Ball.r (PongGame.ball gc) = Ball.r (PongGame.ball g))
    /\ (unit_direction (PongGame.ball g) ->
        unit_direction (PongGame.ball gc))
    /\ ((0 <= Ball.r (PongGame.ball g))%Z ->
        (Ball.r (PongGame.ball g) * 2 <= height (PongGame.cfg g))%Z ->
        ball_between_walls (PongGame.cfg g) (PongGame.ball gc))
    /\ (0 <= Ball.speed (PongGame.ball g) <= ball_speed_max (PongGame.cfg g)
        -> Ball.speed (PongGame.ball g) <= Ball.speed (PongGame.ball gc)
           <= ball_speed_max (PongGame.cfg g))
    /\ (0 <= dt -> 0 <= PongGame.boost_timer g ->
        0 <= boost_duration_sec (PongGame.cfg g) ->
        0 <= PongGame.boost_timer gc
          <= Rmax (PongGame.boost_timer g)
               (boost_duration_sec (PongGame.cfg g)))
    /\ (PongGame.powerup gc = None
        \/ PongGame.powerup gc
           = (if spawns g dt
              then Some (spawned_powerup (PongGame.cfg g) d)
              else PongGame.powerup g))
    /\ PongGame.powerup_timer gc
       = (if spawns g dt then 0 else PongGame.powerup_timer g + dt).
Proof.
  intros Hfit.
  destruct (after_motion_result g dt d Hfit)
    as (g0 & Ht & Hm & Hc & Hs & Hl & Hr & Hb & Hls & Hrs & Hbt).
  destruct (step_trace g dt d Hfit)
    as (gm & g1 & g2 & Ham & Fc & Fls & Frs & Fsp & H1 & S1 & H2 & S2 & Hbg).
  cbn zeta in *. rewrite Hm in Ham. injection Ham as <-.
  set (gt := PongGame.tick_boost g0 dt) in *.
  set (gm := PongGame.move_ball gt dt) in *.
  set (gw := PongGame.bounce_walls gm) in *.
  assert (Hgt : gt = PongGame.set_boost_timer g0 (PongGame.boost_timer gt))
    by apply tick_boost_same.
  assert (Hgw : gw = PongGame.set_ball gt (PongGame.ball gw)).
  { pose proof (bounce_walls_same gm) as Sw. unfold same_but_ball in Sw.
    fold gw in Sw. rewrite Sw. reflexivity. }
  pose proof (bounce_walls_keeps gm) as (_ & Kr & _). fold gw in Kr.
  pose proof (bounce_walls_between gm) as (Wu & Ww). fold gw in Wu, Ww.
  pose proof (paddle_side_unit _ _ _ _ _ _ S1) as U1.
  pose proof (paddle_side_unit _ _ _ _ _ _ S2) as U2.
  pose proof (paddle_side_speed _ _ _ _ _ _ S1) as Sp1.
  pose proof (paddle_side_speed _ _ _ _ _ _ S2) as Sp2.
  apply paddle_side_same in S1, S2.
  destruct S1 as (S1 & R1 & Y1). destruct S2 as (S2 & R2 & Y2).
  unfold same_but_ball in S1, S2.
  assert (G2 : g2 = PongGame.set_ball gt (PongGame.ball g2))
    by (rewrite S2, S1, Hgw; reflexivity).
  assert (Hrm : Ball.r (PongGame.ball gm) = Ball.r (PongGame.ball g)).
  { subst gm. simpl. rewrite Hgt. simpl. rewrite Hb. reflexivity. }
  assert (Hcm : PongGame.cfg gm = PongGame.cfg g).
  { subst gm. simpl. rewrite Hgt. simpl. exact Hc. }
  assert (Fc1 : PongGame.cfg g1 = PongGame.cfg g)
    by (rewrite S1; simpl; exact Fc).
  exists (PongGame.collect_powerup g2). split; [exact Hbg|].
  assert (Hpu0 : PongGame.powerup g0
                 = (if spawns g dt
                    then Some (spawned_powerup (PongGame.cfg g) d)
                    else PongGame.powerup g)
                 /\ PongGame.powerup_timer g0
                    = (if spawns g dt then 0
                       else PongGame.powerup_timer g + dt)).
  { rewrite (tick_powerup_result g dt d Hfit) in Ht. injection Ht as <-.
    destruct (spawns g dt); split; reflexivity. }
  destruct Hpu0 as [Hpu0 Htm0].
  assert (Hbt1 : 0 <= dt -> 0 <= PongGame.boost_timer g ->
                 0 <= PongGame.boost_timer g2 <= PongGame.boost_timer g).
  { intros Hdt Hb0. rewrite G2. simpl. rewrite <- Hbt.
    apply tick_boost_bounds; [exact Hdt | rewrite Hbt; exact Hb0]. }
  assert (Hfl : PongGame.cfg g2 = PongGame.cfg g
                /\ PongGame.state g2 = PongGame.state g
                /\ PongGame.left g2 = PongGame.left g
                /\ PongGame.right g2 = PongGame.right g
                /\ PongGame.left_score g2 = PongGame.left_score g
                /\ PongGame.right_score g2 = PongGame.right_score g
                /\ PongGame.powerup g2 = PongGame.powerup g0
                /\ PongGame.powerup_timer g2 = PongGame.powerup_timer g0).
  { rewrite G2, Hgt. simpl. repeat split; assumption. }
  destruct Hfl as (C2 & St2 & L2 & Rt2 & Ls2 & Rs2 & P2 & T2).
  assert (Hball : PongGame.ball (PongGame.collect_powerup g2)
                  = PongGame.ball g2)
    by (rewrite (collect_powerup_ball g2); reflexivity).
  rewrite Hball.
  split.
  { rewrite (collect_powerup_ball g2). simpl.
    repeat split; try assumption. rewrite R2, R1, Kr. exact Hrm. }
  split; [intros Hu; apply U2, U1, Wu; subst gm; simpl;
          rewrite Hgt; simpl; rewrite Hb; exact Hu|].
  split.
  { intros H0 H2r. unfold ball_between_walls. rewrite R2, R1, Y2, Y1.
    rewrite <- Hcm. apply Ww; rewrite ?Hrm, ?Hcm; assumption. }
  split.
  { intros Hs0. rewrite Sp2, Sp1, Fc1, Fc, Fsp.
    pose proof (iter_bounce_speed_bounds (PongGame.cfg g) _
                  (Nat.b2n (PongGame.hits_left gw
                              (PongGame.b_rect (PongGame.ball gw)))) Hs0)
      as B1.
    assert (B1' : 0 <= Nat.iter
                    (Nat.b2n (PongGame.hits_left gw
                                (PongGame.b_rect (PongGame.ball gw))))
                    (bounce_speed (PongGame.cfg g))
                    (Ball.speed (PongGame.ball g))
                  <= ball_speed_max (PongGame.cfg g)) by lra.
    pose proof (iter_bounce_speed_bounds (PongGame.cfg g) _
                  (Nat.b2n (PongGame.hits_right g1
                              (PongGame.b_rect (PongGame.ball gw)))) B1')
      as B2.
    lra. }
  destruct (collect_powerup_cases g2) as [Hsame | [Hsome Hcol]].
  - rewrite Hsame. split.
    { intros Hdt Hb0 Hdur. specialize (Hbt1 Hdt Hb0).
      pose proof (Rmax_l (PongGame.boost_timer g)
                    (boost_duration_sec (PongGame.cfg g))). lra. }
    split; [right; rewrite P2; exact Hpu0|].
    rewrite T2. exact Htm0.
  - rewrite Hcol. simpl. split.
    { intros Hdt Hb0 Hdur. rewrite C2.
      pose proof (Rmax_r (PongGame.boost_timer g)
                    (boost_duration_sec (PongGame.cfg g))). lra. }
    split; [left; reflexivity|].
    rewrite T2. exact Htm0.
Qed.

(** ** The outcome of a step *)

(** The goal phase scores for one side, or for none. *)
Lemma score_goals_cases (g : PongGame.t) (d : StepDraws) :
  (0 <= Ball.r (PongGame.ball g))%Z -> (0 <= width (PongGame.cfg g))%Z ->
  (Ball.x (PongGame.ball g) + IZR (Ball.r (PongGame.ball g)) < 0
   /\ PongGame.score_goals g d
      = Some (PongGame.check_win (conceded g true d)))
  \/ (Ball.x (PongGame.ball g) - IZR (Ball.r (PongGame.ball g))
      > IZR (width (PongGame.cfg g))
      /\ PongGame.score_goals g d
         = Some (PongGame.check_win (conceded g false d)))
  \/ (ball_on_screen (PongGame.cfg g) (PongGame.ball g)
      /\ PongGame.score_goals g d = Some (PongGame.check_win g)).
Proof.
  intros Hr Hw.
  assert (Hr' : 0 <= IZR (Ball.r (PongGame.ball g)))
    by (apply IZR_le; exact Hr).
  assert (Hw' : 0 <= IZR (width (PongGame.cfg g)))
    by (apply IZR_le; exact Hw).
  destruct (Rlt_dec (Ball.x (PongGame.ball g)
                     + IZR (Ball.r (PongGame.ball g))) 0) as [Hl|Hl].
  - left. split; [exact Hl|]. unfold PongGame.score_goals.
    rewrite (goal_left_edge_fires g d Hl). cbn [bind].
    rewrite goal_right_edge_idle; [reflexivity|].
    apply (served_in_arena (PongGame.cfg g)); assumption.
  - right.
    destruct (Rgt_dec (Ball.x (PongGame.ball g)
                       - IZR (Ball.r (PongGame.ball g)))
                (IZR (width (PongGame.cfg g)))) as [Hg|Hg].
    + left. split; [exact Hg|]. unfold PongGame.score_goals.
      rewrite (goal_left_edge_idle g d Hl). cbn [bind].
      rewrite (goal_right_edge_fires g d Hg). reflexivity.
    + right. split; [unfold ball_on_screen; lra|].
      apply score_goals_quiet; assumption.
Qed.

Lemma check_win_state_cases (g : PongGame.t) :
  (match_decided g /\ PongGame.state (PongGame.check_win g) = GAMEOVER)
  \/ (~ match_decided g
      /\ PongGame.state (PongGame.check_win g) = PongGame.state g).
Proof.
  unfold match_decided, PongGame.check_win.
  destruct (_ || _) eqn:E.
  - left. apply orb_true_iff in E. rewrite !Z.geb_le in E.
    split; [exact E | reflexivity].
  - right. apply orb_false_iff in E. destruct E as [E1 E2].
    rewrite Z.geb_leb in E1, E2. apply Z.leb_gt in E1, E2.
    split; [lia | reflexivity].
Qed.

Lemma tick_powerup_raises (g : PongGame.t) (dt : R) (d : StepDraws) :
  PongGame.tick_powerup g dt d = None
  <-> spawns g dt = true /\ ~ arena_fits (PongGame.cfg g).
Proof.
  unfold PongGame.tick_powerup, spawns, Rgeb, arena_fits.
  cbn [PongGame.set_powerup_timer PongGame.powerup PongGame.powerup_timer
       PongGame.cfg].
  destruct (PongGame.powerup g) as [p|].
  { split; [discriminate | intros [H _]; discriminate]. }
  destruct (Rge_dec _ _).
  2:{ split; [discriminate | intros [H _]; discriminate]. }
  unfold PongGame.spawn_powerup, randint.
  cbn [PongGame.set_powerup_timer PongGame.cfg].
  destruct (120 <=? width (PongGame.cfg g) - 120)%Z eqn:Ew;
    [destruct (80 <=? height (PongGame.cfg g) - 80)%Z eqn:Eh|];
    cbn [bind].
  - apply Z.leb_le in Ew, Eh.
    split; [discriminate | intros [_ H]; exfalso; apply H; auto].
  - apply Z.leb_gt in Eh. split; [|reflexivity].
    intros _. split; [reflexivity | lia].
  - apply Z.leb_gt in Ew. split; [|reflexivity].
    intros _. split; [reflexivity | lia].
Qed.

Lemma served_unit (cfg : Config) (r : Z) (l : bool) (d : ServeDraw) :
  unit_direction (served cfg r l d).
Proof.
  unfold unit_direction, served. simpl.
  pose proof (sin2_cos2 (drawn_angle d)) as H. unfold Rsqr in H.
  destruct l; lra.
Qed.







Lemma spawned_powerup_in_margins (cfg : Config) (d : StepDraws) :
  draws_in_range cfg d ->
  PowerUp.active (spawned_powerup cfg d) = true
  /\ PowerUp.r (spawned_powerup cfg d) = powerup_radius cfg
  /\ 120 <= PowerUp.x (spawned_powerup cfg d) <= IZR (width cfg) - 120
  /\ 80 <= PowerUp.y (spawned_powerup cfg d) <= IZR (height cfg) - 80.
Proof.
  intros [Hx Hy]. simpl.
  split; [reflexivity|]. split; [reflexivity|].
  replace 120 with (IZR 120) by reflexivity.
  replace 80 with (IZR 80) by reflexivity.
  rewrite <- !minus_IZR. repeat split; apply IZR_le; lia.
Qed.




(** ** Events *)

Lemma restart_result (g : PongGame.t) (d : ServeDraw) :
  PongGame.restart g d
  = Some (PongGame.mk (PongGame.cfg g) PLAYING
            (Paddle.set_y (PongGame.left g)
               (IZR (height (PongGame.cfg g)) / 2
                - IZR (Paddle.h (PongGame.left g)) / 2))
            (Paddle.set_y (PongGame.right g)
               (IZR (height (PongGame.cfg g)) / 2
                - IZR (Paddle.h (PongGame.right g)) / 2))
            (served (PongGame.cfg g) (Ball.r (PongGame.ball g)) false d)
            0 0 None 0 0).
Proof.
  unfold PongGame.restart.
  cbn [PongGame.set_left_score PongGame.set_right_score PongGame.set_left
       PongGame.set_right PongGame.set_powerup PongGame.set_powerup_timer
       PongGame.set_boost_timer PongGame.cfg PongGame.left PongGame.right
       PongGame.ball].
  rewrite reset_round_served. cbn [bind].
  assert (Hz : 0.0 = 0) by lra. rewrite Hz. reflexivity.
Qed.

(** One event either ends the program or continues with a game that is
    the old one, the old one in another state, or a restarted one. *)
Lemma on_event_cases (g : PongGame.t) (e : Event) (d : ServeDraw) :
  (PongGame.on_event g e d = PongGame.Returned
   /\ (e = QUIT \/ e = KEYDOWN K_ESCAPE))
  \/ (e <> QUIT /\ e <> KEYDOWN K_ESCAPE
      /\ exists g',
           PongGame.on_event g e d = PongGame.Continues g'
           /\ (g' = g
               \/ (PongGame.state g <> GAMEOVER
                   /\ PongGame.state g' <> GAMEOVER
                   /\ g' = PongGame.set_state g (PongGame.state g'))
               \/ (PongGame.state g = GAMEOVER
                   /\ PongGame.restart g d = Some g'))).
Proof.
  destruct e as [|key|].
  - left. split; [reflexivity | left; reflexivity].
  - destruct key; simpl;
      try (left; split; [reflexivity | right; reflexivity]);
      right; (split; [discriminate|]); (split; [discriminate|]);
      destruct (PongGame.state g) eqn:Hs;
      try (eexists; split; [reflexivity|]; left; reflexivity);
      try (eexists; split; [reflexivity|]; right; left;
           split; [discriminate|]; split; [discriminate | reflexivity]).
    rewrite restart_result. eexists; split; [reflexivity|].
    right; right. split; reflexivity.
  - right. split; [discriminate|]. split; [discriminate|].
    eexists; split; [reflexivity|]. left; reflexivity.
Qed.

(** X12: event handling never raises, and it ends the program exactly when
    a QUIT event or a key press of ESC is among the frame's events, in
    whatever state the game is. *)
Theorem quit_from_any_state (g : PongGame.t) (es : list Event)
    (d : ServeDraw) :
  PongGame.on_events g es d <> PongGame.Raised
  /\ (PongGame.on_events g es d = PongGame.Returned
      <-> In QUIT es \/ In (KEYDOWN K_ESCAPE) es).
Proof.
  revert g. induction es as [|e es IH]; intros g.
  - simpl. split; [discriminate|]. split; [discriminate | tauto].
  - cbn [PongGame.on_events In].
    destruct (on_event_cases g e d)
      as [[Hret He] | (Hq & Hesc & g' & Hc & _)].
    + rewrite Hret. split; [discriminate|].
      split; [intros _|reflexivity].
      destruct He as [-> | ->]; [left | right]; left; reflexivity.
    + rewrite Hc. destruct (IH g') as [Hn Hiff]. split; [exact Hn|].
      rewrite Hiff. split.
      * intros [H|H]; [left | right]; right; exact H.
      * intros [[H|H] | [H|H]]; try contradiction;
          [left | right]; exact H.
Qed.

Lemma on_event_asleep (g : PongGame.t) (e : Event) (d : ServeDraw) :
  PongGame.state g <> PLAYING ->
  e <> KEYDOWN (waking_key (PongGame.state g)) ->
  PongGame.on_event g e d = PongGame.Returned
  \/ PongGame.on_event g e d = PongGame.Continues g.
Proof.
  intros Hs He. destruct e as [|key|]; simpl; auto.
  destruct (Key_eqb key K_ESCAPE); auto.
  destruct (PongGame.state g); try contradiction;
    destruct key; simpl in *; auto; contradiction He; reflexivity.
Qed.

Lemma on_events_asleep (g : PongGame.t) (es : list Event) (d : ServeDraw) :
  PongGame.state g <> PLAYING ->
  ~ In (KEYDOWN (waking_key (PongGame.state g))) es ->
  PongGame.on_events g es d = PongGame.Returned
  \/ PongGame.on_events g es d = PongGame.Continues g.
Proof.
  intros Hs. induction es as [|e es IH]; intros Hn; simpl; auto.
  destruct (on_event_asleep g e d Hs) as [H|H].
  - intros ->. apply Hn. left. reflexivity.
  - rewrite H. auto.
  - rewrite H. apply IH. intros Hin. apply Hn. right. exact Hin.
Qed.

(** X13: outside [PLAYING] the game is frozen until its waking key is
    pressed.  From a game in [MENU], [PAUSED] or [GAMEOVER], frames that
    carry no press of ENTER, P or R respectively either end the program or
    leave every field of the game as it was, whatever keys are held and
    however much time passes.  Pressing P twice in one frame while playing
    or paused gives back the same game. *)
Theorem frozen_until_woken (g : PongGame.t) (frames : list FrameInput) :
  (PongGame.state g <> PLAYING ->
   Forall (fun i =>
             ~ In (KEYDOWN (waking_key (PongGame.state g))) (frame_events i))
     frames ->
   PongGame.run g frames = PongGame.Returned
   \/ PongGame.run g frames = PongGame.Continues g)
  /\ (forall d,
        PongGame.state g = PLAYING \/ PongGame.state g = PAUSED ->
        PongGame.on_events g [KEYDOWN K_p; KEYDOWN K_p] d
        = PongGame.Continues g).
Proof.
  split.
  - intros Hs Hn. induction Hn as [|i frames Hi Hn IH]; simpl; auto.
    destruct (on_events_asleep g (frame_events i) (restart_serve i) Hs Hi)
      as [H|H].
    + left. unfold PongGame.frame. rewrite H. reflexivity.
    + rewrite (frame_idle g g i H Hs). exact IH.
  - intros d [Hs|Hs]; simpl; rewrite Hs; simpl; rewrite <- Hs;
      destruct g; reflexivity.
Qed.

Lemma frozen_until_woken_witness :
  PongGame.run (PongGame.set_state game_on_powerup PAUSED)
    [{| frame_dt := 5; frame_events := [KEYDOWN K_r; OTHER];
        frame_keys := fun _ => true;
        restart_serve := {| drawn_angle := 0; drawn_choice := 1 |};
        step_draws := quiet_draws |}]
  = PongGame.Returned
  \/ PongGame.run (PongGame.set_state game_on_powerup PAUSED)
       [{| frame_dt := 5; frame_events := [KEYDOWN K_r; OTHER];
           frame_keys := fun _ => true;
           restart_serve := {| drawn_angle := 0; drawn_choice := 1 |};
           step_draws := quiet_draws |}]
     = PongGame.Continues (PongGame.set_state game_on_powerup PAUSED).
Proof.
  destruct (frozen_until_woken (PongGame.set_state game_on_powerup PAUSED)
              [{| frame_dt := 5; frame_events := [KEYDOWN K_r; OTHER];
                  frame_keys := fun _ => true;
                  restart_serve := {| drawn_angle := 0; drawn_choice := 1 |};
                  step_draws := quiet_draws |}]) as [Hrun _].
  apply Hrun.
  - simpl. discriminate.
  - repeat constructor; simpl; intros [H|[H|[]]]; discriminate.
Defined.

(** ** Restarting *)

Lemma init_result (d : ServeDraw) :
  PongGame.init d
  = Some (PongGame.mk default_config MENU
            (Paddle.mk 28 (IZR 540 / 2 - IZR 110 / 2) 14 110 420.0)
            (Paddle.mk (IZR (900 - 28 - 14)) (IZR 540 / 2 - IZR 110 / 2)
               14 110 420.0)
            (served default_config 10 false d) 0 0 None 0.0 0.0).
Proof.
  unfold PongGame.init. rewrite reset_round_served. reflexivity.
Qed.

(** X14: R at game over gives a fresh game.  Whatever happened to a game
    since [__init__] built it, as long as its fixtures (configuration,
    paddle x, size and speed, ball radius) are those [__init__] set,
    [restart] never raises and returns exactly the game [__init__] would
    build from the same serve draw, except that its state is [PLAYING]
    rather than [MENU]. *)
Theorem restart_is_fresh_game (g0 g : PongGame.t) (d0 d : ServeDraw) :
  PongGame.init d0 = Some g0 ->
  same_fixtures g0 g ->
  exists fresh,
    PongGame.init d = Some fresh
    /\ PongGame.restart g d = Some (PongGame.set_state fresh PLAYING).
Proof.
  intros Hinit (Hc & Hl & Hr & Hrad).
  rewrite init_result in Hinit. injection Hinit as <-.
  cbn [PongGame.cfg PongGame.left PongGame.right PongGame.ball] in *.
  rewrite init_result. eexists; split; [reflexivity|].
  rewrite restart_result, Hc, Hl, Hr, Hrad.
  cbn [PongGame.set_state PongGame.cfg PongGame.left PongGame.right
       PongGame.ball PongGame.left_score PongGame.right_score
       PongGame.powerup PongGame.powerup_timer PongGame.boost_timer
       Paddle.set_y Paddle.x Paddle.y Paddle.w Paddle.h Paddle.speed
       served Ball.r height default_config].
  assert (Hz : 0.0 = 0) by lra. rewrite Hz. reflexivity.
Qed.

Lemma restart_is_fresh_game_witness :
  exists fresh,
    PongGame.init {| drawn_angle := 0.2; drawn_choice := 1 |} = Some fresh
    /\ PongGame.restart game_won {| drawn_angle := 0.2; drawn_choice := 1 |}
       = Some (PongGame.set_state fresh PLAYING).
Proof.
  destruct (init_well_formed {| drawn_angle := 0; drawn_choice := 1 |})
    as (g0 & Hg0 & _).
  apply (restart_is_fresh_game g0 game_won
           {| drawn_angle := 0; drawn_choice := 1 |}).
  - exact Hg0.
  - rewrite init_result in Hg0. injection Hg0 as <-.
    unfold same_fixtures.
    cbn [game_won PongGame.cfg PongGame.left PongGame.right PongGame.ball
         Paddle.set_y Paddle.x Paddle.y Paddle.w Paddle.h Paddle.speed
         Ball.r].
    split; [reflexivity|].
    split; [unfold Paddle.set_y; simpl; f_equal; lra|].
    split; [unfold Paddle.set_y; simpl; f_equal; lra | reflexivity].
Defined.

(** ** What the game keeps while it runs *)

Lemma same_fixtures_refl (g : PongGame.t) : same_fixtures g g.
Proof.
  unfold same_fixtures. repeat split; auto.
  - destruct (PongGame.left g); reflexivity.
  - destruct (PongGame.right g); reflexivity.
Qed.

Lemma same_fixtures_trans (g1 g2 g3 : PongGame.t) :
  same_fixtures g1 g2 -> same_fixtures g2 g3 -> same_fixtures g1 g3.
Proof.
  unfold same_fixtures.
  intros (C12 & L12 & R12 & B12) (C23 & L23 & R23 & B23).
  split; [congruence|]. split; [|split; [|congruence]].
  - rewrite L23 at 1. rewrite L12. reflexivity.
  - rewrite R23 at 1. rewrite R12. reflexivity.
Qed.

Lemma sound_set_state (g : PongGame.t) (s : GameState) :
  sound g -> sound (PongGame.set_state g s).
Proof. intros []. constructor; assumption. Qed.

Lemma check_win_well_formed (g : PongGame.t) :
  sound g -> PongGame.state g <> GAMEOVER ->
  well_formed (PongGame.check_win g).
Proof.
  intros Hs Hst. split.
  - rewrite check_win_same. apply sound_set_state. exact Hs.
  - assert (Hm : match_decided (PongGame.check_win g) <-> match_decided g).
    { unfold match_decided.
      destruct (check_win_keeps g) as (-> & _ & -> & ->). tauto. }
    rewrite Hm.
    destruct (check_win_state_cases g) as [[Hd He] | [Hd He]];
      rewrite He; split; intros H; try assumption; try reflexivity;
      contradiction.
Qed.

Lemma served_in_field (cfg : Config) (r : Z) (l : bool) (d : ServeDraw) :
  (0 <= r)%Z -> (r * 2 <= height cfg)%Z -> (0 <= width cfg)%Z ->
  ball_between_walls cfg (served cfg r l d)
  /\ ball_on_screen cfg (served cfg r l d).
Proof.
  intros Hr H2r Hw. apply IZR_le in Hr, H2r, Hw. rewrite mult_IZR in H2r.
  unfold ball_between_walls, ball_on_screen. simpl. lra.
Qed.

(** A step of a well-formed game in play returns a well-formed game with
    the same fixtures. *)
Lemma step_keeps_well_formed (g : PongGame.t) (dt : R) (d : StepDraws) :
  well_formed g -> PongGame.state g = PLAYING ->
  0 <= dt -> draws_in_range (PongGame.cfg g) d ->
  exists g',
    PongGame.update_playing g dt d = Some g'
    /\ well_formed g' /\ same_fixtures g g'.
Proof.
  intros [Hs Hst] Hplay Hdt Hdraws. destruct Hs.
  destruct wf_radius0 as [Hr H2r].
  destruct (before_goals_facts g dt d wf_arena0)
    as (gc & Hbg & (Fc & Fs & Fl & Frt & Fls & Frs & Fr)
        & Fu & Fw & Fsp & Fb & Fp & Ft).
  pose proof (arena_fits_width _ wf_arena0) as Hw.
  specialize (Fu wf_unit0). specialize (Fw Hr H2r).
  assert (Hs0 : 0 <= Ball.speed (PongGame.ball g)
                <= ball_speed_max (PongGame.cfg g)) by lra.
  specialize (Fsp Hs0). specialize (Fb Hdt wf_boost0 wf_duration0).
  assert (Hundecided : (PongGame.left_score g < score_to_win (PongGame.cfg g)
                        /\ PongGame.right_score g
                           < score_to_win (PongGame.cfg g))%Z).
  { assert (Hn : ~ match_decided g)
      by (intros Hd; apply Hst in Hd; congruence).
    unfold match_decided in Hn. lia. }
  assert (Hpm : powerup_in_margins gc).
  { unfold powerup_in_margins. rewrite Fc. intros p Hp.
    destruct Fp as [Fp|Fp]; [congruence|]. rewrite Fp in Hp.
    destruct (spawns g dt).
    - injection Hp as <-. apply spawned_powerup_in_margins. exact Hdraws.
    - apply wf_powerup0. exact Hp. }
  assert (Htm : 0 <= PongGame.powerup_timer gc).
  { rewrite Ft. destruct (spawns g dt); lra. }
  assert (Hfix : forall gx,
            PongGame.cfg gx = PongGame.cfg g ->
            PongGame.left gx = PongGame.left g ->
            PongGame.right gx = PongGame.right g ->
            Ball.r (PongGame.ball gx) = Ball.r (PongGame.ball g) ->
            same_fixtures g (PongGame.check_win gx)).
  { intros gx Hc Hl Hrt Hrad. unfold same_fixtures.
    rewrite (check_win_same gx). simpl. rewrite Hc, Hl, Hrt, Hrad.
    repeat split.
    - destruct (PongGame.left g); reflexivity.
    - destruct (PongGame.right g); reflexivity. }
  assert (Hgoal : forall b,
            sound (conceded gc b d)
            /\ PongGame.state (conceded gc b d) <> GAMEOVER
            /\ same_fixtures g (PongGame.check_win (conceded gc b d))).
  { intros b.
    destruct (served_in_field (PongGame.cfg g) (Ball.r (PongGame.ball g)) b
                (if b then serve_after_left_exit d
                 else serve_after_right_exit d) Hr H2r Hw) as [Sw Ss].
    split; [|split].
    - constructor; unfold conceded; simpl; rewrite ?Fc, ?Fl, ?Frt, ?Fr;
        try assumption.
      + split; assumption.
      + apply served_unit.
      + lra.
      + lra.
      + unfold powerup_in_margins in *. simpl. rewrite Fc in Hpm.
        exact Hpm.
      + rewrite Fls, Frs. destruct b; lia.
    - simpl. rewrite Fs, Hplay. discriminate.
    - apply Hfix; simpl; assumption. }
  destruct (score_goals_cases gc d) as [[_ Hg] | [[_ Hg] | [Hon Hg]]];
    try (rewrite ?Fr, ?Fc; assumption);
    eexists; (split; [unfold PongGame.update_playing; rewrite Hbg; exact Hg|]).
  - destruct (Hgoal true) as (S1 & S2 & S3).
    split; [apply check_win_well_formed; assumption | exact S3].
  - destruct (Hgoal false) as (S1 & S2 & S3).
    split; [apply check_win_well_formed; assumption | exact S3].
  - split; [|apply Hfix; assumption].
    apply check_win_well_formed; [|rewrite Fs, Hplay; discriminate].
    constructor; rewrite ?Fc, ?Fl, ?Frt, ?Fr, ?Fls, ?Frs; try assumption.
    + split; assumption.
    + lra.
    + rewrite Fc in Hon. exact Hon.
    + lra.
Qed.

Lemma handle_input_fields (g : PongGame.t) (dt : R) (keys : Key -> bool) :
  let g' := PongGame.handle_input g dt keys in
  g' = PongGame.set_right
         (PongGame.set_left g
            (Paddle.set_y (PongGame.left g) (Paddle.y (PongGame.left g'))))
         (Paddle.set_y (PongGame.right g) (Paddle.y (PongGame.right g'))).
Proof.
  unfold PongGame.handle_input.
  destruct (keys K_w), (keys K_s), (keys K_RSHIFT || keys K_LSHIFT),
    (keys K_UP), (keys K_DOWN);
    cbn [PongGame.set_left PongGame.set_right PongGame.left
         PongGame.right PongGame.cfg PongGame.ball];
    try rewrite ai_move_only_y at 1; destruct g; reflexivity.
Qed.

Lemma handle_input_in_arena (g : PongGame.t) (dt : R) (keys : Key -> bool) :
  (Paddle.h (PongGame.left g) <= height (PongGame.cfg g))%Z ->
  (Paddle.h (PongGame.right g) <= height (PongGame.cfg g))%Z ->
  paddle_in_arena (PongGame.cfg g)
    (PongGame.left (PongGame.handle_input g dt keys))
  /\ paddle_in_arena (PongGame.cfg g)
       (PongGame.right (PongGame.handle_input g dt keys)).
Proof.
  intros Hl Hr. unfold PongGame.handle_input.
  destruct (keys K_w), (keys K_s), (keys K_RSHIFT || keys K_LSHIFT),
    (keys K_UP), (keys K_DOWN);
    cbn [PongGame.set_left PongGame.set_right PongGame.left PongGame.right
         PongGame.cfg PongGame.ball];
    split;
    try (apply (clamped_paddle_in_arena (PongGame.cfg g)); simpl; assumption);
    apply ai_move_in_arena; simpl; assumption.
Qed.

Lemma paddle_in_arena_fits (cfg : Config) (p : Paddle.t) :
  paddle_in_arena cfg p -> (Paddle.h p <= height cfg)%Z.
Proof.
  unfold paddle_in_arena. intros H. apply le_IZR. lra.
Qed.

Lemma handle_input_keeps_well_formed (g : PongGame.t) (dt : R)
    (keys : Key -> bool) :
  well_formed g ->
  well_formed (PongGame.handle_input g dt keys)
  /\ same_fixtures g (PongGame.handle_input g dt keys)
  /\ PongGame.state (PongGame.handle_input g dt keys) = PongGame.state g.
Proof.
  intros [Hs Hst].
  pose proof (handle_input_fields g dt keys) as Hf. cbn zeta in Hf.
  destruct (handle_input_in_arena g dt keys) as [Al Ar].
  { apply paddle_in_arena_fits. apply Hs. }
  { apply paddle_in_arena_fits. apply Hs. }
  set (g' := PongGame.handle_input g dt keys) in *.
  assert (E : PongGame.cfg g' = PongGame.cfg g
              /\ PongGame.state g' = PongGame.state g
              /\ PongGame.ball g' = PongGame.ball g
              /\ PongGame.left_score g' = PongGame.left_score g
              /\ PongGame.right_score g' = PongGame.right_score g
              /\ PongGame.powerup g' = PongGame.powerup g
              /\ PongGame.powerup_timer g' = PongGame.powerup_timer g
              /\ PongGame.boost_timer g' = PongGame.boost_timer g).
  { rewrite Hf. simpl. repeat split. }
  destruct E as (Ec & Est & Eb & Els & Ers & Ep & Et & Ebt).
  split; [split|split].
  - destruct Hs. constructor;
      unfold powerup_in_margins in *;
      rewrite ?Ec, ?Eb, ?Els, ?Ers, ?Ep, ?Et, ?Ebt; assumption.
  - unfold match_decided. rewrite Est, Ec, Els, Ers. exact Hst.
  - unfold same_fixtures. rewrite Ec, Eb.
    split; [reflexivity|]. split; [rewrite Hf at 1; reflexivity|].
    split; [rewrite Hf at 1; reflexivity | reflexivity].
  - exact Est.
Qed.

Lemma restart_keeps_well_formed (g g' : PongGame.t) (d : ServeDraw) :
  well_formed g -> PongGame.restart g d = Some g' ->
  well_formed g' /\ same_fixtures g g'.
Proof.
  intros [Hs _] Hr. rewrite restart_result in Hr. injection Hr as <-.
  destruct Hs. destruct wf_radius0 as [Hr H2r].
  pose proof (arena_fits_width _ wf_arena0) as Hw.
  destruct (served_in_field (PongGame.cfg g) (Ball.r (PongGame.ball g))
              false d Hr H2r Hw) as [Sw Ss].
  pose proof (paddle_in_arena_fits _ _ wf_left0) as Hl.
  pose proof (paddle_in_arena_fits _ _ wf_right0) as Hrt.
  apply IZR_le in Hl, Hrt.
  split; [split|].
  - constructor; simpl; try assumption; try lra.
    + unfold paddle_in_arena. simpl. lra.
    + unfold paddle_in_arena. simpl. lra.
    + split; assumption.
    + apply served_unit.
    + unfold powerup_in_margins. simpl. discriminate.
    + lia.
  - unfold match_decided. simpl. split; [discriminate | lia].
  - unfold same_fixtures. simpl. repeat split.
Qed.

Lemma on_event_keeps_well_formed (g g' : PongGame.t) (e : Event)
    (d : ServeDraw) :
  well_formed g -> PongGame.on_event g e d = PongGame.Continues g' ->
  well_formed g' /\ same_fixtures g g'.
Proof.
  intros Hwf Hc.
  destruct (on_event_cases g e d)
    as [[Hret _] | (_ & _ & g1 & Hc1 & Hcases)]; [congruence|].
  rewrite Hc in Hc1. injection Hc1 as <-.
  destruct Hcases as [-> | [(Hs & Hs' & Hg') | (_ & Hr)]].
  - split; [exact Hwf | apply same_fixtures_refl].
  - destruct Hwf as [Hsound Hst]. rewrite Hg'. split; [split|].
    + apply sound_set_state. exact Hsound.
    + assert (Hm : match_decided
                     (PongGame.set_state g (PongGame.state g'))
                   <-> match_decided g) by (unfold match_decided; tauto).
      rewrite Hm. cbn [PongGame.set_state PongGame.state].
      split; [intros H; contradiction|].
      intros Hd. apply Hst in Hd. contradiction.
    + unfold same_fixtures. simpl. repeat split.
      * destruct (PongGame.left g); reflexivity.
      * destruct (PongGame.right g); reflexivity.
  - apply (restart_keeps_well_formed g g' d); assumption.
Qed.

Lemma on_events_keeps_well_formed (g g' : PongGame.t) (es : list Event)
    (d : ServeDraw) :
  well_formed g -> PongGame.on_events g es d = PongGame.Continues g' ->
  well_formed g' /\ same_fixtures g g'.
Proof.
  revert g. induction es as [|e es IH]; intros g Hwf Hc; simpl in Hc.
  - injection Hc as <-. split; [exact Hwf | apply same_fixtures_refl].
  - destruct (PongGame.on_event g e d) as [| |g1] eqn:He; try discriminate.
    destruct (on_event_keeps_well_formed g g1 e d Hwf He) as [W1 F1].
    destruct (IH g1 W1 Hc) as [W2 F2].
    split; [exact W2 | exact (same_fixtures_trans _ _ _ F1 F2)].
Qed.

(** One frame of a well-formed game ends the program or continues with a
    well-formed game; it never raises. *)
Lemma frame_keeps_well_formed (g : PongGame.t) (i : FrameInput) :
  well_formed g -> frame_in_range (PongGame.cfg g) i ->
  PongGame.frame g i = PongGame.Returned
  \/ exists g',
       PongGame.frame g i = PongGame.Continues g'
       /\ well_formed g' /\ same_fixtures g g'.
Proof.
  intros Hwf [Hdt Hdraws]. unfold PongGame.frame.
  destruct (PongGame.on_events g (frame_events i) (restart_serve i))
    as [| |g1] eqn:He.
  - exfalso.
    assert (Hn : forall es g0,
              PongGame.on_events g0 es (restart_serve i)
              <> PongGame.Raised).
    { induction es as [|e es IH]; intros g0; simpl; [discriminate|].
      destruct (on_event_cases g0 e (restart_serve i))
        as [[Hret _] | (_ & _ & g2 & Hc & _)].
      - rewrite Hret. discriminate.
      - rewrite Hc. apply IH. }
    exact (Hn _ _ He).
  - left. reflexivity.
  - destruct (on_events_keeps_well_formed g g1 _ _ Hwf He) as [W1 F1].
    destruct (PongGame.state g1) eqn:Hs;
      try (right; exists g1; split; [reflexivity|]; split; assumption).
    destruct (handle_input_keeps_well_formed g1 (frame_dt i) (frame_keys i)
                W1) as (W2 & F2 & S2).
    assert (Hc : PongGame.cfg
                   (PongGame.handle_input g1 (frame_dt i) (frame_keys i))
                 = PongGame.cfg g).
    { destruct F2 as (C2 & _). destruct F1 as (C1 & _). congruence. }
    destruct (step_keeps_well_formed
                (PongGame.handle_input g1 (frame_dt i) (frame_keys i))
                (frame_dt i) (step_draws i) W2)
      as (g3 & Hg3 & W3 & F3).
    + rewrite S2. exact Hs.
    + exact Hdt.
    + rewrite Hc. exact Hdraws.
    + rewrite Hg3. right. exists g3. split; [reflexivity|].
      split; [exact W3|].
      exact (same_fixtures_trans _ _ _ F1 (same_fixtures_trans _ _ _ F2 F3)).
Qed.

(** X16: [__init__] never raises, whatever serve is drawn, and the game it
    builds is well formed, in [MENU], with the default configuration and
    the score at 0 : 0. *)
Theorem init_builds_well_formed (d : ServeDraw) :
  exists g,
    PongGame.init d = Some g
    /\ well_formed g
    /\ PongGame.cfg g = default_config
    /\ PongGame.state g = MENU
    /\ PongGame.left_score g = 0%Z /\ PongGame.right_score g = 0%Z
    /\ PongGame.powerup g = None.
Proof.
  rewrite init_result. eexists; split; [reflexivity|].
  split; [|repeat split].
  split.
  - constructor;
      cbn [PongGame.cfg PongGame.left PongGame.right PongGame.ball
           PongGame.left_score PongGame.right_score PongGame.powerup
           PongGame.powerup_timer PongGame.boost_timer].
    + exact default_arena_fits.
    + simpl. lra.
    + simpl. lra.
    + simpl. lia.
    + unfold paddle_in_arena. simpl. lra.
    + unfold paddle_in_arena. simpl. lra.
    + simpl. lia.
    + apply served_unit.
    + simpl. lra.
    + apply served_in_field; simpl; lia.
    + apply served_in_field; simpl; lia.
    + lra.
    + lra.
    + unfold powerup_in_margins. simpl. discriminate.
    + simpl. lia.
  - unfold match_decided. simpl. split; [discriminate | lia].
Qed.

(** ** The winner on screen *)

Lemma in_overlay (g : PongGame.t) (c : DrawCmd) :
  PongGame.state g = GAMEOVER ->
  c = HUD.draw_center_text (PongGame.cfg g)
        (String.append (winner g) " WINS!"%string)
        (height (PongGame.cfg g) / 2 - 40) fg_color ->
  In c (draw g).
Proof.
  intros Hs ->. unfold draw. rewrite Hs.
  do 6 (apply in_or_app; right). apply in_or_app; left.
  left. reflexivity.
Qed.

(** X17: the game-over screen names the right winner.  In a well-formed
    game whose state is [GAMEOVER], exactly one player has reached the win
    threshold, and [draw] puts "LEFT WINS!" on screen if it is the left
    player and "RIGHT WINS!" if it is the right one. *)
Theorem game_over_names_winner (g : PongGame.t) :
  well_formed g -> PongGame.state g = GAMEOVER ->
  let cfg := PongGame.cfg g in
  (PongGame.left_score g = score_to_win cfg
   /\ (PongGame.right_score g < score_to_win cfg)%Z
   /\ In (HUD.draw_center_text cfg "LEFT WINS!"%string
            (height cfg / 2 - 40) fg_color) (draw g))
  \/ (PongGame.right_score g = score_to_win cfg
      /\ (PongGame.left_score g < score_to_win cfg)%Z
      /\ In (HUD.draw_center_text cfg "RIGHT WINS!"%string
               (height cfg / 2 - 40) fg_color) (draw g)).
Proof.
  intros [Hs Hst] Hover cfg. subst cfg.
  assert (Hd : match_decided g) by (apply Hst; exact Hover).
  destruct Hs. destruct wf_scores0 as (Hl & Hr & Hnot).
  unfold match_decided in Hd.
  destruct (Z.eq_dec (PongGame.left_score g)
              (score_to_win (PongGame.cfg g))) as [El|El].
  - left. split; [exact El|]. split; [lia|].
    apply in_overlay; [exact Hover|]. unfold winner.
    assert (E : (PongGame.left_score g >? PongGame.right_score g)%Z = true)
      by (apply Z.gtb_lt; lia).
    rewrite E. reflexivity.
  - right. split; [lia|]. split; [lia|].
    apply in_overlay; [exact Hover|]. unfold winner.
    assert (E : (PongGame.left_score g >? PongGame.right_score g)%Z = false).
    { rewrite Z.gtb_ltb. apply Z.ltb_ge. lia. }
    rewrite E. reflexivity.
Qed.

Lemma game_over_names_winner_witness :
  In (HUD.draw_center_text default_config "LEFT WINS!"%string
        (540 / 2 - 40) fg_color) (draw game_won).
Proof.
  destruct (game_over_names_winner game_won) as [(_ & _ & H) | (E & _)].
  - split.
    + constructor; unfold arena_fits, paddle_in_arena, unit_direction,
        ball_between_walls, ball_on_screen, powerup_in_margins;
        simpl; try lia; try lra; try discriminate.
    + unfold match_decided. simpl. split; [lia | reflexivity].
  - reflexivity.
  - exact H.
  - simpl in E. discriminate.
Defined.

(** ** The bounce on its own *)

Lemma normalized_sign (v w : Vector2.t) :
  Vector2.length v <> 0 ->
  Vector2.x w = Vector2.x v / Vector2.length v ->
  (0 <= Vector2.x v -> 0 <= Vector2.x w)
  /\ (Vector2.x v <= 0 -> Vector2.x w <= 0).
Proof.
  intros Hne Hx. pose proof (length_nonneg v) as Hl.
  assert (Hpos : 0 < / Vector2.length v)
    by (apply Rinv_0_lt_compat; lra).
  rewrite Hx. unfold Rdiv. split; intros H; nra.
Qed.

(** X18: [apply_paddle_bounce] raises exactly when the paddle's height is 0
    (the division by [h / 2]).  For any other paddle and any ball, moving or
    not, it returns a ball at the same place, with the same radius, a
    direction of length one whose horizontal component does not point
    toward the paddle, and the speed multiplied by 1.03 up to
    [ball_speed_max]. *)
Theorem bounce_raises_only_on_flat_paddle (cfg : Config) (b : Ball.t)
    (p : Paddle.t) (is_left : bool) :
  (apply_paddle_bounce cfg b p is_left = None <-> Paddle.h p = 0%Z)
  /\ (Paddle.h p <> 0%Z ->
      exists b',
        apply_paddle_bounce cfg b p is_left = Some b'
        /\ Ball.x b' = Ball.x b /\ Ball.y b' = Ball.y b
        /\ Ball.r b' = Ball.r b
        /\ unit_direction b'
        /\ (if is_left then 0 <= Ball.vx b' else Ball.vx b' <= 0)
        /\ Ball.speed b'
           = Rmin (ball_speed_max cfg) (Ball.speed b * 1.03)).
Proof.
  assert (Hsome : Paddle.h p <> 0%Z ->
            exists b',
              apply_paddle_bounce cfg b p is_left = Some b'
              /\ Ball.x b' = Ball.x b /\ Ball.y b' = Ball.y b
              /\ Ball.r b' = Ball.r b
              /\ unit_direction b'
              /\ (if is_left then 0 <= Ball.vx b' else Ball.vx b' <= 0)
              /\ Ball.speed b'
                 = Rmin (ball_speed_max cfg) (Ball.speed b * 1.03)).
  { intros Hh. unfold apply_paddle_bounce.
    rewrite (py_div_nonzero _ _ (half_height_nonzero _ Hh)).
    cbn [bind Ball.set_vx Ball.set_vy Ball.set_speed Ball.x Ball.y Ball.r
         Ball.vx Ball.vy Ball.speed].
    set (offset := clamp _ (-1.0) 1.0).
    set (vx0 := if is_left then Rabs (Ball.vx b) else - Rabs (Ball.vx b)).
    set (v := Vector2.mk vx0 (offset * 0.95)).
    pose proof (Rabs_pos (Ball.vx b)) as Habs.
    destruct (Req_dec_T (Vector2.length v) 0) as [Hz|Hnz].
    - set (f := Vector2.mk (if is_left then 1 else -1) 0.1).
      assert (Hf : Vector2.length f <> 0).
      { intros He. apply length_zero_iff in He. destruct He as [_ He].
        simpl in He. lra. }
      destruct (normalize_nonzero f Hf) as (w & Hw & Hwx & _ & Hu).
      destruct (normalized_sign f w Hf Hwx) as [Sp Sn].
      rewrite Hw. cbn [bind]. eexists; split; [reflexivity|].
      cbn [Ball.set_vx Ball.set_vy Ball.set_speed Ball.x Ball.y Ball.r
           Ball.vx Ball.vy Ball.speed]. unfold unit_direction.
      cbn [Ball.vx Ball.vy]. repeat split; auto.
      destruct is_left; [apply Sp | apply Sn]; simpl; lra.
    - destruct (normalize_nonzero v Hnz) as (w & Hw & Hwx & _ & Hu).
      destruct (normalized_sign v w Hnz Hwx) as [Sp Sn].
      rewrite Hw. cbn [bind]. eexists; split; [reflexivity|].
      cbn [Ball.set_vx Ball.set_vy Ball.set_speed Ball.x Ball.y Ball.r
           Ball.vx Ball.vy Ball.speed]. unfold unit_direction.
      cbn [Ball.vx Ball.vy]. repeat split; auto.
      subst vx0. destruct is_left; [apply Sp | apply Sn]; simpl; lra. }
  split; [|exact Hsome].
  split.
  - intros Hnone. destruct (Z.eq_dec (Paddle.h p) 0) as [E|E]; [exact E|].
    destruct (Hsome E) as (b' & Hb' & _). congruence.
  - intros Hh. unfold apply_paddle_bounce, py_div. rewrite Hh.
    destruct (Req_dec_T (IZR 0 / 2) 0) as [_|Hne]; [reflexivity|].
    exfalso. apply Hne. lra.
Qed.

Lemma bounce_raises_only_on_flat_paddle_witness :
  exists b',
    apply_paddle_bounce default_config (Ball.mk 52 230 10 0 0.5 360)
      (Paddle.mk 28 215 14 110 420) true = Some b'
    /\ unit_direction b' /\ 0 <= Ball.vx b'.
Proof.
  destruct (bounce_raises_only_on_flat_paddle default_config
              (Ball.mk 52 230 10 0 0.5 360) (Paddle.mk 28 215 14 110 420)
              true) as [_ Hsome].
  destruct Hsome as (b' & Hb & _ & _ & _ & Hu & Hs & _).
  - simpl. lia.
  - exists b'. split; [exact Hb|]. split; [exact Hu | exact Hs].
Defined.

(** * The game on pygame's rectangles *)

(** ** The constructor *)

Lemma c_int_small (z : Z) : (- 2 ^ 31 <= z < 2 ^ 31)%Z -> c_int z = z.
Proof.
  intros H. unfold c_int. rewrite Z.mod_small by lia. lia.
Qed.

Lemma c_int_nonzero (z : Z) : c_int z <> 0%Z -> z <> 0%Z.
Proof. intros H ->. apply H. reflexivity. Qed.

Lemma fits_c_long_true (z : Z) : fits_c_long z = true <-> c_long z.
Proof.
  unfold fits_c_long, c_long. rewrite andb_true_iff, Z.leb_le, Z.ltb_lt.
  tauto.
Qed.

Lemma pygame_Rect_cases (x y w h : Z) :
  (c_long x /\ c_long y /\ c_long w /\ c_long h
   /\ pygame_Rect x y w h
      = Some (Rect.mk (c_int x) (c_int y) (c_int w) (c_int h)))
  \/ (~ (c_long x /\ c_long y /\ c_long w /\ c_long h)
      /\ pygame_Rect x y w h = None).
Proof.
  unfold pygame_Rect.
  destruct (fits_c_long x) eqn:Ex; [destruct (fits_c_long y) eqn:Ey;
    [destruct (fits_c_long w) eqn:Ew; [destruct (fits_c_long h) eqn:Eh|]|]|];
    cbn [andb];
    try (left; rewrite fits_c_long_true in Ex, Ey, Ew, Eh; tauto);
    right; (split; [|reflexivity]); intros (Hx & Hy & Hw & Hh);
    rewrite <- fits_c_long_true in Hx, Hy, Hw, Hh; congruence.
Qed.

Lemma pygame_Rect_small (x y w h : Z) :
  (- 2 ^ 30 <= x <= 2 ^ 30)%Z -> (- 2 ^ 30 <= y <= 2 ^ 30)%Z ->
  (- 2 ^ 30 <= w <= 2 ^ 30)%Z -> (- 2 ^ 30 <= h <= 2 ^ 30)%Z ->
  pygame_Rect x y w h = Some (Rect.mk x y w h).
Proof.
  intros Hx Hy Hw Hh.
  destruct (pygame_Rect_cases x y w h) as [(_ & _ & _ & _ & ->) | [Hn _]].
  - rewrite !c_int_small by lia. reflexivity.
  - exfalso. apply Hn. unfold c_long. lia.
Qed.

(** Truncation keeps a value within integer bounds it lies in. *)
Lemma py_int_bounded (v : R) (n : Z) :
  - IZR n <= v <= IZR n -> (- n <= py_int v <= n)%Z.
Proof.
  intros [Hlo Hhi]. destruct (Rle_dec 0 v) as [Hv|Hv].
  - pose proof (py_int_nonneg v Hv) as [Hl _].
    pose proof (py_int_sign_nonneg v Hv) as Hs.
    assert (Hn : (py_int v <= n)%Z) by (apply le_IZR; lra).
    lia.
  - assert (Hv' : v < 0) by lra.
    pose proof (py_int_neg v Hv') as [Hl Hu].
    assert (H0 : (py_int v < 1)%Z) by (apply lt_IZR; lra).
    assert (Hn : (- n <= py_int v)%Z)
      by (apply le_IZR; rewrite opp_IZR; lra).
    lia.
Qed.

(** ** Small rectangles are stored as they are *)

Lemma machine_rect_small (p : Paddle.t) :
  small_paddle p -> Machine.rect p = Some (Paddle.rect p).
Proof.
  intros (Hx & Hy & Hw & Hh). unfold Machine.rect, Paddle.rect.
  pose proof (py_int_bounded (Paddle.x p) 536870912 Hx).
  pose proof (py_int_bounded (Paddle.y p) 536870912 Hy).
  apply pygame_Rect_small; lia.
Qed.

Lemma machine_b_rect_small (b : Ball.t) :
  small_ball b -> Machine.b_rect b = Some (PongGame.b_rect b).
Proof.
  intros (Hx & Hy & Hr). unfold Machine.b_rect, PongGame.b_rect.
  assert (Hr' : - 268435456 <= IZR (Ball.r b) <= 268435456)
    by (split; apply IZR_le; lia).
  assert (Bx : - IZR 805306368 <= Ball.x b - IZR (Ball.r b) <= IZR 805306368)
    by lra.
  assert (By : - IZR 805306368 <= Ball.y b - IZR (Ball.r b) <= IZR 805306368)
    by lra.
  apply py_int_bounded in Bx, By.
  apply pygame_Rect_small; lia.
Qed.

Lemma machine_bounce_left_agrees (self : PongGame.t) (box : Rect.t) :
  small_paddle (PongGame.left self) ->
  Machine.bounce_left self box = PongGame.bounce_left self box.
Proof.
  intros Hp. unfold Machine.bounce_left, PongGame.bounce_left,
    PongGame.hits_left.
  rewrite (machine_rect_small _ Hp). reflexivity.
Qed.

Lemma machine_bounce_right_agrees (self : PongGame.t) (box : Rect.t) :
  small_paddle (PongGame.right self) ->
  Machine.bounce_right self box = PongGame.bounce_right self box.
Proof.
  intros Hp. unfold Machine.bounce_right, PongGame.bounce_right,
    PongGame.hits_right.
  rewrite (machine_rect_small _ Hp). reflexivity.
Qed.

Lemma bounce_left_keeps_right (self self' : PongGame.t) (box : Rect.t) :
  PongGame.bounce_left self box = Some self' ->
  PongGame.right self' = PongGame.right self.
Proof.
  intros H. destruct (bounce_left_effect self box) as (g1 & H1 & S1).
  rewrite H in H1. injection H1 as <-.
  apply paddle_side_same in S1. destruct S1 as (S1 & _).
  unfold same_but_ball in S1. rewrite S1. reflexivity.
Qed.

Lemma machine_bounce_paddles_agrees (self : PongGame.t) :
  small_ball (PongGame.ball self) ->
  small_paddle (PongGame.left self) ->
  small_paddle (PongGame.right self) ->
  Machine.bounce_paddles self = PongGame.bounce_paddles self.
Proof.
  intros Hb Hl Hr. unfold Machine.bounce_paddles, PongGame.bounce_paddles.
  rewrite (machine_b_rect_small _ Hb). cbn [bind].
  rewrite (machine_bounce_left_agrees _ _ Hl).
  destruct (PongGame.bounce_left self
              (PongGame.b_rect (PongGame.ball self))) as [g1|] eqn:H1;
    [|reflexivity].
  cbn [bind]. apply machine_bounce_right_agrees.
  rewrite (bounce_left_keeps_right _ _ _ H1). exact Hr.
Qed.

(** ** The game the paddle phase starts from *)

Lemma tick_powerup_keeps (g g0 : PongGame.t) (dt : R) (d : StepDraws) :
  PongGame.tick_powerup g dt d = Some g0 ->
  PongGame.cfg g0 = PongGame.cfg g
  /\ PongGame.left g0 = PongGame.left g
  /\ PongGame.right g0 = PongGame.right g
  /\ PongGame.ball g0 = PongGame.ball g
  /\ PongGame.boost_timer g0 = PongGame.boost_timer g
  /\ PongGame.powerup_timer g0
     = (if spawns g dt then 0 else PongGame.powerup_timer g + dt).
Proof.
  unfold PongGame.tick_powerup, spawns, Rgeb.
  cbn [PongGame.set_powerup_timer PongGame.powerup PongGame.powerup_timer
       PongGame.cfg].
  destruct (PongGame.powerup g) as [p|].
  { intros H. injection H as <-. repeat split; reflexivity. }
  destruct (Rge_dec _ _).
  2:{ intros H. injection H as <-. repeat split; reflexivity. }
  unfold PongGame.spawn_powerup, randint.
  cbn [PongGame.set_powerup_timer PongGame.cfg].
  destruct (120 <=? width (PongGame.cfg g) - 120)%Z; [|discriminate].
  destruct (80 <=? height (PongGame.cfg g) - 80)%Z; [|discriminate].
  cbn [bind]. intros H. injection H as <-.
  cbn [PongGame.set_powerup PongGame.cfg PongGame.left PongGame.right
       PongGame.ball PongGame.boost_timer PongGame.powerup_timer].
  repeat split; try reflexivity.
  cbn [PongGame.set_powerup_timer PongGame.powerup_timer]. lra.
Qed.

Lemma bounce_walls_ext (g g' : PongGame.t) :
  PongGame.cfg g' = PongGame.cfg g -> PongGame.ball g' = PongGame.ball g ->
  PongGame.ball (PongGame.bounce_walls g')
  = PongGame.ball (PongGame.bounce_walls g).
Proof.
  intros Hc Hb. destruct g, g'. cbn [PongGame.cfg PongGame.ball] in Hc, Hb.
  subst. unfold PongGame.bounce_walls.
  cbn [PongGame.set_ball PongGame.ball PongGame.cfg].
  destruct (Rle_dec _ 0);
    cbn [PongGame.set_ball PongGame.ball PongGame.cfg];
    destruct (Rge_dec _ _); reflexivity.
Qed.

Lemma move_ball_keeps (g : PongGame.t) (dt : R) :
  let g' := PongGame.move_ball (PongGame.tick_boost g dt) dt in
  PongGame.cfg g' = PongGame.cfg g
  /\ PongGame.left g' = PongGame.left g
  /\ PongGame.right g' = PongGame.right g.
Proof.
  cbn zeta. unfold PongGame.move_ball. rewrite (tick_boost_same g dt).
  repeat split; reflexivity.
Qed.

(** The paddle phase of a step works on the flown ball and on the paddles
    and the configuration the step began with. *)
Lemma flown_after_tick (g g0 : PongGame.t) (dt : R) (d : StepDraws) :
  PongGame.tick_powerup g dt d = Some g0 ->
  let gw :=
    PongGame.bounce_walls
      (PongGame.move_ball (PongGame.tick_boost g0 dt) dt) in
  PongGame.ball gw = flown g dt
  /\ PongGame.left gw = PongGame.left g
  /\ PongGame.right gw = PongGame.right g
  /\ PongGame.cfg gw = PongGame.cfg g.
Proof.
  intros Ht gw.
  destruct (tick_powerup_keeps g g0 dt d Ht) as (Fc & Fl & Fr & Fb & Fbt & _).
  destruct (move_ball_keeps g0 dt) as (Mc & Ml & Mr).
  destruct (move_ball_keeps g dt) as (Mc' & _).
  destruct (moved_ball_ext g g0 dt Fc Fb Fbt) as [Hmb _].
  pose proof (bounce_walls_same
                (PongGame.move_ball (PongGame.tick_boost g0 dt) dt)) as Sw.
  unfold same_but_ball in Sw. fold gw in Sw.
  split.
  { unfold flown. subst gw. apply bounce_walls_ext; [|exact Hmb].
    rewrite Mc, Mc'. exact Fc. }
  rewrite Sw. cbn [PongGame.set_ball PongGame.left PongGame.right
                   PongGame.cfg].
  rewrite Ml, Mr, Mc. auto.
Qed.

(** While the rectangles are small the step on pygame's rectangles is the
    step on rectangles of any size. *)
Lemma machine_before_pickup_agrees (g : PongGame.t) (dt : R)
    (d : StepDraws) :
  rects_small g dt ->
  Machine.before_pickup g dt d = PongGame.before_pickup g dt d.
Proof.
  intros (Hb & Hl & Hr).
  unfold Machine.before_pickup, PongGame.before_pickup,
    PongGame.after_motion.
  destruct (PongGame.tick_powerup g dt d) as [g0|] eqn:Ht; [|reflexivity].
  cbn [bind].
  destruct (flown_after_tick g g0 dt d Ht) as (Fb & Fl & Fr & _).
  apply machine_bounce_paddles_agrees; rewrite ?Fb, ?Fl, ?Fr; assumption.
Qed.

Lemma machine_step_agrees (g : PongGame.t) (dt : R) (d : StepDraws) :
  rects_small g dt ->
  Machine.update_playing g dt d = PongGame.update_playing g dt d.
Proof.
  intros Hs.
  unfold Machine.update_playing, PongGame.update_playing,
    Machine.before_goals, PongGame.before_goals.
  rewrite (machine_before_pickup_agrees g dt d Hs). reflexivity.
Qed.

(** ** The paddle phase on pygame's rectangles *)

Lemma machine_rect_cases (p : Paddle.t) :
  (paddle_converts p
   /\ exists pr, Machine.rect p = Some pr
                 /\ (Rect.h pr <> 0%Z -> Paddle.h p <> 0%Z))
  \/ (~ paddle_converts p /\ Machine.rect p = None).
Proof.
  unfold Machine.rect, paddle_converts.
  destruct (pygame_Rect_cases (py_int (Paddle.x p)) (py_int (Paddle.y p))
              (Paddle.w p) (Paddle.h p))
    as [(Hx & Hy & Hw & Hh & ->) | [Hn ->]].
  - left. split; [tauto|]. eexists; split; [reflexivity|].
    cbn [Rect.h]. apply c_int_nonzero.
  - right. split; [exact Hn | reflexivity].
Qed.

Lemma machine_bounce_left_effect (self : PongGame.t) (box pr : Rect.t) :
  Machine.rect (PongGame.left self) = Some pr ->
  (Rect.h pr <> 0%Z -> Paddle.h (PongGame.left self) <> 0%Z) ->
  exists self',
    Machine.bounce_left self box = Some self'
    /\ paddle_side self (PongGame.left self) true
         (Rect.colliderect box pr && Rltb (Ball.vx (PongGame.ball self)) 0)
         (Paddle.x (PongGame.left self)
          + IZR (Paddle.w (PongGame.left self))
          + IZR (Ball.r (PongGame.ball self)))
         self'.
Proof.
  intros Hpr Hnz. unfold Machine.bounce_left, paddle_side.
  rewrite Hpr. cbn [bind].
  destruct (Rect.colliderect box pr
            && Rltb (Ball.vx (PongGame.ball self)) 0) eqn:Hhit.
  - apply andb_true_iff in Hhit.
    destruct Hhit as [Hc Hv]. apply Rltb_true in Hv.
    apply colliderect_nonzero in Hc. destruct Hc as (_ & _ & _ & Hh).
    apply Hnz in Hh.
    destruct (apply_paddle_bounce_moving (PongGame.cfg self)
                (Ball.set_x (PongGame.ball self)
                   (Paddle.x (PongGame.left self)
                    + IZR (Paddle.w (PongGame.left self))
                    + IZR (Ball.r (PongGame.ball self))))
                (PongGame.left self) true Hh)
      as (b' & Hb & Hx & Hoff).
    { simpl. lra. }
    cbn [PongGame.set_ball PongGame.ball PongGame.cfg PongGame.left].
    rewrite Hb. cbn [bind]. eexists; split; [reflexivity|].
    cbn [PongGame.set_ball PongGame.ball PongGame.cfg PongGame.left].
    split; [reflexivity|]. split; [exact Hx | exact Hoff].
  - eexists; split; reflexivity.
Qed.

Lemma machine_bounce_right_effect (self : PongGame.t) (box pr : Rect.t) :
  Machine.rect (PongGame.right self) = Some pr ->
  (Rect.h pr <> 0%Z -> Paddle.h (PongGame.right self) <> 0%Z) ->
  exists self',
    Machine.bounce_right self box = Some self'
    /\ paddle_side self (PongGame.right self) false
         (Rect.colliderect box pr && Rgtb (Ball.vx (PongGame.ball self)) 0)
         (Paddle.x (PongGame.right self)
          - IZR (Ball.r (PongGame.ball self)))
         self'.
Proof.
  intros Hpr Hnz. unfold Machine.bounce_right, paddle_side.
  rewrite Hpr. cbn [bind].
  destruct (Rect.colliderect box pr
            && Rgtb (Ball.vx (PongGame.ball self)) 0) eqn:Hhit.
  - apply andb_true_iff in Hhit.
    destruct Hhit as [Hc Hv]. apply Rgtb_true in Hv.
    apply colliderect_nonzero in Hc. destruct Hc as (_ & _ & _ & Hh).
    apply Hnz in Hh.
    destruct (apply_paddle_bounce_moving (PongGame.cfg self)
                (Ball.set_x (PongGame.ball self)
                   (Paddle.x (PongGame.right self)
                    - IZR (Ball.r (PongGame.ball self))))
                (PongGame.right self) false Hh)
      as (b' & Hb & Hx & Hoff).
    { simpl. lra. }
    cbn [PongGame.set_ball PongGame.ball PongGame.cfg PongGame.right].
    rewrite Hb. cbn [bind]. eexists; split; [reflexivity|].
    cbn [PongGame.set_ball PongGame.ball PongGame.cfg PongGame.right].
    split; [reflexivity|]. split; [exact Hx | exact Hoff].
  - eexists; split; reflexivity.
Qed.

(** The paddle phase raises exactly when one of its three rectangles
    cannot be built; otherwise it changes the ball at most. *)
Lemma machine_bounce_paddles_cases (self : PongGame.t) :
  let b := PongGame.ball self in
  let convert :=
    (c_long (py_int (Ball.x b - IZR (Ball.r b)))
     /\ c_long (py_int (Ball.y b - IZR (Ball.r b)))
     /\ c_long (Ball.r b * 2))
    /\ paddle_converts (PongGame.left self)
    /\ paddle_converts (PongGame.right self) in
  (~ convert /\ Machine.bounce_paddles self = None)
  \/ (convert
      /\ exists self',
           Machine.bounce_paddles self = Some self'
           /\ same_but_ball self self').
Proof.
  intros b convert. subst convert. unfold Machine.bounce_paddles.
  unfold Machine.b_rect. fold b.
  destruct (pygame_Rect_cases (py_int (Ball.x b - IZR (Ball.r b)))
              (py_int (Ball.y b - IZR (Ball.r b)))
              (Ball.r b * 2) (Ball.r b * 2))
    as [(Hx & Hy & Hw & _ & ->) | [Hn ->]].
  2:{ left. split; [tauto | reflexivity]. }
  cbn [bind]. set (box := Rect.mk _ _ _ _).
  destruct (machine_rect_cases (PongGame.left self))
    as [(Hl & pl & Hpl & Hnl) | [Hn Hpl]].
  2:{ left. split; [tauto|]. unfold Machine.bounce_left. rewrite Hpl.
      reflexivity. }
  destruct (machine_bounce_left_effect self box pl Hpl Hnl)
    as (g1 & H1 & S1).
  rewrite H1. cbn [bind].
  apply paddle_side_same in S1. destruct S1 as (S1 & _).
  assert (Hr1 : PongGame.right g1 = PongGame.right self).
  { unfold same_but_ball in S1. rewrite S1. reflexivity. }
  destruct (machine_rect_cases (PongGame.right self))
    as [(Hr & pr & Hpr & Hnr) | [Hn Hpr]].
  2:{ left. split; [tauto|]. unfold Machine.bounce_right.
      rewrite Hr1, Hpr. reflexivity. }
  rewrite <- Hr1 in Hpr, Hnr.
  destruct (machine_bounce_right_effect g1 box pr Hpr Hnr)
    as (g2 & H2 & S2).
  right. split; [tauto|]. exists g2. split; [exact H2|].
  apply paddle_side_same in S2. destruct S2 as (S2 & _).
  unfold same_but_ball in *. rewrite S2, S1. reflexivity.
Qed.

(** The step on pygame's rectangles: after the spawn phase it raises
    exactly when a rectangle cannot be built, and otherwise the paddle
    phase has changed the ball at most. *)
Lemma machine_step_cases (g g0 : PongGame.t) (dt : R) (d : StepDraws) :
  PongGame.tick_powerup g dt d = Some g0 ->
  (~ rects_convert g dt /\ Machine.update_playing g dt d = None)
  \/ (rects_convert g dt
      /\ exists g2 g',
           Machine.before_pickup g dt d = Some g2
           /\ same_but_ball
                (PongGame.bounce_walls
                   (PongGame.move_ball (PongGame.tick_boost g0 dt) dt)) g2
           /\ PongGame.score_goals (PongGame.collect_powerup g2) d = Some g'
           /\ Machine.update_playing g dt d = Some g').
Proof.
  intros Ht.
  destruct (flown_after_tick g g0 dt d Ht) as (Fb & Fl & Fr & _).
  set (gw := PongGame.bounce_walls
               (PongGame.move_ball (PongGame.tick_boost g0 dt) dt)) in *.
  assert (Hbp : Machine.before_pickup g dt d = Machine.bounce_paddles gw).
  { unfold Machine.before_pickup, PongGame.after_motion. rewrite Ht.
    reflexivity. }
  unfold Machine.update_playing, Machine.before_goals. rewrite Hbp.
  unfold rects_convert. cbn zeta. rewrite <- Fb, <- Fl, <- Fr.
  destruct (machine_bounce_paddles_cases gw) as [[Hn E] | (Hc & g2 & E & S)].
  - left. split; [exact Hn|]. rewrite E. reflexivity.
  - right. split; [exact Hc|].
    destruct (score_goals_keeps (PongGame.collect_powerup g2) d)
      as (g' & Hg' & _).
    exists g2, g'. rewrite E. cbn [bind]. auto.
Qed.

(** ** Sample steps on pygame's rectangles *)

Lemma flown_coasted (g : PongGame.t) (dt : R) :
  ~ PongGame.boost_timer g > 0 ->
  let b' := coasted (PongGame.ball g) dt in
  ~ Ball.y b' - IZR (Ball.r b') <= 0 ->
  ~ Ball.y b' + IZR (Ball.r b') >= IZR (height (PongGame.cfg g)) ->
  flown g dt = b'.
Proof.
  intros Hb b' Htop Hbot. unfold flown. rewrite tick_boost_off by exact Hb.
  assert (Hm : PongGame.move_ball g dt = PongGame.set_ball g b').
  { unfold PongGame.move_ball.
    destruct (Rgt_dec (PongGame.boost_timer g) 0); [contradiction|].
    reflexivity. }
  rewrite Hm. rewrite bounce_walls_clear by assumption. reflexivity.
Qed.

Lemma default_paddles_small :
  small_paddle (Paddle.mk 28 215 14 110 420)
  /\ small_paddle (Paddle.mk 858 215 14 110 420).
Proof. unfold small_paddle; simpl; repeat split; try lra; lia. Qed.

Lemma past_left_edge_rects_small : rects_small game_past_left_edge 0.
Proof.
  unfold rects_small. rewrite flown_coasted by (simpl; lra).
  split; [|exact default_paddles_small].
  unfold small_ball, coasted; simpl; repeat split; try lra; lia.
Qed.

Lemma before_contact_flown :
  flown game_before_contact (1 / 60)
  = coasted (Ball.mk 56 270 10 (-1) 0 360) (1 / 60).
Proof. apply flown_coasted; simpl; lra. Qed.

Lemma before_contact_rects_small :
  rects_small game_before_contact (1 / 60).
Proof.
  unfold rects_small. rewrite before_contact_flown.
  split; [|exact default_paddles_small].
  unfold small_ball, coasted; simpl; repeat split; try lra; lia.
Qed.

Lemma on_powerup_rects_small : rects_small game_on_powerup (1 / 60).
Proof.
  unfold rects_small. rewrite flown_coasted by (simpl; lra).
  split; [|exact default_paddles_small].
  unfold small_ball, coasted; simpl; repeat split; try lra; lia.
Qed.

Lemma paddle_side_hit (g : PongGame.t) (p : Paddle.t) (is_left hit : bool)
    (snap_x : R) (g' : PongGame.t) :
  paddle_side g p is_left hit snap_x g' -> hit = true ->
  Ball.x (PongGame.ball g') = snap_x
  /\ bounced_off (PongGame.cfg g) (PongGame.ball g) p is_left
       (PongGame.ball g').
Proof. intros H ->. destruct H as (_ & Hx & Hb). auto. Qed.

Lemma paddle_side_miss (g : PongGame.t) (p : Paddle.t) (is_left hit : bool)
    (snap_x : R) (g' : PongGame.t) :
  paddle_side g p is_left hit snap_x g' -> hit = false -> g' = g.
Proof. intros H ->. exact H. Qed.


(** ** Goals on pygame's rectangles *)

(** C1 (as amended): in every step in which the moved ball has wholly left
    through the left edge ([ball.x + r < 0] after the motion; the spawn
    phase that runs before the boost countdown and the motion touches
    neither the ball nor the boost timer, so [moved] is the ball the step
    moves), with the paddles on the field and the step's rectangles small
    enough to be stored unchanged in the C ints of [pygame.Rect], the step
    returns with the right score one higher, the left score unchanged, the
    boost timer at 0 and the ball re-served from the centre with horizontal
    direction factor -1 (its horizontal velocity is [-1 * cos angle],
    negative); symmetric for the right edge, where the left score grows and
    the factor is +1. *)
Theorem goal_scores_and_serves (self : PongGame.t) (dt : R) (d : StepDraws) :
  let cfg := PongGame.cfg self in
  let moved :=
    PongGame.ball (PongGame.move_ball (PongGame.tick_boost self dt) dt) in
  arena_fits cfg ->
  (0 <= Ball.r (PongGame.ball self))%Z ->
  paddle_on_field cfg (PongGame.left self) ->
  paddle_on_field cfg (PongGame.right self) ->
  rects_small self dt ->
  (Ball.x moved + IZR (Ball.r moved) < 0 ->
   -0.35 <= drawn_angle (serve_after_left_exit d) <= 0.35 ->
   exists g',
     Machine.update_playing self dt d = Some g'
     /\ PongGame.right_score g' = (PongGame.right_score self + 1)%Z
     /\ PongGame.left_score g' = PongGame.left_score self
     /\ PongGame.boost_timer g' = 0
     /\ PongGame.ball g'
        = Ball.mk (IZR (width cfg) / 2) (IZR (height cfg) / 2)
            (Ball.r (PongGame.ball self))
            (-1 * cos (drawn_angle (serve_after_left_exit d)))
            (sin (drawn_angle (serve_after_left_exit d)))
            (ball_speed cfg)
     /\ Ball.vx (PongGame.ball g') < 0)
  /\ (Ball.x moved - IZR (Ball.r moved) > IZR (width cfg) ->
      -0.35 <= drawn_angle (serve_after_right_exit d) <= 0.35 ->
      exists g',
        Machine.update_playing self dt d = Some g'
        /\ PongGame.left_score g' = (PongGame.left_score self + 1)%Z
        /\ PongGame.right_score g' = PongGame.right_score self
        /\ PongGame.boost_timer g' = 0
        /\ PongGame.ball g'
           = Ball.mk (IZR (width cfg) / 2) (IZR (height cfg) / 2)
               (Ball.r (PongGame.ball self))
               (1 * cos (drawn_angle (serve_after_right_exit d)))
               (sin (drawn_angle (serve_after_right_exit d)))
               (ball_speed cfg)
        /\ 0 < Ball.vx (PongGame.ball g')).
Proof.
  intros cfg moved Hfit Hr Hpl Hpr Hsmall.
  rewrite (machine_step_agrees self dt d Hsmall).
  pose proof (arena_fits_width _ Hfit) as Hw.
  assert (Hmr : Ball.r moved = Ball.r (PongGame.ball self)).
  { subst moved. simpl. rewrite (tick_boost_same self dt). reflexivity. }
  split.
  - intros Hout Hang.
    destruct (before_goals_untouched self dt d Hfit)
      as (gc & Hgc & Fc & _ & _ & _ & Fls & Frs & Fx & Fr).
    { intros b b' Hx Hr'. fold moved in b. subst b.
      split; apply (no_contact_past_left_edge cfg); auto;
        rewrite ?Hx, ?Hr'; try lia; try lra; rewrite Hmr; assumption. }
    fold moved in Fx.
    unfold PongGame.update_playing, PongGame.score_goals.
    rewrite Hgc. cbn [bind].
    rewrite goal_left_edge_fires by (rewrite Fx, Fr, <- Hmr; exact Hout).
    cbn [bind]. rewrite Fc, Fr. fold cfg.
    rewrite goal_right_edge_idle.
    2:{ cbn [PongGame.set_boost_timer PongGame.set_ball PongGame.ball
             PongGame.cfg PongGame.set_right_score].
        rewrite Fc. apply served_in_arena; assumption. }
    cbn [bind]. eexists; split; [reflexivity|].
    rewrite check_win_same. simpl.
    pose proof (serve_angle_cos_pos _ Hang).
    repeat split; auto; try lra. rewrite Frs. reflexivity.
  - intros Hout Hang.
    assert (Hr' : 0 <= IZR (Ball.r (PongGame.ball self)))
      by (apply IZR_le; exact Hr).
    assert (Hw' : 0 <= IZR (width cfg)) by (apply IZR_le; exact Hw).
    destruct (before_goals_untouched self dt d Hfit)
      as (gc & Hgc & Fc & _ & _ & _ & Fls & Frs & Fx & Fr).
    { intros b b' Hx Hr''. fold moved in b. subst b.
      split; apply (no_contact_past_right_edge cfg); auto;
        rewrite ?Hx, ?Hr''; try lia; try lra; rewrite Hmr; assumption. }
    fold moved in Fx.
    unfold PongGame.update_playing, PongGame.score_goals.
    rewrite Hgc. cbn [bind].
    rewrite goal_left_edge_idle.
    2:{ rewrite Fx, Fr, <- Hmr. rewrite Hmr in *. lra. }
    cbn [bind].
    rewrite goal_right_edge_fires
      by (rewrite Fx, Fr, Fc, <- Hmr; exact Hout).
    cbn [bind]. rewrite Fc, Fr. fold cfg.
    eexists; split; [reflexivity|].
    rewrite check_win_same. simpl.
    pose proof (serve_angle_cos_pos _ Hang).
    repeat split; auto; try lra. rewrite Fls. reflexivity.
Qed.

Lemma goal_scores_and_serves_witness :
  exists g',
    Machine.update_playing game_past_left_edge 0 quiet_draws = Some g'
    /\ PongGame.right_score g' = 1%Z
    /\ PongGame.boost_timer g' = 0.
Proof.
  destruct (goal_scores_and_serves game_past_left_edge 0 quiet_draws)
    as [HL _].
  - exact default_arena_fits.
  - simpl; lia.
  - unfold paddle_on_field; simpl. split; [lra | split; [lia | lra]].
  - unfold paddle_on_field; simpl. split; [lra | split; [lia | lra]].
  - exact past_left_edge_rects_small.
  - destruct HL as (g' & Hg & Hrs & _ & Hbt & _).
    + unfold PongGame.move_ball, PongGame.tick_boost.
      cbn [game_past_left_edge PongGame.boost_timer PongGame.ball
           PongGame.set_ball PongGame.set_boost_timer Ball.x Ball.r
           Ball.set_x Ball.set_y Ball.vx Ball.vy Ball.speed Ball.y
           PongGame.cfg].
      destruct (Rgt_dec 0 0) as [Hgt|_]; [lra|].
      cbn [game_past_left_edge PongGame.boost_timer PongGame.ball
           PongGame.set_ball PongGame.set_boost_timer Ball.x Ball.r
           Ball.set_x Ball.set_y Ball.vx Ball.vy Ball.speed Ball.y
           PongGame.cfg].
      destruct (Rgt_dec 0 0) as [Hgt|_]; lra.
    + simpl; lra.
    + exists g'. split; [exact Hg|]. split; [exact Hrs | exact Hbt].
Defined.

(** C1, counterexample: the ball is 2^32 + 860 pixels from the left edge,
    wholly past the right edge of the 900 pixel arena.  [pygame.Rect] keeps
    the low 32 bits of the box's corner, 850, so the box meets the right
    paddle: the step bounces the ball off the paddle and scores no goal. *)
Lemma far_ball_bounces_instead_of_scoring :
  let moved :=
    PongGame.ball
      (PongGame.move_ball (PongGame.tick_boost game_far_right 0) 0) in
  Ball.x moved - IZR (Ball.r moved) > IZR (width default_config)
  /\ exists g',
       Machine.update_playing game_far_right 0 quiet_draws = Some g'
       /\ PongGame.left_score g' = PongGame.left_score game_far_right
       /\ PongGame.left_score g'
          <> (PongGame.left_score game_far_right + 1)%Z
       /\ Ball.x (PongGame.ball g') = 848
       /\ Ball.vx (PongGame.ball g') < 0.
Proof.
  assert (Hflown : flown game_far_right 0
                   = coasted (Ball.mk 4294968156 270 10 1 0 360) 0).
  { apply flown_coasted; simpl; lra. }
  assert (Hmoved : PongGame.ball
                     (PongGame.move_ball
                        (PongGame.tick_boost game_far_right 0) 0)
                   = coasted (Ball.mk 4294968156 270 10 1 0 360) 0).
  { rewrite tick_boost_off by (simpl; lra). unfold PongGame.move_ball.
    destruct (Rgt_dec (PongGame.boost_timer game_far_right) 0) as [H|_];
      [simpl in H; lra | reflexivity]. }
  cbn zeta. rewrite Hmoved. split; [simpl; lra|].
  destruct (after_motion_result game_far_right 0 quiet_draws
              default_arena_fits) as (g0 & Ht & Hm & _).
  destruct (flown_after_tick game_far_right g0 0 quiet_draws Ht)
    as (Fb & Fl & Fr & Fc).
  set (gw := PongGame.bounce_walls
               (PongGame.move_ball (PongGame.tick_boost g0 0) 0)) in *.
  rewrite Hflown in Fb.
  assert (Hp : PongGame.powerup gw = None).
  { pose proof (bounce_walls_same
                  (PongGame.move_ball (PongGame.tick_boost g0 0) 0)) as Sw.
    unfold same_but_ball in Sw. fold gw in Sw. rewrite Sw.
    cbn [PongGame.set_ball PongGame.powerup PongGame.move_ball].
    rewrite (tick_boost_same g0 0).
    cbn [PongGame.set_boost_timer PongGame.powerup].
    rewrite (tick_powerup_result game_far_right 0 quiet_draws
               default_arena_fits) in Ht.
    injection Ht as <-.
    assert (Hs : spawns game_far_right 0 = false).
    { unfold spawns, Rgeb. simpl.
      destruct (Rge_dec _ _) as [H|_]; [exfalso; lra | reflexivity]. }
    rewrite Hs. reflexivity. }
  assert (Hls : PongGame.left_score gw = 0%Z).
  { destruct (step_trace game_far_right 0 quiet_draws default_arena_fits)
      as (gm & _ & _ & Ham & _ & Fls & _).
    cbn zeta in Fls. rewrite Hm in Ham. injection Ham as <-.
    exact Fls. }
  assert (Hbox : Machine.b_rect (PongGame.ball gw)
                 = Some (Rect.mk 850 260 20 20)).
  { rewrite Fb. unfold Machine.b_rect.
    replace (Ball.x (coasted (Ball.mk 4294968156 270 10 1 0 360) 0)
             - IZR (Ball.r (coasted (Ball.mk 4294968156 270 10 1 0 360) 0)))
      with (IZR 4294968146) by (simpl; lra).
    replace (Ball.y (coasted (Ball.mk 4294968156 270 10 1 0 360) 0)
             - IZR (Ball.r (coasted (Ball.mk 4294968156 270 10 1 0 360) 0)))
      with (IZR 260) by (simpl; lra).
    rewrite !py_int_IZR. reflexivity. }
  assert (Hlr : Machine.rect (PongGame.left gw)
                = Some (Rect.mk 28 215 14 110)).
  { rewrite Fl. unfold Machine.rect.
    cbn [game_far_right PongGame.left Paddle.x Paddle.y Paddle.w Paddle.h].
    rewrite !py_int_IZR. reflexivity. }
  assert (Hrr : Machine.rect (PongGame.right gw)
                = Some (Rect.mk 858 215 14 110)).
  { rewrite Fr. unfold Machine.rect.
    cbn [game_far_right PongGame.right Paddle.x Paddle.y Paddle.w Paddle.h].
    rewrite !py_int_IZR. reflexivity. }
  destruct (machine_bounce_left_effect gw (Rect.mk 850 260 20 20) _ Hlr)
    as (g1 & H1 & S1).
  { intros _. rewrite Fl. simpl. lia. }
  apply paddle_side_miss in S1; [|reflexivity]. subst g1.
  destruct (machine_bounce_right_effect gw (Rect.mk 850 260 20 20) _ Hrr)
    as (g2 & H2 & S2).
  { intros _. rewrite Fr. simpl. lia. }
  pose proof (paddle_side_same _ _ _ _ _ _ S2) as (Ssame & Hr2 & _).
  apply paddle_side_hit in S2.
  2:{ apply andb_true_iff. split; [reflexivity|].
      apply Rgtb_true. rewrite Fb. simpl. lra. }
  destruct S2 as (Hx & Hoff).
  destruct Hoff as (_ & _ & Hneg & _).
  rewrite Fr, Fb in Hx. rewrite Fb in Hr2.
  cbn [game_far_right PongGame.right Paddle.x coasted Ball.r] in Hx, Hr2.
  unfold same_but_ball in Ssame.
  assert (Hbp : Machine.before_pickup game_far_right 0 quiet_draws
                = Some g2).
  { unfold Machine.before_pickup. rewrite Hm. cbn [bind]. fold gw.
    unfold Machine.bounce_paddles. rewrite Hbox. cbn [bind].
    rewrite H1. cbn [bind]. exact H2. }
  assert (Hc2 : PongGame.collect_powerup g2 = g2).
  { unfold PongGame.collect_powerup. rewrite Ssame.
    cbn [PongGame.set_ball PongGame.powerup]. rewrite Hp. reflexivity. }
  exists (PongGame.check_win g2).
  destruct (check_win_keeps g2) as (_ & Wb & Wl & _).
  split.
  { unfold Machine.update_playing, Machine.before_goals. rewrite Hbp.
    cbn [bind]. rewrite Hc2. apply score_goals_quiet.
    - rewrite Hx, Hr2. lra.
    - rewrite Hx, Hr2, Ssame. cbn [PongGame.set_ball PongGame.cfg].
      rewrite Fc. simpl. lra. }
  rewrite Wb, Wl.
  assert (Hl2 : PongGame.left_score g2 = 0%Z).
  { rewrite Ssame. cbn [PongGame.set_ball PongGame.left_score].
    exact Hls. }
  rewrite Hl2. split; [reflexivity|].
  split; [simpl; lia|].
  split; [rewrite Hx; lra | exact Hneg].
Qed.

(** ** Contact on pygame's rectangles *)



(** ** The spawn timer on pygame's rectangles *)

Lemma spawns_true_iff (g : PongGame.t) (dt : R) :
  spawns g dt = true
  <-> PongGame.powerup g = None
      /\ PongGame.powerup_timer g + dt
         >= powerup_spawn_every_sec (PongGame.cfg g).
Proof.
  unfold spawns, Rgeb. destruct (PongGame.powerup g) as [p|].
  - split; [discriminate | intros [H _]; discriminate].
  - destruct (Rge_dec _ _); split; auto; try discriminate.
    intros [_ H]. contradiction.
Qed.

(** Whenever the step returns, the spawn timer is back at 0 if the step
    spawned and advanced by [dt] otherwise. *)
Lemma machine_step_spawn_timer (g g' : PongGame.t) (dt : R)
    (d : StepDraws) :
  Machine.update_playing g dt d = Some g' ->
  PongGame.powerup_timer g'
  = (if spawns g dt then 0 else PongGame.powerup_timer g + dt).
Proof.
  intros Hg.
  destruct (PongGame.tick_powerup g dt d) as [g0|] eqn:Ht.
  2:{ unfold Machine.update_playing, Machine.before_goals,
        Machine.before_pickup, PongGame.after_motion in Hg.
      rewrite Ht in Hg. discriminate. }
  destruct (machine_step_cases g g0 dt d Ht)
    as [[_ E] | (_ & g2 & g'' & _ & S & Hsc & E)];
    rewrite E in Hg; [discriminate|]. injection Hg as ->.
  destruct (score_goals_keeps (PongGame.collect_powerup g2) d)
    as (g3 & Hg3 & _ & _ & _ & _ & Htm).
  rewrite Hsc in Hg3. injection Hg3 as <-.
  rewrite Htm, (collect_powerup_ball g2).
  cbn [PongGame.set_boost_timer PongGame.set_powerup PongGame.powerup_timer].
  unfold same_but_ball in S. rewrite S.
  cbn [PongGame.set_ball PongGame.powerup_timer].
  pose proof (bounce_walls_same
                (PongGame.move_ball (PongGame.tick_boost g0 dt) dt)) as Sw.
  unfold same_but_ball in Sw. rewrite Sw.
  cbn [PongGame.set_ball PongGame.powerup_timer PongGame.move_ball].
  rewrite (tick_boost_same g0 dt).
  cbn [PongGame.set_boost_timer PongGame.powerup_timer].
  apply (tick_powerup_keeps g g0 dt d Ht).
Qed.

Lemma handle_input_keeps_timer (g : PongGame.t) (dt : R)
    (keys : Key -> bool) :
  PongGame.powerup_timer (PongGame.handle_input g dt keys)
  = PongGame.powerup_timer g.
Proof. rewrite (handle_input_fields g dt keys). reflexivity. Qed.

(** C6 (as amended): a step whose rectangles are small returns, and
    whenever a step returns the spawn timer is 0 if the step spawned a
    power-up (none existed and the timer plus [dt] had reached the spawn
    interval) and the old value plus [dt] otherwise; so a step that starts
    with a power-up on the field, consumed or not, only advances the timer.
    Over a stretch of play without a spawn the timer grows by exactly the
    time of its steps, and [restart] puts it back to 0.  The timer is reset
    by a spawn and by a restart, never by a consumption. *)
Theorem spawn_timer_counts_from_spawn (g : PongGame.t) (dt : R)
    (d : StepDraws) :
  (arena_fits (PongGame.cfg g) -> rects_small g dt ->
   exists g', Machine.update_playing g dt d = Some g')
  /\ (forall g',
        Machine.update_playing g dt d = Some g' ->
        PongGame.powerup_timer g'
        = (if spawns g dt then 0 else PongGame.powerup_timer g + dt)
        /\ (PongGame.powerup g <> None ->
            PongGame.powerup_timer g' = PongGame.powerup_timer g + dt)
        /\ (forall (t : R) (g'' : PongGame.t),
              SpawnFree g' t g'' ->
              PongGame.powerup_timer g''
              = (if spawns g dt then 0 else PongGame.powerup_timer g + dt)
                + t))
  /\ (spawns g dt = true <->
      PongGame.powerup g = None
      /\ PongGame.powerup_timer g + dt
         >= powerup_spawn_every_sec (PongGame.cfg g))
  /\ (forall (sd : ServeDraw) (g' : PongGame.t),
        PongGame.restart g sd = Some g' -> PongGame.powerup_timer g' = 0).
Proof.
  split.
  { intros Hfit Hsmall. rewrite (machine_step_agrees g dt d Hsmall).
    destruct (step_spawn_timer g dt d Hfit) as (g' & Hg' & _).
    exists g'. exact Hg'. }
  split.
  { intros g' Hg'.
    pose proof (machine_step_spawn_timer g g' dt d Hg') as Htm.
    split; [exact Htm|]. split.
    - intros Hp. rewrite Htm. unfold spawns.
      destruct (PongGame.powerup g); [reflexivity | contradiction].
    - intros t g'' Hrun. rewrite <- Htm. clear Htm Hg'.
      induction Hrun as [g1 | g1 dt1 keys t g2 _ IH
                         | g1 dt1 d1 g2 t g3 Hstep Hns _ IH].
      + lra.
      + rewrite IH. rewrite handle_input_keeps_timer. reflexivity.
      + rewrite IH.
        rewrite (machine_step_spawn_timer g1 g2 dt1 d1 Hstep), Hns. lra. }
  split; [apply spawns_true_iff|].
  intros sd g' Hr. rewrite restart_result in Hr. injection Hr as <-.
  reflexivity.
Qed.

Lemma spawn_timer_counts_from_spawn_witness :
  exists g',
    Machine.update_playing game_on_powerup (1 / 60) quiet_draws = Some g'
    /\ PongGame.powerup_timer g' = 10 + 1 / 60.
Proof.
  destruct (spawn_timer_counts_from_spawn game_on_powerup (1 / 60)
              quiet_draws) as (Hret & Hstep & _).
  destruct (Hret default_arena_fits on_powerup_rects_small) as (g' & Hg).
  exists g'. split; [exact Hg|].
  destruct (Hstep g' Hg) as (_ & Hadv & _).
  apply Hadv. discriminate.
Defined.

(** ** The outcome of a step on pygame's rectangles *)

(** X5: [update_playing] raises in exactly two cases.  One is the
    [ValueError] of [randint]: the step is due to spawn a power-up (none
    exists and the spawn timer plus [dt] has reached the interval) and the
    arena is too small for the spawn margins ([width < 240] or
    [height < 160]).  The other is the [TypeError] of [pygame.Rect]: an
    argument of the ball's box at line 281 or of a paddle's rectangle does
    not fit a C [long].  In particular neither the division in
    [apply_paddle_bounce] nor a [normalize] can fail inside a step. *)
Theorem step_raises_on_spawn_or_rect (g : PongGame.t) (dt : R)
    (d : StepDraws) :
  Machine.update_playing g dt d = None
  <-> ((PongGame.powerup g = None
        /\ PongGame.powerup_timer g + dt
           >= powerup_spawn_every_sec (PongGame.cfg g))
       /\ ((width (PongGame.cfg g) < 240)%Z
           \/ (height (PongGame.cfg g) < 160)%Z))
      \/ ~ rects_convert g dt.
Proof.
  assert (Hfit : ~ arena_fits (PongGame.cfg g)
                 <-> (width (PongGame.cfg g) < 240)%Z
                     \/ (height (PongGame.cfg g) < 160)%Z)
    by (unfold arena_fits; lia).
  rewrite <- (spawns_true_iff g dt), <- Hfit,
    <- (tick_powerup_raises g dt d).
  destruct (PongGame.tick_powerup g dt d) as [g0|] eqn:Ht.
  - destruct (machine_step_cases g g0 dt d Ht)
      as [[Hn E] | (Hc & g2 & g' & _ & _ & _ & E)]; rewrite E.
    + split; [intros _; right; exact Hn | reflexivity].
    + split; [discriminate|]. intros [H | H]; [discriminate | contradiction].
  - split; [intros _; left; reflexivity|]. intros _.
    unfold Machine.update_playing, Machine.before_goals,
      Machine.before_pickup, PongGame.after_motion.
    rewrite Ht. reflexivity.
Qed.

(** X6: a step awards at most one point and takes none away.  With the
    arena wide enough for the spawn margins, [r >= 0] and the step's
    rectangles small enough to be stored unchanged in the C ints of
    [pygame.Rect], the step returns, and either both scores are unchanged
    and the ball is still on screen, or the right score alone grew by one,
    or the left score alone grew by one; in the last two cases the ball
    restarts from the centre at the base speed with the boost off. *)
Theorem step_awards_at_most_one_point (g : PongGame.t) (dt : R)
    (d : StepDraws) :
  arena_fits (PongGame.cfg g) -> (0 <= Ball.r (PongGame.ball g))%Z ->
  rects_small g dt ->
  exists g',
    Machine.update_playing g dt d = Some g'
    /\ ((PongGame.left_score g' = PongGame.left_score g
         /\ PongGame.right_score g' = PongGame.right_score g
         /\ ball_on_screen (PongGame.cfg g) (PongGame.ball g'))
        \/ ((PongGame.left_score g' = PongGame.left_score g
             /\ PongGame.right_score g' = (PongGame.right_score g + 1)%Z
             \/ PongGame.left_score g' = (PongGame.left_score g + 1)%Z
                /\ PongGame.right_score g' = PongGame.right_score g)
            /\ Ball.x (PongGame.ball g') = IZR (width (PongGame.cfg g)) / 2
            /\ Ball.y (PongGame.ball g') = IZR (height (PongGame.cfg g)) / 2
            /\ Ball.speed (PongGame.ball g') = ball_speed (PongGame.cfg g)
            /\ PongGame.boost_timer g' = 0)).
Proof.
  intros Hfit Hr Hsmall.
  rewrite (machine_step_agrees g dt d Hsmall).
  destruct (before_goals_facts g dt d Hfit)
    as (gc & Hbg & (Fc & _ & _ & _ & Fls & Frs & Fr) & _).
  pose proof (arena_fits_width _ Hfit) as Hw.
  destruct (score_goals_cases gc d) as [[_ Hs] | [[_ Hs] | [Hon Hs]]];
    try (rewrite ?Fr, ?Fc; assumption);
    eexists; (split; [unfold PongGame.update_playing; rewrite Hbg; exact Hs|]);
    rewrite (check_win_same _); simpl.
  - right. rewrite Fc, Fls, Frs. repeat split. left. split; reflexivity.
  - right. rewrite Fc, Fls, Frs. repeat split. right. split; reflexivity.
  - left. rewrite <- Fc. repeat split; try assumption; apply Hon.
Qed.

Lemma step_awards_at_most_one_point_witness :
  exists g',
    Machine.update_playing game_before_contact (1 / 60) quiet_draws
    = Some g'
    /\ (PongGame.left_score g' + PongGame.right_score g' <= 1)%Z.
Proof.
  destruct (step_awards_at_most_one_point game_before_contact (1 / 60)
              quiet_draws) as (g' & Hg & Hcases).
  - exact default_arena_fits.
  - simpl; lia.
  - exact before_contact_rects_small.
  - exists g'. split; [exact Hg|].
    destruct Hcases as [(Hl & Hr & _) | ([[Hl Hr] | [Hl Hr]] & _)];
      rewrite Hl, Hr; simpl; lia.
Defined.

(** X9: after every step whose rectangles are small enough to be stored
    unchanged in the C ints of [pygame.Rect] the ball is inside the playing
    field: it lies between the walls ([r <= y <= height - r]) and is not
    wholly past the left or the right edge ([0 <= x + r] and
    [x - r <= width]), for a ball that fits between the walls ([0 <= r],
    [2r <= height]). *)
Theorem step_keeps_ball_in_field (g : PongGame.t) (dt : R) (d : StepDraws) :
  let cfg := PongGame.cfg g in
  arena_fits cfg -> (0 <= Ball.r (PongGame.ball g))%Z ->
  (Ball.r (PongGame.ball g) * 2 <= height cfg)%Z ->
  rects_small g dt ->
  exists g',
    Machine.update_playing g dt d = Some g'
    /\ ball_between_walls cfg (PongGame.ball g')
    /\ ball_on_screen cfg (PongGame.ball g').
Proof.
  intros cfg Hfit Hr H2r Hsmall.
  rewrite (machine_step_agrees g dt d Hsmall).
  destruct (before_goals_facts g dt d Hfit)
    as (gc & Hbg & (Fc & _ & _ & _ & _ & _ & Fr) & _ & Fw & _).
  pose proof (arena_fits_width _ Hfit) as Hw.
  specialize (Fw Hr H2r). fold cfg in Fw.
  assert (Hr' : 0 <= IZR (Ball.r (PongGame.ball g)))
    by (apply IZR_le; exact Hr).
  assert (Hw' : 0 <= IZR (width cfg)) by (apply IZR_le; exact Hw).
  assert (H2r' : IZR (Ball.r (PongGame.ball g)) * 2 <= IZR (height cfg)).
  { rewrite <- mult_IZR. apply IZR_le. exact H2r. }
  destruct (score_goals_cases gc d) as [[_ Hg] | [[_ Hg] | [Hon Hg]]];
    try (rewrite ?Fr, ?Fc; assumption);
    eexists; (split; [unfold PongGame.update_playing; rewrite Hbg; exact Hg|]);
    destruct (check_win_keeps (conceded gc true d)) as (_ & Wb1 & _);
    destruct (check_win_keeps (conceded gc false d)) as (_ & Wb2 & _);
    destruct (check_win_keeps gc) as (_ & Wb3 & _);
    rewrite ?Wb1, ?Wb2, ?Wb3.
  - unfold ball_between_walls, ball_on_screen. simpl.
    rewrite Fc, Fr. fold cfg. lra.
  - unfold ball_between_walls, ball_on_screen. simpl.
    rewrite Fc, Fr. fold cfg. lra.
  - split; [exact Fw|]. rewrite Fc in Hon. exact Hon.
Qed.

Lemma step_keeps_ball_in_field_witness :
  exists g',
    Machine.update_playing game_past_left_edge 0 quiet_draws = Some g'
    /\ ball_on_screen default_config (PongGame.ball g').
Proof.
  destruct (step_keeps_ball_in_field game_past_left_edge 0 quiet_draws)
    as (g' & Hg & _ & Hon).
  - exact default_arena_fits.
  - simpl; lia.
  - simpl; lia.
  - exact past_left_edge_rects_small.
  - exists g'. split; [exact Hg | exact Hon].
Defined.

(** ** The loop on pygame's rectangles *)

Lemma flown_x (g : PongGame.t) (dt : R) :
  exists m,
    (m = boost_multiplier (PongGame.cfg g) \/ m = 1)
    /\ Ball.x (flown g dt)
       = Ball.x (PongGame.ball g)
         + Ball.vx (PongGame.ball g)
           * (Ball.speed (PongGame.ball g) * m) * dt
    /\ Ball.r (flown g dt) = Ball.r (PongGame.ball g).
Proof.
  unfold flown.
  destruct (bounce_walls_keeps
              (PongGame.move_ball (PongGame.tick_boost g dt) dt))
    as (Hx & Hr & _).
  cbn zeta in Hx, Hr. rewrite Hx, Hr.
  unfold PongGame.move_ball. rewrite (tick_boost_same g dt).
  cbn [PongGame.set_boost_timer PongGame.set_ball PongGame.ball
       PongGame.cfg PongGame.boost_timer Ball.set_x Ball.set_y Ball.x
       Ball.r Ball.vx Ball.speed].
  destruct (Rgt_dec _ 0).
  - exists (boost_multiplier (PongGame.cfg g)). auto.
  - exists 1. split; [auto|]. split; [|reflexivity].
    assert (H1 : 1.0 = 1) by lra. rewrite H1. reflexivity.
Qed.

Lemma unit_vx_bound (b : Ball.t) :
  unit_direction b -> -1 <= Ball.vx b <= 1.
Proof. unfold unit_direction. intros H. split; nra. Qed.

(** The distance the ball covers in one step. *)
Lemma travel_bound (vx s m cap dt : R) :
  -1 <= vx <= 1 -> 0 <= s <= cap -> 0 <= dt ->
  Rabs (vx * (s * m) * dt) <= cap * Rmax 1 (Rabs m) * dt.
Proof.
  intros Hvx Hs Hdt.
  assert (Hm : 0 <= Rabs m <= Rmax 1 (Rabs m))
    by (split; [apply Rabs_pos | apply Rmax_r]).
  assert (Hv : Rabs vx <= 1) by (apply Rabs_le; lra).
  pose proof (Rabs_pos vx) as Hv0.
  rewrite !Rabs_mult. rewrite (Rabs_pos_eq s) by lra.
  rewrite (Rabs_pos_eq dt) by lra.
  assert (H1 : s * Rabs m <= cap * Rmax 1 (Rabs m)).
  { apply Rmult_le_compat; lra. }
  assert (H0 : 0 <= s * Rabs m) by (apply Rmult_le_pos; lra).
  assert (H2 : Rabs vx * (s * Rabs m) <= cap * Rmax 1 (Rabs m)).
  { replace (cap * Rmax 1 (Rabs m)) with (1 * (cap * Rmax 1 (Rabs m)))
      by lra.
    apply Rmult_le_compat; lra. }
  apply Rmult_le_compat_r; lra.
Qed.

(** In a well-formed game with small fixtures a short enough step builds
    small rectangles only. *)
Lemma sound_rects_small (g : PongGame.t) (dt : R) :
  sound g -> fixtures_small g -> 0 <= dt ->
  IZR (width (PongGame.cfg g)) + IZR (Ball.r (PongGame.ball g))
  + ball_speed_max (PongGame.cfg g)
    * Rmax 1 (Rabs (boost_multiplier (PongGame.cfg g))) * dt
  <= 536870912 ->
  rects_small g dt.
Proof.
  intros Hs (Hh & (Hlx & Hlw & Hlh) & (Hrx & Hrw & Hrh)) Hdt Hreach.
  destruct Hs as [wf_arena0 wf_speeds0 _ _ wf_left0 wf_right0 wf_radius0
                   wf_unit0 wf_speed0 _ wf_screen0 _ _ _ _].
  destruct wf_radius0 as [Hr0 Hr2].
  assert (Hr0' : 0 <= IZR (Ball.r (PongGame.ball g)))
    by (apply IZR_le; exact Hr0).
  assert (Hh' : IZR (height (PongGame.cfg g)) <= 536870912)
    by (apply IZR_le; exact Hh).
  assert (Hw' : 0 <= IZR (width (PongGame.cfg g))).
  { apply IZR_le. apply arena_fits_width. exact wf_arena0. }
  assert (Hpad : forall p, paddle_in_arena (PongGame.cfg g) p ->
            (0 <= Paddle.h p)%Z ->
            - 536870912 <= Paddle.y p <= 536870912).
  { intros p [Hy0 Hy1] Hph. apply IZR_le in Hph. lra. }
  split; [|split].
  - destruct (flown_x g dt) as (m & Hm & Hx & Hr).
    destruct (bounce_walls_between
                (PongGame.move_ball (PongGame.tick_boost g dt) dt))
      as [_ Hbw].
    destruct (move_ball_keeps g dt) as (Mc & _).
    cbn zeta in Hbw, Mc. rewrite Mc in Hbw.
    fold (flown g dt) in Hbw.
    assert (Hmr : Ball.r (PongGame.ball
                    (PongGame.move_ball (PongGame.tick_boost g dt) dt))
                  = Ball.r (PongGame.ball g)).
    { simpl. rewrite (tick_boost_same g dt). reflexivity. }
    rewrite Hmr in Hbw. specialize (Hbw Hr0 Hr2).
    unfold ball_between_walls in Hbw. rewrite Hr in Hbw.
    unfold small_ball. rewrite Hr. split; [|split; [lra | lia]].
    rewrite Hx.
    pose proof (unit_vx_bound _ wf_unit0) as Hvx.
    assert (Hsp : 0 <= Ball.speed (PongGame.ball g)
                  <= ball_speed_max (PongGame.cfg g)) by lra.
    assert (Ht : Rabs (Ball.vx (PongGame.ball g)
                       * (Ball.speed (PongGame.ball g) * m) * dt)
                 <= ball_speed_max (PongGame.cfg g)
                    * Rmax 1 (Rabs (boost_multiplier (PongGame.cfg g)))
                    * dt).
    { destruct Hm as [-> | ->].
      - apply travel_bound; assumption.
      - eapply Rle_trans; [apply travel_bound; eassumption|].
        apply Rmult_le_compat_r; [exact Hdt|].
        apply Rmult_le_compat_l; [lra|].
        rewrite Rabs_R1. apply Rmax_case; [apply Rmax_l | apply Rmax_l]. }
    destruct wf_screen0 as [Hs0 Hs1].
    unfold Rabs in Ht at 1. destruct (Rcase_abs _) in Ht; lra.
  - unfold small_paddle.
    pose proof (Hpad _ wf_left0 (proj1 Hlh)).
    repeat split; try lra; lia.
  - unfold small_paddle.
    pose proof (Hpad _ wf_right0 (proj1 Hrh)).
    repeat split; try lra; lia.
Qed.

Lemma fixtures_small_same (g g' : PongGame.t) :
  same_fixtures g g' -> fixtures_small g -> fixtures_small g'.
Proof.
  intros (Fc & Fl & Fr & _). unfold fixtures_small.
  rewrite Fc, Fl, Fr. cbn [Paddle.set_y Paddle.x Paddle.w Paddle.h]. auto.
Qed.

Lemma frame_fits_same (g g' : PongGame.t) (i : FrameInput) :
  same_fixtures g g' -> frame_fits g i -> frame_fits g' i.
Proof.
  intros (Fc & _ & _ & Fr). unfold frame_fits. rewrite Fc, Fr. auto.
Qed.

(** On frames that fit, the loop on pygame's rectangles does what the loop
    on rectangles of any size does. *)
Lemma machine_frame_agrees (g : PongGame.t) (i : FrameInput) :
  well_formed g -> fixtures_small g -> frame_fits g i ->
  Machine.frame g i = PongGame.frame g i.
Proof.
  intros Hwf Hfix Hfit. unfold Machine.frame, PongGame.frame.
  destruct (PongGame.on_events g (frame_events i) (restart_serve i))
    as [| |g1] eqn:He; try reflexivity.
  destruct (on_events_keeps_well_formed g g1 _ _ Hwf He) as [W1 F1].
  destruct (PongGame.state g1) eqn:Hs; try reflexivity.
  destruct (handle_input_keeps_well_formed g1 (frame_dt i) (frame_keys i)
              W1) as (W2 & F2 & _).
  pose proof (same_fixtures_trans _ _ _ F1 F2) as F.
  destruct (frame_fits_same _ _ i F Hfit) as [[Hdt _] Hreach].
  rewrite machine_step_agrees; [reflexivity|].
  apply sound_rects_small; try assumption.
  - exact (proj1 W2).
  - exact (fixtures_small_same _ _ F Hfix).
Qed.

Lemma before_contact_well_formed : well_formed game_before_contact.
Proof.
  split.
  - constructor; unfold arena_fits, paddle_in_arena, unit_direction,
      ball_between_walls, ball_on_screen, powerup_in_margins;
      simpl; try lia; try lra; try discriminate.
  - unfold match_decided. simpl. split; [discriminate | lia].
Qed.

Lemma before_contact_fixtures_small : fixtures_small game_before_contact.
Proof. unfold fixtures_small. simpl. repeat split; try lra; lia. Qed.

Lemma frame_of_play_fits :
  Forall (frame_fits game_before_contact) [frame_of_play].
Proof.
  assert (Hmax : Rmax 1 (Rabs 1.35) = 1.35).
  { rewrite Rabs_pos_eq by lra. apply Rmax_right. lra. }
  constructor; [|constructor].
  unfold frame_fits, frame_in_range, draws_in_range. simpl.
  repeat split; try lia; lra.
Qed.

(** X15: the game keeps itself well formed.  From a well-formed game with
    small fixtures (arena at most 2^29 high, paddles at most 2^29 from the
    origin with sides between 0 and 2^29), any number of frames with
    non-negative [dt], in-range [randint] results and a [dt] short enough
    for the ball to stay within 2^29 of the origin either ends the program
    (QUIT or ESC) or leaves a well-formed game with the same fixtures; the
    loop never raises.  Well formed means: paddles inside the arena, ball
    between the walls and on screen with a direction of length one and a
    speed between base and cap, timers non-negative, any power-up active
    and inside the spawn margins, scores between 0 and the win threshold
    with at most one of them at it, and the state [GAMEOVER] exactly when
    one is. *)
Theorem run_keeps_well_formed (g : PongGame.t) (frames : list FrameInput) :
  well_formed g ->
  fixtures_small g ->
  Forall (frame_fits g) frames ->
  Machine.run g frames = PongGame.Returned
  \/ exists g',
       Machine.run g frames = PongGame.Continues g'
       /\ well_formed g' /\ same_fixtures g g'.
Proof.
  intros Hwf Hfix Hin. revert g Hwf Hfix Hin.
  induction frames as [|i frames IH]; intros g Hwf Hfix Hin.
  - right. exists g. split; [reflexivity|].
    split; [exact Hwf | apply same_fixtures_refl].
  - inversion Hin as [|i' fs Hi Hrest]; subst.
    cbn [Machine.run]. rewrite (machine_frame_agrees g i Hwf Hfix Hi).
    destruct (frame_keeps_well_formed g i Hwf (proj1 Hi))
      as [Hret | (g1 & Hc & W1 & F1)].
    + rewrite Hret. left. reflexivity.
    + rewrite Hc.
      assert (Hrest' : Forall (frame_fits g1) frames).
      { revert Hrest. apply Forall_impl. intros j.
        apply frame_fits_same. exact F1. }
      destruct (IH g1 W1 (fixtures_small_same _ _ F1 Hfix) Hrest')
        as [Hret | (g2 & Hc2 & W2 & F2)].
      * left. exact Hret.
      * right. exists g2. split; [exact Hc2|].
        split; [exact W2 | exact (same_fixtures_trans _ _ _ F1 F2)].
Qed.

Lemma run_keeps_well_formed_witness :
  Machine.run game_before_contact [frame_of_play] = PongGame.Returned
  \/ exists g',
       Machine.run game_before_contact [frame_of_play]
       = PongGame.Continues g'
       /\ well_formed g'.
Proof.
  destruct (run_keeps_well_formed game_before_contact [frame_of_play]
              before_contact_well_formed before_contact_fixtures_small
              frame_of_play_fits)
    as [H | (g' & Hg & Hw & _)].
  - left. exact H.
  - right. exists g'. split; [exact Hg | exact Hw].
Defined.

(** ** The two models of the rectangles *)

(** X19: while the rectangles of a step are small (coordinates and sides
    of at most 2^29, radius of at most 2^28), [pygame.Rect] neither raises
    nor wraps: the box of line 281 is stored with the corner
    [(int(x - r), int(y - r))] and the sides [2r], each paddle's rectangle
    with [(int(x), int(y), w, h)], and the step on [pygame.Rect]'s C ints is
    the step on rectangles of integers of any size, so everything proved of
    [PongGame.update_playing] holds of [Machine.update_playing] there. *)
Theorem small_rects_are_exact (g : PongGame.t) (dt : R) (d : StepDraws) :
  let b := flown g dt in
  let stored (p : Paddle.t) :=
    Rect.mk (py_int (Paddle.x p)) (py_int (Paddle.y p))
      (Paddle.w p) (Paddle.h p) in
  rects_small g dt ->
  Machine.b_rect b
  = Some (Rect.mk (py_int (Ball.x b - IZR (Ball.r b)))
            (py_int (Ball.y b - IZR (Ball.r b)))
            (Ball.r b * 2) (Ball.r b * 2))
  /\ Machine.rect (PongGame.left g) = Some (stored (PongGame.left g))
  /\ Machine.rect (PongGame.right g) = Some (stored (PongGame.right g))
  /\ Machine.before_pickup g dt d = PongGame.before_pickup g dt d
  /\ Machine.update_playing g dt d = PongGame.update_playing g dt d.
Proof.
  intros b stored Hs. pose proof Hs as (Hb & Hl & Hr).
  split; [exact (machine_b_rect_small _ Hb)|].
  split; [exact (machine_rect_small _ Hl)|].
  split; [exact (machine_rect_small _ Hr)|].
  split; [exact (machine_before_pickup_agrees g dt d Hs)|].
  exact (machine_step_agrees g dt d Hs).
Qed.

Lemma small_rects_are_exact_witness :
  Machine.update_playing game_on_powerup (1 / 60) quiet_draws
  = Some game_after_pickup.
Proof.
  destruct (small_rects_are_exact game_on_powerup (1 / 60) quiet_draws
              on_powerup_rects_small) as (_ & _ & _ & _ & ->).
  exact pickup_step.
Defined.

(** X20: over frames that fit (non-negative [dt], in-range [randint]
    results, [dt] short enough for the ball to stay within 2^29 of the
    origin), from a well-formed game with small fixtures, the loop on
    [pygame.Rect]'s C ints runs exactly as the loop on rectangles of
    integers of any size. *)
Theorem fitting_frames_are_exact (g : PongGame.t)
    (frames : list FrameInput) :
  well_formed g ->
  fixtures_small g ->
  Forall (frame_fits g) frames ->
  Machine.run g frames = PongGame.run g frames.
Proof.
  intros Hwf Hfix Hin. revert g Hwf Hfix Hin.
  induction frames as [|i frames IH]; intros g Hwf Hfix Hin;
    [reflexivity|].
  inversion Hin as [|i' fs Hi Hrest]; subst.
  cbn [Machine.run PongGame.run].
  rewrite (machine_frame_agrees g i Hwf Hfix Hi).
  destruct (frame_keeps_well_formed g i Hwf (proj1 Hi))
    as [Hret | (g1 & Hc & W1 & F1)].
  - rewrite Hret. reflexivity.
  - rewrite Hc. apply IH.
    + exact W1.
    + exact (fixtures_small_same _ _ F1 Hfix).
    + revert Hrest. apply Forall_impl. intros j.
      apply frame_fits_same. exact F1.
Qed.

Lemma fitting_frames_are_exact_witness :
  Machine.run game_before_contact [frame_of_play]
  = PongGame.run game_before_contact [frame_of_play].
Proof.
  exact (fitting_frames_are_exact game_before_contact [frame_of_play]
           before_contact_well_formed before_contact_fixtures_small
           frame_of_play_fits).
Defined.
